(** * The realtime-connection and session core of the browser client

    A shallow embedding of these source units of the front end:

    - [WebSocketHook]    : hooks/useWebsocket   (the [useWebSocket] hook)
    - [ErrorService]     : services/error.service.js ([handleApiError])
    - [ApiService]       : services/api.service.js (the axios interceptors,
                           rejected branch and request side)
    - [UseKeycloak]      : hooks/useKeycloak    (the [useKeycloak] hook and the
                           module-level singleton it shares)
    - [ApiResponses]     : services/api.service.js (the fulfilled branch)
    - [UserService]      : services/user.service.js
    - [KeycloakTokens]   : hooks/useKeycloak    ([getToken], [updateToken])
    - [WebSocketOptions] : hooks/useWebsocket and contexts/websocketContext
                           (the options and their defaults)

    JavaScript runs these on a single-threaded event loop.  Every function
    below is one synchronous run of the source: a plain call, or the part of
    an [async] function between two [await]s.  What the outside world answers
    (the browser, the identity provider, the backend) is an argument of the
    part that resumes.  Mutable module variables, React state and refs are
    fields of an explicit state record that each run takes and returns.
    React state setters are modelled as assignments that are visible to the
    next run.  An effect that React runs again at a later render is a run of
    its own: the auto-connect effect of [useWebSocket] is an event of the
    connection's transition system, and [UseKeycloak.render] is the render
    of the hooks whose [keycloak] cell has changed. *)

From Stdlib Require Import ZArith Lia Ascii String.
From stdpp Require Import base option list strings functions gmap.

Local Open Scope string_scope.
Local Open Scope list_scope.
Set Warnings "-register-all".

(** ** JavaScript values and control flow shared by the units *)

(** The JSON-like values that travel through the hooks. *)
Inductive JsVal :=
| JUndefined
| JNull
| JBool (b : bool)
| JNum (n : Z)
| JStr (s : string)
| JObj (props : list (string * JsVal)).

Fixpoint assoc {A : Type} (k : string) (l : list (string * A)) : option A :=
  match l with
  | [] => None
  | (k', v) :: l' => if bool_decide (k = k') then Some v else assoc k l'
  end.

(** [v.k]: [None] is the TypeError of reading a property of [null] or
    [undefined]; a missing property reads as [undefined]. *)
Definition getProp (v : JsVal) (k : string) : option JsVal :=
  match v with
  | JUndefined | JNull => None
  | JObj props => Some (default JUndefined (assoc k props))
  | _ => Some JUndefined
  end.

(** [v === 'literal'] *)
Definition isString (literal : string) (v : JsVal) : bool :=
  match v with
  | JStr t => bool_decide (t = literal)
  | _ => false
  end.

(** [if (s)] on a value that is a string or null. *)
Definition truthy (s : option string) : option string :=
  match s with
  | Some t => if bool_decide (t = "") then None else Some t
  | None => None
  end.

(** [hay.includes(needle)] *)
Fixpoint includes (needle hay : string) : bool :=
  String.prefix needle hay ||
  match hay with
  | EmptyString => false
  | String _ rest => includes needle rest
  end.

(** [c.toLowerCase()] on the ASCII range. *)
Definition lower_ascii (c : ascii) : ascii :=
  let n := nat_of_ascii c in
  if (65 <=? n)%nat && (n <=? 90)%nat then ascii_of_nat (n + 32) else c.

Fixpoint toLowerCase (s : string) : string :=
  match s with
  | EmptyString => EmptyString
  | String c rest => String (lower_ascii c) (toLowerCase rest)
  end.

(** The completion of one synchronous run on a state [S]: it returned, or
    an exception went out of it; the state reached is kept either way,
    since assignments made before a throw stay made. *)
Inductive result (S : Type) :=
| Returned (s : S)
| Threw (e : string) (s : S).
Arguments Returned {S} s.
Arguments Threw {S} e s.

Definition stateOf {S : Type} (r : result S) : S :=
  match r with Returned s | Threw _ s => s end.

Definition returned {S : Type} (r : result S) : bool :=
  match r with Returned _ => true | Threw _ _ => false end.

(** Sequencing: the rest is skipped when the first part threw. *)
Definition andThen {S : Type} (r : result S) (k : S -> result S) : result S :=
  match r with
  | Returned s => k s
  | Threw e s => Threw e s
  end.

(** [try { body } catch (e) { handler }] *)
Definition tryCatch {S : Type} (body : result S) (handler : string -> S -> result S)
  : result S :=
  match body with
  | Returned s => Returned s
  | Threw e s => handler e s
  end.

(** [xs.forEach(body)]: an exception out of [body] ends the iteration. *)
Fixpoint forEach {A S : Type} (body : A -> S -> result S) (xs : list A) (s : S)
  : result S :=
  match xs with
  | [] => Returned s
  | x :: rest => andThen (body x s) (forEach body rest)
  end.

(** What an operation outside the unit does when it is called or awaited:
    it gives a value, or it throws (a promise: rejects with) an error. *)
Inductive answer (A : Type) :=
| Gives (a : A)
| Fails (e : string).
Arguments Gives {A} a.
Arguments Fails {A} e.

(** Identity of a JavaScript function value (a handler, a callback). *)
Definition fn := nat.

(** ** hooks/useWebsocket: the [useWebSocket] hook *)
Module WebSocketHook.

Inductive ReadyState := CONNECTING | OPEN | CLOSING | CLOSED.

#[global] Instance ReadyState_eq_dec : EqDecision ReadyState.
Proof. solve_decision. Defined.

(** The [config] object of the hook (lines 460-470). *)
Record Config := {
  url : string;
  reconnectInterval : Z;
  maxReconnectAttempts : Z;
  enableReconnect : bool;
  enableMessageHistory : bool;
  enableAuth : bool;
  protocols : list string;
  authMethod : string;
  onOpen : option fn;
  onMessage : option fn;
  onError : option fn;
  onClose : option fn;
}.

(** The values the hook passes to [setError]. *)
Inductive WsError :=
| ConnectionError                 (* 'WebSocket connection error' *)
| ReconnectFailed (max : Z)       (* 'WebSocket reconnect failed, reached max attempts (max)' *)
| FailedToConnect (msg : string). (* 'Failed to connect: msg' *)

(** What the closures of one render captured of the React state. *)
Record Render := {
  r_authenticated : bool;
  r_connecting : bool;
  r_connected : bool;
}.

(** A browser WebSocket object; [wsRender] is the render whose [connect]
    created it, which its four handlers close over. *)
Record WebSocket := {
  wsUrl : string;
  readyState : ReadyState;
  wsRender : Render;
}.

Inductive Direction := received | sent.

(** The argument of [sendMessage] and [send]: a string, a value that
    [JSON.stringify] turns into a string, or a value it throws on (an
    object with a cycle, a BigInt). *)
Inductive Message :=
| Text (s : string)
| Object (v : JsVal)
| Unserializable.

(** [useState] cells. *)
Record Ui := {
  socket : option nat;
  connected : bool;
  connecting : bool;
  error : option WsError;
  lastMessage : option string;
  messageHistory : list (Direction * string);
}.

(** [useRef] cells. *)
Record Refs := {
  socketRef : option nat;
  reconnectTimeoutRef : option nat;
  reconnectAttemptsRef : nat;
  messageQueueRef : list string;
  eventListenersRef : gmap string (list fn);
  isConnectingRef : bool;
}.

(** The browser and React around the hook: the socket objects created so
    far (a socket is named by its index), the frames handed to
    [WebSocket.send] oldest first, the pending timers, and the calls made
    to handlers and callbacks oldest first.  Every timer of the hook calls
    [connect]; a pending timer is kept with its delay and the render whose
    [connect] it calls.  [timers] holds the timers a close handler armed
    (lines 652-654), [connectTimers] those that [reconnect] (line 739) and
    the auto-connect effect (lines 752-754) armed; one counter names them
    all.  [autoConnect] is the cleanup React holds for the auto-connect
    effect once the effect has run: the [timeoutId] that cleanup captured. *)
Record Host := {
  sockets : list WebSocket;
  wire : list (nat * string);
  timers : gmap nat (Z * Render);
  connectTimers : gmap nat (Z * Render);
  nextTimer : nat;
  calls : list (fn * JsVal);
  autoConnect : option (option nat);
}.

Record State := {
  ui : Ui;
  refs : Refs;
  host : Host;
}.

Definition initialState : State :=
  {| ui := {| socket := None; connected := false; connecting := false;
              error := None; lastMessage := None; messageHistory := [] |};
     refs := {| socketRef := None; reconnectTimeoutRef := None;
                reconnectAttemptsRef := 0; messageQueueRef := [];
                eventListenersRef := ∅; isConnectingRef := false |};
     host := {| sockets := []; wire := []; timers := ∅; connectTimers := ∅;
                nextTimer := 0; calls := []; autoConnect := None |} |}.

(** *** Field updates *)

Definition withUi (f : Ui -> Ui) (s : State) : State :=
  {| ui := f (ui s); refs := refs s; host := host s |}.
Definition withRefs (f : Refs -> Refs) (s : State) : State :=
  {| ui := ui s; refs := f (refs s); host := host s |}.
Definition withHost (f : Host -> Host) (s : State) : State :=
  {| ui := ui s; refs := refs s; host := f (host s) |}.

Definition setSocket (v : option nat) : State -> State :=
  withUi (fun u => {| socket := v; connected := connected u; connecting := connecting u;
                      error := error u; lastMessage := lastMessage u;
                      messageHistory := messageHistory u |}).
Definition setConnected (v : bool) : State -> State :=
  withUi (fun u => {| socket := socket u; connected := v; connecting := connecting u;
                      error := error u; lastMessage := lastMessage u;
                      messageHistory := messageHistory u |}).
Definition setConnecting (v : bool) : State -> State :=
  withUi (fun u => {| socket := socket u; connected := connected u; connecting := v;
                      error := error u; lastMessage := lastMessage u;
                      messageHistory := messageHistory u |}).
Definition setError (v : option WsError) : State -> State :=
  withUi (fun u => {| socket := socket u; connected := connected u; connecting := connecting u;
                      error := v; lastMessage := lastMessage u;
                      messageHistory := messageHistory u |}).
Definition setLastMessage (v : option string) : State -> State :=
  withUi (fun u => {| socket := socket u; connected := connected u; connecting := connecting u;
                      error := error u; lastMessage := v;
                      messageHistory := messageHistory u |}).
Definition setMessageHistory (f : list (Direction * string) -> list (Direction * string))
  : State -> State :=
  withUi (fun u => {| socket := socket u; connected := connected u; connecting := connecting u;
                      error := error u; lastMessage := lastMessage u;
                      messageHistory := f (messageHistory u) |}).

Definition setSocketRef (v : option nat) : State -> State :=
  withRefs (fun r => {| socketRef := v; reconnectTimeoutRef := reconnectTimeoutRef r;
                        reconnectAttemptsRef := reconnectAttemptsRef r;
                        messageQueueRef := messageQueueRef r;
                        eventListenersRef := eventListenersRef r;
                        isConnectingRef := isConnectingRef r |}).
Definition setReconnectTimeoutRef (v : option nat) : State -> State :=
  withRefs (fun r => {| socketRef := socketRef r; reconnectTimeoutRef := v;
                        reconnectAttemptsRef := reconnectAttemptsRef r;
                        messageQueueRef := messageQueueRef r;
                        eventListenersRef := eventListenersRef r;
                        isConnectingRef := isConnectingRef r |}).
Definition setReconnectAttemptsRef (v : nat) : State -> State :=
  withRefs (fun r => {| socketRef := socketRef r; reconnectTimeoutRef := reconnectTimeoutRef r;
                        reconnectAttemptsRef := v;
                        messageQueueRef := messageQueueRef r;
                        eventListenersRef := eventListenersRef r;
                        isConnectingRef := isConnectingRef r |}).
Definition setMessageQueueRef (v : list string) : State -> State :=
  withRefs (fun r => {| socketRef := socketRef r; reconnectTimeoutRef := reconnectTimeoutRef r;
                        reconnectAttemptsRef := reconnectAttemptsRef r;
                        messageQueueRef := v;
                        eventListenersRef := eventListenersRef r;
                        isConnectingRef := isConnectingRef r |}).
Definition setEventListenersRef (v : gmap string (list fn)) : State -> State :=
  withRefs (fun r => {| socketRef := socketRef r; reconnectTimeoutRef := reconnectTimeoutRef r;
                        reconnectAttemptsRef := reconnectAttemptsRef r;
                        messageQueueRef := messageQueueRef r;
                        eventListenersRef := v;
                        isConnectingRef := isConnectingRef r |}).
Definition setIsConnectingRef (v : bool) : State -> State :=
  withRefs (fun r => {| socketRef := socketRef r; reconnectTimeoutRef := reconnectTimeoutRef r;
                        reconnectAttemptsRef := reconnectAttemptsRef r;
                        messageQueueRef := messageQueueRef r;
                        eventListenersRef := eventListenersRef r;
                        isConnectingRef := v |}).

Definition setSockets (v : list WebSocket) : State -> State :=
  withHost (fun h => {| sockets := v; wire := wire h; timers := timers h;
                        connectTimers := connectTimers h;
                        nextTimer := nextTimer h; calls := calls h;
                        autoConnect := autoConnect h |}).
Definition setWire (v : list (nat * string)) : State -> State :=
  withHost (fun h => {| sockets := sockets h; wire := v; timers := timers h;
                        connectTimers := connectTimers h;
                        nextTimer := nextTimer h; calls := calls h;
                        autoConnect := autoConnect h |}).
Definition setTimers (v : gmap nat (Z * Render)) (n : nat) : State -> State :=
  withHost (fun h => {| sockets := sockets h; wire := wire h; timers := v;
                        connectTimers := connectTimers h;
                        nextTimer := n; calls := calls h;
                        autoConnect := autoConnect h |}).
Definition setConnectTimers (v : gmap nat (Z * Render)) (n : nat) : State -> State :=
  withHost (fun h => {| sockets := sockets h; wire := wire h; timers := timers h;
                        connectTimers := v;
                        nextTimer := n; calls := calls h;
                        autoConnect := autoConnect h |}).
Definition setCalls (v : list (fn * JsVal)) : State -> State :=
  withHost (fun h => {| sockets := sockets h; wire := wire h; timers := timers h;
                        connectTimers := connectTimers h;
                        nextTimer := nextTimer h; calls := v;
                        autoConnect := autoConnect h |}).
Definition setAutoConnect (v : option (option nat)) : State -> State :=
  withHost (fun h => {| sockets := sockets h; wire := wire h; timers := timers h;
                        connectTimers := connectTimers h;
                        nextTimer := nextTimer h; calls := calls h;
                        autoConnect := v |}).

(** A call of one of the two registry functions of the hook. *)
Inductive RegistryCall :=
| Register (eventType : string) (listener : fn)     (* addEventListener(eventType, listener) *)
| Unregister (eventType : string) (listener : fn).  (* the closure it returned, or
                                                       removeEventListener(eventType, listener) *)

(** *** The hook *)

(** What the surroundings answer during one run: the value [getToken()]
    returns, and the exception [new WebSocket(...)] throws, if any. *)
Record Ambient := {
  tokenNow : option string;
  webSocketThrows : option string;
}.

Section Hook.

Variable config : Config.
Variable JSON_parse : string -> option JsVal.   (* [None]: SyntaxError *)
Variable JSON_stringify : JsVal -> string.
Variable encodeURIComponent : string -> string.
(** How a handler or a callback completes when it is called with an
    argument: [None], it returns; [Some e], it throws [e]. *)
Variable behaviour : fn -> JsVal -> option string.
(** What a registered listener does to the registry while it runs, before
    it completes: the calls it makes of [addEventListener], of the closure
    that returned, and of [removeEventListener], in order.  A listener or a
    callback of [config] that calls another function of the hook while it
    runs ([sendMessage], [disconnect], ...) is not described here. *)
Variable registryCalls : fn -> JsVal -> list RegistryCall.

Definition readyStateOf (s : State) (k : nat) : option ReadyState :=
  readyState <$> sockets (host s) !! k.

Definition setReadyState (k : nat) (rs : ReadyState) (s : State) : State :=
  setSockets
    (alter (fun w => {| wsUrl := wsUrl w; readyState := rs; wsRender := wsRender w |})
       k (sockets (host s))) s.

(** [socketRef.current?.readyState === WebSocket.OPEN] *)
Definition currentOpen (s : State) : option nat :=
  match socketRef (refs s) with
  | Some k => if bool_decide (readyStateOf s k = Some OPEN) then Some k else None
  | None => None
  end.

(** The browser's [WebSocket.send]: transmits on an open socket, throws on
    a connecting one, and silently discards on a closing or closed one. *)
Definition wsSend (k : nat) (data : string) (s : State) : result State :=
  match readyStateOf s k with
  | Some OPEN => Returned (setWire (wire (host s) ++ [(k, data)]) s)
  | Some CONNECTING => Threw "InvalidStateError" s
  | _ => Returned s
  end.

(** The browser's [WebSocket.close]. *)
Definition wsClose (k : nat) (s : State) : State :=
  match readyStateOf s k with
  | Some CONNECTING | Some OPEN => setReadyState k CLOSING s
  | _ => s
  end.

(** [setTimeout] as the close handler calls it. *)
Definition setTimeout (delay : Z) (r : Render) (s : State) : nat * State :=
  let t := nextTimer (host s) in
  (t, setTimers (<[t := (delay, r)]> (timers (host s))) (S t) s).

(** [setTimeout] as [reconnect] and the auto-connect effect call it. *)
Definition setConnectTimeout (delay : Z) (r : Render) (s : State) : nat * State :=
  let t := nextTimer (host s) in
  (t, setConnectTimers (<[t := (delay, r)]> (connectTimers (host s))) (S t) s).

(** [clearTimeout] cancels the timer of that name, whoever armed it. *)
Definition clearTimeout (t : nat) (s : State) : State :=
  setConnectTimers (delete t (connectTimers (host s))) (nextTimer (host s))
    (setTimers (delete t (timers (host s))) (nextTimer (host s)) s).

(** Calling a callback of [config]. *)
Definition call (f : fn) (arg : JsVal) (s : State) : result State :=
  let s' := setCalls (calls (host s) ++ [(f, arg)]) s in
  match behaviour f arg with
  | None => Returned s'
  | Some e => Threw e s'
  end.

(** [if (config.onX) { config.onX(event); }] *)
Definition callIfSet (f : option fn) (arg : JsVal) (s : State) : result State :=
  match f with
  | Some f => call f arg s
  | None => Returned s
  end.

Definition openEvent : JsVal := JObj [].
Definition errorEvent : JsVal := JObj [].
Definition messageEvent (data : string) : JsVal := JObj [("data", JStr data)].
Definition closeEvent (wasClean : bool) : JsVal := JObj [("wasClean", JBool wasClean)].

(** [typeof message === 'string' ? message : JSON.stringify(message)];
    [None] when [JSON.stringify] throws. *)
Definition messageData (m : Message) : option string :=
  match m with
  | Text t => Some t
  | Object v => Some (JSON_stringify v)
  | Unserializable => None
  end.

(** [token.startsWith('Bearer ') ? token.substring(7) : token] *)
Definition cleanToken (token : string) : string :=
  if String.prefix "Bearer " token
  then String.substring 7 (String.length token - 7) token
  else token.

(** [addEventListener] (lines 473-478); the closure it returns is
    [removeEventListener] on the same arguments. *)
Definition addEventListener (eventType : string) (listener : fn) (s : State) : State :=
  let reg := eventListenersRef (refs s) in
  let reg := match reg !! eventType with
             | Some _ => reg
             | None => <[eventType := []]> reg
             end in
  setEventListenersRef
    (<[eventType := default [] (reg !! eventType) ++ [listener]]> reg) s.

(** [listeners.splice(listeners.indexOf(listener), 1)] when it is there. *)
Fixpoint spliceFirst (listener : fn) (listeners : list fn) : list fn :=
  match listeners with
  | [] => []
  | l :: rest => if bool_decide (l = listener) then rest
                 else l :: spliceFirst listener rest
  end.

Definition removeEventListener (eventType : string) (listener : fn) (s : State) : State :=
  let reg := eventListenersRef (refs s) in
  match reg !! eventType with
  | Some listeners =>
      let listeners := spliceFirst listener listeners in
      match listeners with
      | [] => setEventListenersRef (delete eventType reg) s
      | _ => setEventListenersRef (<[eventType := listeners]> reg) s
      end
  | None => s
  end.

(** [send] (lines 494-498): no queue, nothing happens unless open. *)
Definition send (m : Message) (s : State) : result State :=
  match currentOpen s with
  | Some k =>
      match messageData m with
      | Some data => wsSend k data s
      | None => Threw "TypeError" s
      end
  | None => Returned s
  end.

(** One call of the registry by a listener. *)
Definition registryCall (c : RegistryCall) (s : State) : State :=
  match c with
  | Register eventType listener => addEventListener eventType listener s
  | Unregister eventType listener => removeEventListener eventType listener s
  end.

(** Calling a registered listener: the call is recorded, the listener
    makes its calls of the registry, and it returns or throws. *)
Definition callListener (f : fn) (arg : JsVal) (s : State) : result State :=
  let s := setCalls (calls (host s) ++ [(f, arg)]) s in
  let s := fold_left (fun s c => registryCall c s) (registryCalls f arg) s in
  match behaviour f arg with
  | None => Returned s
  | Some e => Threw e s
  end.

(** The array object [listeners] of line 611 while [forEach] runs over it.
    It is the array the registry holds for the event type: the registry
    functions push to it and splice it in place, and replace no array.
    When a splice leaves it empty they delete its key, and from then on no
    function of the hook reaches that object again (a later
    [addEventListener] makes a new array): [None] is the array after that,
    empty for good. *)
Definition arrayAfter (eventType : string) (c : RegistryCall)
    (listeners : option (list fn)) : option (list fn) :=
  match listeners with
  | Some l =>
      match c with
      | Register t f => if bool_decide (t = eventType) then Some (l ++ [f]) else Some l
      | Unregister t f =>
          if bool_decide (t = eventType)
          then match spliceFirst f l with
               | [] => None
               | l' => Some l'
               end
          else Some l
      end
  | None => None
  end.

(** [listeners.forEach((handler) => handler(parsed))] (line 613), from
    index [k] with [n] indices to go: [Array.prototype.forEach] fixes the
    number of indices when it starts, and at each index it reads the array
    as it is then, passing over an index the array no longer has. *)
Fixpoint forEachLive (eventType : string) (arg : JsVal) (k n : nat)
    (listeners : option (list fn)) (s : State) : result State :=
  match n with
  | 0 => Returned s
  | S n =>
      match default [] listeners !! k with
      | Some handler =>
          andThen (callListener handler arg s)
            (forEachLive eventType arg (S k) n
               (fold_left (fun l c => arrayAfter eventType c l)
                  (registryCalls handler arg) listeners))
      | None => forEachLive eventType arg (S k) n listeners s
      end
  end.

(** [connect] (lines 501-668), up to the installation of the four handlers
    on the new socket, which are [onopen], [onmessage], [onerror] and
    [onclose] below.  It has no [await]: it runs to its end when called. *)
Definition connect (r : Render) (a : Ambient) (s : State) : State :=
  if bool_decide (is_Some (currentOpen s)) || isConnectingRef (refs s) || r_connecting r
  then s
  else if bool_decide (url config = "") then s
  else if enableAuth config && negb (r_authenticated r) then s
  else
    let s := setError None (setConnecting true (setIsConnectingRef true s)) in
    let wsUrl :=
      if enableAuth config && r_authenticated r && bool_decide (authMethod config = "url")
      then match truthy (tokenNow a) with
           | Some token =>
               let separator := if includes "?" (url config) then "&" else "?" in
               url config +:+ separator +:+ "token=" +:+ encodeURIComponent (cleanToken token)
           | None => url config
           end
      else url config in
    match webSocketThrows a with
    | None =>
        let k := length (sockets (host s)) in
        let newSocket := {| wsUrl := wsUrl; readyState := CONNECTING; wsRender := r |} in
        setSocketRef (Some k) (setSockets (sockets (host s) ++ [newSocket]) s)
    | Some msg =>
        setIsConnectingRef false
          (setConnecting false (setError (Some (FailedToConnect msg)) s))
    end.

(** The loop of lines 556-559. *)
Fixpoint flush (k : nat) (queue : list string) (s : State) : result State :=
  match queue with
  | [] => Returned s
  | queuedMessage :: rest =>
      andThen (wsSend k queuedMessage (setMessageQueueRef rest s)) (flush k rest)
  end.

(** [newSocket.onopen] (lines 542-577) of socket [k]. *)
Definition onopen (k : nat) (token : option string) (s : State) : result State :=
  match sockets (host s) !! k with
  | None => Returned s
  | Some w =>
      let s := setSocket (Some k) s in
      let s := setConnected true s in
      let s := setConnecting false s in
      let s := setIsConnectingRef false s in
      let s := setError None s in
      let s := setReconnectAttemptsRef 0 s in
      andThen (flush k (messageQueueRef (refs s)) s) (fun s =>
      andThen
        (if enableAuth config && r_authenticated (wsRender w)
            && bool_decide (authMethod config = "message")
         then match truthy token with
              | Some token =>
                  wsSend k (JSON_stringify
                              (JObj [("type", JStr "auth");
                                     ("token", JStr (cleanToken token))])) s
              | None => Returned s
              end
         else Returned s) (fun s =>
      callIfSet (onOpen config) openEvent s))
  end.

(** Lines 611-614: [eventListenersRef.current.get(parsed.type)], the
    registry being keyed by strings, and the [forEach] over the array it
    holds when that is not empty. *)
Definition dispatch (ty : JsVal) (parsed : JsVal) (s : State) : result State :=
  match ty with
  | JStr t =>
      match eventListenersRef (refs s) !! t with
      | Some (h :: hs) => forEachLive t parsed 0 (length (h :: hs)) (Some (h :: hs)) s
      | _ => Returned s
      end
  | _ => Returned s
  end.

(** [newSocket.onmessage] (lines 579-615); [now] is what
    [new Date().toISOString()] gives. *)
Definition onmessage (data : string) (now : string) (s : State) : result State :=
  let s := setLastMessage (Some data) s in
  let s := if enableMessageHistory config
           then setMessageHistory (fun h => h ++ [(received, data)]) s else s in
  andThen (callIfSet (onMessage config) (messageEvent data) s) (fun s =>
  let parsed := match JSON_parse data with
                | Some v => v
                | None => JObj [("type", JStr "raw"); ("data", JStr data)]
                end in
  match getProp parsed "type" with
  | None => Threw "TypeError" s
  | Some ty =>
      andThen
        (if isString "ping" ty
         then send (Object (JObj [("type", JStr "pong"); ("time", JStr now)])) s
         else Returned s) (dispatch ty parsed)
  end).

(** [newSocket.onerror] (lines 617-626). *)
Definition onerror (s : State) : result State :=
  let s := setError (Some ConnectionError) s in
  let s := setConnecting false s in
  let s := setIsConnectingRef false s in
  callIfSet (onError config) errorEvent s.

(** [newSocket.onclose] (lines 628-660) of socket [k]. *)
Definition onclose (k : nat) (wasClean : bool) (s : State) : result State :=
  match sockets (host s) !! k with
  | None => Returned s
  | Some w =>
      let s := setSocket None s in
      let s := setConnected false s in
      let s := setConnecting false s in
      let s := setIsConnectingRef false s in
      andThen (callIfSet (onClose config) (closeEvent wasClean) s) (fun s =>
      let s := match reconnectTimeoutRef (refs s) with
               | Some t => setReconnectTimeoutRef None (clearTimeout t s)
               | None => s
               end in
      if enableReconnect config
         && (Z.of_nat (reconnectAttemptsRef (refs s)) <? maxReconnectAttempts config)%Z
         && negb wasClean
      then
        let s := setReconnectAttemptsRef (reconnectAttemptsRef (refs s) + 1) s in
        let delay := reconnectInterval config in
        let '(t, s) := setTimeout delay (wsRender w) s in
        Returned (setReconnectTimeoutRef (Some t) s)
      else if (maxReconnectAttempts config <=? Z.of_nat (reconnectAttemptsRef (refs s)))%Z
      then Returned (setError (Some (ReconnectFailed (maxReconnectAttempts config))) s)
      else Returned s)
  end.

(** [disconnect] (lines 671-688). *)
Definition disconnect (s : State) : State :=
  let s := match reconnectTimeoutRef (refs s) with
           | Some t => setReconnectTimeoutRef None (clearTimeout t s)
           | None => s
           end in
  let s := match socketRef (refs s) with
           | Some k => setSocketRef None (wsClose k s)
           | None => s
           end in
  let s := setSocket None s in
  let s := setConnected false s in
  let s := setConnecting false s in
  let s := setIsConnectingRef false s in
  let s := setReconnectAttemptsRef 0 s in
  setMessageQueueRef [] s.

(** [sendMessage] (lines 691-715).  Line 692 is outside any [try]: when
    [JSON.stringify] throws, [sendMessage] throws before it has queued or
    sent anything. *)
Definition sendMessage (r : Render) (a : Ambient) (message : Message) (s : State)
  : result State :=
  match messageData message with
  | None => Threw "TypeError" s
  | Some messageData =>
      match currentOpen s with
      | Some k =>
          andThen (wsSend k messageData s) (fun s =>
          Returned (if enableMessageHistory config
                    then setMessageHistory (fun h => h ++ [(sent, messageData)]) s
                    else s))
      | None =>
          let s := setMessageQueueRef (messageQueueRef (refs s) ++ [messageData]) s in
          if negb (r_connecting r) && negb (r_connected r)
          then Returned (connect r a s)
          else Returned s
      end
  end.

(** [reconnect] (lines 737-740): the timer it arms is held by nothing, and
    calls the [connect] of the render [reconnect] is from. *)
Definition reconnect (r : Render) (s : State) : State :=
  snd (setConnectTimeout 100 r (disconnect s)).

(** The auto-connect effect (lines 748-755) as it runs after render [r],
    and its cleanup (lines 757-762), which React runs before the next run
    of the effect and when the component unmounts. *)
Definition autoConnectEffect (r : Render) (s : State) : State :=
  if r_authenticated r && negb (bool_decide (url config = ""))
  then let '(timeoutId, s) := setConnectTimeout 100 r s in
       setAutoConnect (Some (Some timeoutId)) s
  else setAutoConnect (Some None) s.

Definition autoConnectCleanup (s : State) : State :=
  match autoConnect (host s) with
  | Some timeoutId =>
      let s := match timeoutId with
               | Some t => clearTimeout t s
               | None => s
               end in
      disconnect s
  | None => s
  end.

(** The cleanup of the last effect (lines 765-774), run at unmount: it
    clears the timer and closes the socket, and resets neither ref. *)
Definition cleanupEffect (s : State) : State :=
  let s := match reconnectTimeoutRef (refs s) with
           | Some t => clearTimeout t s
           | None => s
           end in
  match socketRef (refs s) with
  | Some k => wsClose k s
  | None => s
  end.

(** The render the application calls the hook's functions from. *)
Definition latest (authenticated : bool) (s : State) : Render :=
  {| r_authenticated := authenticated;
     r_connecting := connecting (ui s);
     r_connected := connected (ui s) |}.

(** *** The connection as a transition system *)

(** What can happen to a connection: calls of the hook's functions by the
    application, what the browser delivers (the four socket events and the
    expiry of a timer), and what React runs (the auto-connect effect, after
    the first render and after each render in which [authenticated] has
    changed, and the cleanups at unmount). *)
Inductive Event :=
| Connect (authenticated : bool) (a : Ambient)
| Disconnect
| SendMessage (authenticated : bool) (a : Ambient) (message : Message)
| AddEventListener (eventType : string) (listener : fn)
| RemoveEventListener (eventType : string) (listener : fn)
| SocketOpens (k : nat) (token : option string)
| SocketMessage (k : nat) (data : string) (now : string)
| SocketError (k : nat)
| SocketCloses (k : nat) (wasClean : bool)
| TimerFires (t : nat) (a : Ambient)
| Reconnect (authenticated : bool)
| EffectRuns (authenticated : bool)
| Unmounts.

(** One event.  The browser sets [readyState] before it calls the handler;
    it opens only a connecting socket, delivers messages only on an open
    one, and closes a socket once.  An exception that leaves a handler is
    reported by the browser and the state reached stays. *)
Definition step (e : Event) (s : State) : State :=
  match e with
  | Connect authenticated a => connect (latest authenticated s) a s
  | Disconnect => disconnect s
  | SendMessage authenticated a message =>
      stateOf (sendMessage (latest authenticated s) a message s)
  | AddEventListener eventType listener => addEventListener eventType listener s
  | RemoveEventListener eventType listener => removeEventListener eventType listener s
  | SocketOpens k token =>
      match readyStateOf s k with
      | Some CONNECTING => stateOf (onopen k token (setReadyState k OPEN s))
      | _ => s
      end
  | SocketMessage k data now =>
      match readyStateOf s k with
      | Some OPEN => stateOf (onmessage data now s)
      | _ => s
      end
  | SocketError k =>
      match readyStateOf s k with
      | Some _ => stateOf (onerror s)
      | None => s
      end
  | SocketCloses k wasClean =>
      match readyStateOf s k with
      | Some CLOSED | None => s
      | Some _ => stateOf (onclose k wasClean (setReadyState k CLOSED s))
      end
  | TimerFires t a =>
      match timers (host s) !! t with
      | Some (_, r) => connect r a (clearTimeout t s)
      | None =>
          match connectTimers (host s) !! t with
          | Some (_, r) => connect r a (clearTimeout t s)
          | None => s
          end
      end
  | Reconnect authenticated => reconnect (latest authenticated s) s
  | EffectRuns authenticated =>
      autoConnectEffect (latest authenticated s) (autoConnectCleanup s)
  | Unmounts => cleanupEffect (setAutoConnect None (autoConnectCleanup s))
  end.

Inductive reachable : State -> Prop :=
| reachable_initial : reachable initialState
| reachable_step e s : reachable s -> reachable (step e s).

End Hook.

End WebSocketHook.

(** ** services/error.service.js: [handleApiError] *)
Module ErrorService.

(** The [status] the handler switches on: an HTTP status code, or one of
    the string tags ['incorrect'] and ['unknown']. *)
Inductive Status :=
| Code (n : Z)
| Tag (t : string).

#[global] Instance Status_eq_dec : EqDecision Status.
Proof. solve_decision. Defined.

#[global] Instance Status_countable : Countable Status.
Proof.
  refine (inj_countable'
            (fun s => match s with Code n => inl n | Tag t => inr t end)
            (fun x => match x with inl n => Code n | inr t => Tag t end) _).
  intros []; reflexivity.
Defined.

(** [config.errorMessage]: one string for every status, or a table. *)
Inductive ErrorMessage :=
| OneMessage (m : string)
| PerStatus (table : gmap Status string).

(** The request config, with the fields the two services add to axios'. *)
Record RequestConfig := {
  method : option string;
  requestUrl : option string;
  authorization : option string;            (* headers.Authorization *)
  noToken : bool;
  _retry : bool;
  showErrorToast : option bool;
  messageMap : option (gmap Status string);
  errorMessage : option ErrorMessage;
  customMessage : option string;
  errorMessageMap : option (gmap Status string);
}.

Record Response := {
  status : Z;
  dataMessage : option string;              (* response.data?.message *)
}.

(** The error axios passes to the response interceptor; axios attaches the
    config of the request to each of them. *)
Record AxiosError := {
  config : RequestConfig;
  response : option Response;
  customStatus : option string;
  message : option string;
}.

Inductive ToastKind := toast_error | toast_warning.

(** What [logError] or [debugWarn] was called with. *)
Inductive Logged :=
| LogError (line : string)
| LogWarn (line : string)
| LogCors (errorMessage : string)
| LogUnknown (status : Status) (errorMessage : string).

Section Handler.

(** [getErrorMessage], the i18n lookup of the default message of a key. *)
Variable getErrorMessage : string -> string.

Definition effectiveStatus (error : AxiosError) : Status :=
  match truthy (customStatus error) with
  | Some tag => Tag tag
  | None => match response error with
            | Some r => Code (status r)
            | None => Tag "unknown"
            end
  end.

(** [table && table[status]], when truthy. *)
Definition entry (table : option (gmap Status string)) (st : Status) : option string :=
  truthy (table ≫= fun t => t !! st).

(** [getCustomMessage] (lines 125-150). *)
Definition getCustomMessage (error : AxiosError) (st : Status) (defaultKey : string)
  : string :=
  let c := config error in
  match entry (messageMap c) st with
  | Some m => m
  | None =>
      match match errorMessage c with
            | Some (PerStatus table) => entry (Some table) st
            | Some (OneMessage m) => truthy (Some m)
            | None => None
            end with
      | Some m => m
      | None =>
          match truthy (customMessage c) with
          | Some m => m
          | None =>
              match entry (errorMessageMap c) st with
              | Some m => m
              | None => getErrorMessage defaultKey
              end
          end
      end
  end.

(** [displayToast] (lines 156-160): the toast shown, if any. *)
Definition displayToast (error : AxiosError) (kind : ToastKind) (m : string)
  : option (ToastKind * string) :=
  if bool_decide (showErrorToast (config error) = Some true) then Some (kind, m) else None.

(** [handleApiError] (lines 111-217): what it logs and the toast it shows.
    Its second parameter, [logoutFunction], is not used by its body. *)
Definition handleApiError (error : AxiosError) : Logged * option (ToastKind * string) :=
  let st := effectiveStatus error in
  let say kind key := displayToast error kind (getCustomMessage error st key) in
  match st with
  | Code 400 => (LogError "400 - Bad Request", say toast_error "400")
  | Code 401 => (LogError "401 - Unauthorized", say toast_error "401")
  | Code 403 => (LogError "403 - Permission denied", say toast_error "403")
  | Code 404 => (LogError "404 - Not Found", say toast_error "404")
  | Code 409 => (LogError "409 - Conflict", say toast_error "409")
  | Code 422 => (LogError "422 - Validation Error", say toast_error "422")
  | Code 429 => (LogWarn "429 - Too many requests", say toast_warning "429")
  | Code 500 => (LogError "500 Internal Server Error", say toast_error "500")
  | Tag "incorrect" => (LogError "Incorrect data error", say toast_error "incorrect")
  | _ =>
      let errorMessage := default "" (truthy (message error)) in
      (if includes "CORS" errorMessage || includes "blocked by CORS" errorMessage
       then LogCors errorMessage
       else LogUnknown st errorMessage,
       say toast_error "unknown")
  end.

End Handler.

End ErrorService.

(** ** services/api.service.js: the axios interceptors *)
Module ApiService.
Import ErrorService.

(** What the interceptors did that is visible outside the module. *)
Inductive Effect :=
| CalledUpdateToken (minValidity : Z)       (* updateTokenFunction(30) *)
| CalledLogout                              (* logoutFunction() *)
| Resent (request : RequestConfig)          (* apiClient(originalRequest) *)
| Handled (error : AxiosError) (logged : Logged) (toast : option (ToastKind * string)).

(** The module variables of lines 15-18, and the effects so far, oldest
    first.  A function variable holds the function's identity, or [None]
    for [null]. *)
Record State := {
  getTokenFunction : option fn;
  logoutFunction : option fn;
  updateTokenFunction : option fn;
  isRefreshingToken : bool;
  effects : list Effect;
}.

Definition setIsRefreshingToken (v : bool) (s : State) : State :=
  {| getTokenFunction := getTokenFunction s; logoutFunction := logoutFunction s;
     updateTokenFunction := updateTokenFunction s; isRefreshingToken := v;
     effects := effects s |}.

Definition emit (e : Effect) (s : State) : State :=
  {| getTokenFunction := getTokenFunction s; logoutFunction := logoutFunction s;
     updateTokenFunction := updateTokenFunction s;
     isRefreshingToken := isRefreshingToken s;
     effects := effects s ++ [e] |}.

(** [setTokenGetter] (lines 20-24). *)
Definition setTokenGetter (getToken logout : option fn) (updateToken : option fn)
    (s : State) : State :=
  {| getTokenFunction := getToken; logoutFunction := logout;
     updateTokenFunction := updateToken;
     isRefreshingToken := isRefreshingToken s; effects := effects s |}.

(** *** Updates of the request config and of the error that carries it *)

Definition setAuthorization (v : option string) (c : RequestConfig) : RequestConfig :=
  {| method := method c; requestUrl := requestUrl c; authorization := v;
     noToken := noToken c; _retry := _retry c; showErrorToast := showErrorToast c;
     messageMap := messageMap c; errorMessage := errorMessage c;
     customMessage := customMessage c; errorMessageMap := errorMessageMap c |}.
Definition setRetry (v : bool) (c : RequestConfig) : RequestConfig :=
  {| method := method c; requestUrl := requestUrl c; authorization := authorization c;
     noToken := noToken c; _retry := v; showErrorToast := showErrorToast c;
     messageMap := messageMap c; errorMessage := errorMessage c;
     customMessage := customMessage c; errorMessageMap := errorMessageMap c |}.
Definition setShowErrorToast (v : option bool) (c : RequestConfig) : RequestConfig :=
  {| method := method c; requestUrl := requestUrl c; authorization := authorization c;
     noToken := noToken c; _retry := _retry c; showErrorToast := v;
     messageMap := messageMap c; errorMessage := errorMessage c;
     customMessage := customMessage c; errorMessageMap := errorMessageMap c |}.

(** [originalRequest] is [error.config] itself: an assignment to a field of
    the one is an assignment to the other. *)
Definition withConfig (f : RequestConfig -> RequestConfig) (error : AxiosError)
  : AxiosError :=
  {| config := f (config error); response := response error;
     customStatus := customStatus error; message := message error |}.
Definition setCustomStatus (v : option string) (error : AxiosError) : AxiosError :=
  {| config := config error; response := response error;
     customStatus := v; message := message error |}.

(** *** The request interceptor (lines 28-56) *)

(** [tokenNow] is what [getTokenFunction()] does: it returns a token or
    null, or it throws. *)
Definition onRequest (tokenNow : answer (option string)) (c : RequestConfig) (s : State)
  : RequestConfig :=
  if noToken c then setAuthorization None c
  else if bool_decide (is_Some (truthy (authorization c))) then c
  else match getTokenFunction s with
       | None => c
       | Some _ =>
           match tokenNow with
           | Gives latestToken =>
               match truthy latestToken with
               | Some t => setAuthorization (Some ("Bearer " +:+ t)) c
               | None => setAuthorization None c
               end
           | Fails _ => setAuthorization None c
           end
       end.

(** *** The response interceptor, rejected branch (lines 78-132) *)

Section Interceptor.

Variable getErrorMessage : string -> string.

(** Where a run of the handler stops: it settled the promise of the
    request, or it is suspended at one of its two [await]s. *)
Inductive Outcome :=
| Rejected (error : AxiosError)               (* return Promise.reject(error) *)
| Resolved (result : JsVal)                   (* return result *)
| AwaitingRefresh (error : AxiosError)        (* await updateTokenFunction(30) *)
| AwaitingRetry (error : AxiosError).         (* await apiClient(originalRequest) *)

(** Lines 83-85. *)
Definition isPasswordError (errorMessage : string) : bool :=
  includes "Current password is incorrect" errorMessage
  || includes "password is incorrect" errorMessage
  || includes "incorrect password" (toLowerCase errorMessage).

(** Lines 130-131. *)
Definition surface (error : AxiosError) (s : State) : State * Outcome :=
  let '(logged, toast) := handleApiError getErrorMessage error in
  (emit (Handled error logged toast) s, Rejected error).

(** [if (logoutFunction) { logoutFunction(); originalRequest.showErrorToast = false; }] *)
Definition logoutQuietly (error : AxiosError) (s : State) : AxiosError * State :=
  match logoutFunction s with
  | Some _ => (withConfig (setShowErrorToast (Some false)) error, emit CalledLogout s)
  | None => (error, s)
  end.

(** The handler from its entry to its first [await] or to its end. *)
Definition onRejected (error : AxiosError) (s : State) : State * Outcome :=
  let originalRequest := config error in
  if bool_decide (status <$> response error = Some 401%Z)
     && negb (noToken originalRequest) && negb (isRefreshingToken s)
  then
    let errorMessage := default "" (truthy (response error ≫= dataMessage)) in
    if isPasswordError errorMessage
    then surface (setCustomStatus (Some "incorrect") error) s
    else if negb (_retry originalRequest) && bool_decide (is_Some (updateTokenFunction s))
    then
      let error := withConfig (setRetry true) error in
      let s := setIsRefreshingToken true s in
      (emit (CalledUpdateToken 30) s, AwaitingRefresh error)
    else
      let '(error, s) := logoutQuietly error s in
      surface error s
  else surface error s.

(** The [catch] and [finally] of lines 113-121, then lines 130-131. *)
Definition refreshFailed (error : AxiosError) (s : State) : State * Outcome :=
  let '(error, s) := logoutQuietly error s in
  let s := setIsRefreshingToken false s in
  surface error s.

(** The handler resumed when [updateTokenFunction(30)] settled: [refreshed]
    is the value it resolved with, or what it rejected with; [tokenNow] is
    what [getTokenFunction()] then does. *)
Definition afterRefresh (refreshed : answer bool) (tokenNow : answer (option string))
    (error : AxiosError) (s : State) : State * Outcome :=
  match refreshed with
  | Gives true =>
      match getTokenFunction s, tokenNow with
      | Some _, Gives newToken =>
          match truthy newToken with
          | Some t =>
              let error :=
                withConfig (setAuthorization (Some ("Bearer " +:+ t))) error in
              (emit (Resent (config error)) s, AwaitingRetry error)
          | None => refreshFailed error s
          end
      | _, _ => refreshFailed error s
      end
  | Gives false => refreshFailed error s
  | Fails _ => refreshFailed error s
  end.

(** The handler resumed when the resent request settled. *)
Definition afterRetry (answer : JsVal + AxiosError) (error : AxiosError) (s : State)
  : State * Outcome :=
  match answer with
  | inl result => (setIsRefreshingToken false s, Resolved result)
  | inr _ => refreshFailed error s
  end.

End Interceptor.

End ApiService.

(** ** hooks/useKeycloak: the [useKeycloak] hook and its module state *)
Module UseKeycloak.

Inductive InitializationState := idle | initializing | initialized | failed.

#[global] Instance InitializationState_eq_dec : EqDecision InitializationState.
Proof. solve_decision. Defined.

(** A keycloak-js instance: the fields the hook reads. *)
Record Keycloak := {
  kcAuthenticated : bool;
  kcToken : option string;
  kcRefreshToken : option string;
  realmRoles : option (list string);             (* realmAccess?.roles *)
  resourceAccess : gmap string (list string);    (* resourceAccess?.[client]?.roles *)
  tokenLocale : option string;                   (* tokenParsed?.locale *)
}.

(** [new Keycloak(KEYCLOAK_CONFIG)], before its [init] has answered. *)
Definition newKeycloak : Keycloak :=
  {| kcAuthenticated := false; kcToken := None; kcRefreshToken := None;
     realmRoles := None; resourceAccess := ∅; tokenLocale := None |}.

(** The objects passed to [notifyStateChange]. *)
Inductive StateChange :=
| RESET
| LOADING
| INITIALIZED (keycloak : nat) (authenticated : bool)
| ERROR (error : string)
| TOKEN_UPDATED (token refreshToken : option string).

(** What [loadUserProfile] resolves with (the fields the hook copies). *)
Record Profile := {
  profileId : option string;
  username : option string;
  email : option string;
  profileLocale : option string;
}.

Record UserInfo := {
  id : option string;
  userName : option string;
  userEmail : option string;
  locale : option string;
  roles : list string;
  userRealmRoles : list string;
  userClientRoles : list string;
  userHasSuperRole : bool;
}.

(** One instance of the hook: its [useState] cells and its two refs, and
    what React keeps for it: the [keycloak] of the render whose effects ran
    last.  [initKeycloak] is a new function exactly when [keycloak] has
    changed (lines 256, 378 and the callbacks they depend on), so this is
    the dependency of the effect of lines 517-542. *)
Record Hook := {
  keycloak : option nat;
  authenticated : bool;
  loading : bool;
  error : option string;
  userInfo : option UserInfo;
  token : option string;
  refreshToken : option string;
  updateTokenTimeoutRef : option nat;
  isMountedRef : bool;
  effectKeycloak : option nat;
}.

(** The promise of the async function of lines 285-340: still running (it
    holds the instance it created), fulfilled with
    [{ keycloakInstance, authenticated }], or rejected. *)
Inductive InitPromise :=
| Running (keycloakInstance : nat)
| Fulfilled (keycloakInstance : nat) (authenticated : bool)
| RejectedWith (error : string).

(** The calls made to the identity provider through keycloak-js. *)
Inductive ProviderCall :=
| Init (k : nat)                          (* keycloakInstance.init(options) *)
| UpdateToken (k : nat) (minValidity : Z) (* keycloakInstance.updateToken(n) *)
| LoadUserProfile (k : nat)
| SignOut (k : nat).                      (* keycloak.logout(options) *)

(** The module variables of lines 8-14. *)
Record Globals := {
  keycloakSingleton : option nat;
  keycloakInitPromise : option nat;
  initializationState : InitializationState;
  globalError : option string;
  stateSubscribers : list nat;   (* the hooks whose handler is in the Set, oldest first *)
}.

(** The objects of the page: hook instances, keycloak-js instances and the
    promises of the init function, each named by a number. *)
Record Objects := {
  hooks : nat -> Hook;
  instances : nat -> Keycloak;
  nextInstance : nat;
  promises : nat -> InitPromise;
  nextPromise : nat;
}.

(** The pending timers (delay, hook, instance of the [updateToken] closure
    that will run) and the calls made to the provider, oldest first. *)
Record Outside := {
  timers : gmap nat (Z * nat * nat);
  nextTimer : nat;
  providerCalls : list ProviderCall;
}.

Record World := {
  globals : Globals;
  objects : Objects;
  outside : Outside;
}.

(** *** Field updates *)

Definition withGlobals (f : Globals -> Globals) (w : World) : World :=
  {| globals := f (globals w); objects := objects w; outside := outside w |}.
Definition withObjects (f : Objects -> Objects) (w : World) : World :=
  {| globals := globals w; objects := f (objects w); outside := outside w |}.
Definition withOutside (f : Outside -> Outside) (w : World) : World :=
  {| globals := globals w; objects := objects w; outside := f (outside w) |}.

Definition setKeycloakSingleton (v : option nat) : World -> World :=
  withGlobals (fun g => {| keycloakSingleton := v;
                           keycloakInitPromise := keycloakInitPromise g;
                           initializationState := initializationState g;
                           globalError := globalError g;
                           stateSubscribers := stateSubscribers g |}).
Definition setKeycloakInitPromise (v : option nat) : World -> World :=
  withGlobals (fun g => {| keycloakSingleton := keycloakSingleton g;
                           keycloakInitPromise := v;
                           initializationState := initializationState g;
                           globalError := globalError g;
                           stateSubscribers := stateSubscribers g |}).
Definition setInitializationState (v : InitializationState) : World -> World :=
  withGlobals (fun g => {| keycloakSingleton := keycloakSingleton g;
                           keycloakInitPromise := keycloakInitPromise g;
                           initializationState := v;
                           globalError := globalError g;
                           stateSubscribers := stateSubscribers g |}).
Definition setGlobalError (v : option string) : World -> World :=
  withGlobals (fun g => {| keycloakSingleton := keycloakSingleton g;
                           keycloakInitPromise := keycloakInitPromise g;
                           initializationState := initializationState g;
                           globalError := v;
                           stateSubscribers := stateSubscribers g |}).
Definition setStateSubscribers (v : list nat) : World -> World :=
  withGlobals (fun g => {| keycloakSingleton := keycloakSingleton g;
                           keycloakInitPromise := keycloakInitPromise g;
                           initializationState := initializationState g;
                           globalError := globalError g;
                           stateSubscribers := v |}).

Definition withHook (h : nat) (f : Hook -> Hook) : World -> World :=
  withObjects (fun o => {| hooks := <[h := f (hooks o h)]> (hooks o);
                           instances := instances o; nextInstance := nextInstance o;
                           promises := promises o; nextPromise := nextPromise o |}).
Definition setInstance (k : nat) (v : Keycloak) : World -> World :=
  withObjects (fun o => {| hooks := hooks o;
                           instances := <[k := v]> (instances o);
                           nextInstance := nextInstance o;
                           promises := promises o; nextPromise := nextPromise o |}).
Definition allocInstance (v : Keycloak) (w : World) : nat * World :=
  let k := nextInstance (objects w) in
  (k, withObjects (fun o => {| hooks := hooks o;
                               instances := <[k := v]> (instances o);
                               nextInstance := S k;
                               promises := promises o;
                               nextPromise := nextPromise o |}) w).
Definition setPromise (p : nat) (v : InitPromise) : World -> World :=
  withObjects (fun o => {| hooks := hooks o; instances := instances o;
                           nextInstance := nextInstance o;
                           promises := <[p := v]> (promises o);
                           nextPromise := nextPromise o |}).
Definition allocPromise (v : InitPromise) (w : World) : nat * World :=
  let p := nextPromise (objects w) in
  (p, withObjects (fun o => {| hooks := hooks o; instances := instances o;
                               nextInstance := nextInstance o;
                               promises := <[p := v]> (promises o);
                               nextPromise := S p |}) w).

Definition callProvider (c : ProviderCall) : World -> World :=
  withOutside (fun o => {| timers := timers o; nextTimer := nextTimer o;
                           providerCalls := providerCalls o ++ [c] |}).
Definition setTimeout (delay : Z) (h k : nat) (w : World) : nat * World :=
  let t := nextTimer (outside w) in
  (t, withOutside (fun o => {| timers := <[t := (delay, h, k)]> (timers o);
                               nextTimer := S t;
                               providerCalls := providerCalls o |}) w).
Definition clearTimeout (t : nat) : World -> World :=
  withOutside (fun o => {| timers := delete t (timers o); nextTimer := nextTimer o;
                           providerCalls := providerCalls o |}).

Definition setKeycloak (v : option nat) (x : Hook) : Hook :=
  {| keycloak := v; authenticated := authenticated x; loading := loading x;
     error := error x; userInfo := userInfo x; token := token x;
     refreshToken := refreshToken x;
     updateTokenTimeoutRef := updateTokenTimeoutRef x; isMountedRef := isMountedRef x;
     effectKeycloak := effectKeycloak x |}.
Definition setAuthenticated (v : bool) (x : Hook) : Hook :=
  {| keycloak := keycloak x; authenticated := v; loading := loading x;
     error := error x; userInfo := userInfo x; token := token x;
     refreshToken := refreshToken x;
     updateTokenTimeoutRef := updateTokenTimeoutRef x; isMountedRef := isMountedRef x;
     effectKeycloak := effectKeycloak x |}.
Definition setLoading (v : bool) (x : Hook) : Hook :=
  {| keycloak := keycloak x; authenticated := authenticated x; loading := v;
     error := error x; userInfo := userInfo x; token := token x;
     refreshToken := refreshToken x;
     updateTokenTimeoutRef := updateTokenTimeoutRef x; isMountedRef := isMountedRef x;
     effectKeycloak := effectKeycloak x |}.
Definition setError (v : option string) (x : Hook) : Hook :=
  {| keycloak := keycloak x; authenticated := authenticated x; loading := loading x;
     error := v; userInfo := userInfo x; token := token x;
     refreshToken := refreshToken x;
     updateTokenTimeoutRef := updateTokenTimeoutRef x; isMountedRef := isMountedRef x;
     effectKeycloak := effectKeycloak x |}.
Definition setUserInfo (v : option UserInfo) (x : Hook) : Hook :=
  {| keycloak := keycloak x; authenticated := authenticated x; loading := loading x;
     error := error x; userInfo := v; token := token x;
     refreshToken := refreshToken x;
     updateTokenTimeoutRef := updateTokenTimeoutRef x; isMountedRef := isMountedRef x;
     effectKeycloak := effectKeycloak x |}.
Definition setToken (v : option string) (x : Hook) : Hook :=
  {| keycloak := keycloak x; authenticated := authenticated x; loading := loading x;
     error := error x; userInfo := userInfo x; token := v;
     refreshToken := refreshToken x;
     updateTokenTimeoutRef := updateTokenTimeoutRef x; isMountedRef := isMountedRef x;
     effectKeycloak := effectKeycloak x |}.
Definition setRefreshToken (v : option string) (x : Hook) : Hook :=
  {| keycloak := keycloak x; authenticated := authenticated x; loading := loading x;
     error := error x; userInfo := userInfo x; token := token x;
     refreshToken := v;
     updateTokenTimeoutRef := updateTokenTimeoutRef x; isMountedRef := isMountedRef x;
     effectKeycloak := effectKeycloak x |}.
Definition setUpdateTokenTimeoutRef (v : option nat) (x : Hook) : Hook :=
  {| keycloak := keycloak x; authenticated := authenticated x; loading := loading x;
     error := error x; userInfo := userInfo x; token := token x;
     refreshToken := refreshToken x;
     updateTokenTimeoutRef := v; isMountedRef := isMountedRef x;
     effectKeycloak := effectKeycloak x |}.
Definition setIsMountedRef (v : bool) (x : Hook) : Hook :=
  {| keycloak := keycloak x; authenticated := authenticated x; loading := loading x;
     error := error x; userInfo := userInfo x; token := token x;
     refreshToken := refreshToken x;
     updateTokenTimeoutRef := updateTokenTimeoutRef x; isMountedRef := v;
     effectKeycloak := effectKeycloak x |}.
Definition setEffectKeycloak (v : option nat) (x : Hook) : Hook :=
  {| keycloak := keycloak x; authenticated := authenticated x; loading := loading x;
     error := error x; userInfo := userInfo x; token := token x;
     refreshToken := refreshToken x;
     updateTokenTimeoutRef := updateTokenTimeoutRef x; isMountedRef := isMountedRef x;
     effectKeycloak := v |}.

Definition hook (w : World) (h : nat) : Hook := hooks (objects w) h.
Definition instance (w : World) (k : nat) : Keycloak := instances (objects w) k.

(** *** Notification of the subscribers *)

Section Notify.

Context {Sub S : Type}.
(** What calling a subscriber with a state change does to the state. *)
Variable invoke : Sub -> StateChange -> S -> result S.

(** [notifyStateChange] (lines 30-38): [Set.prototype.forEach] visits the
    members in insertion order; the body of the loop is a [try] whose
    [catch] logs to the console and goes on. *)
Definition notifyStateChange (stateSubscribers : list Sub) (newState : StateChange)
    (s : S) : result S :=
  forEach
    (fun subscriber s =>
       tryCatch (invoke subscriber newState s) (fun error s => Returned s))
    stateSubscribers s.

End Notify.

(** [handleStateChange] (lines 73-101), the subscriber of each hook. *)
Definition handleStateChange (newState : StateChange) (x : Hook) : Hook :=
  if negb (isMountedRef x) then x
  else match newState with
       | RESET =>
           setRefreshToken None (setToken None (setUserInfo None (setError None
             (setLoading false (setAuthenticated false (setKeycloak None x))))))
       | INITIALIZED k a =>
           setError None (setLoading false (setAuthenticated a (setKeycloak (Some k) x)))
       | ERROR e => setLoading false (setError (Some e) x)
       | TOKEN_UPDATED t rt => setRefreshToken rt (setToken t x)
       | LOADING => x
       end.

(** The members of [stateSubscribers] are the [handleStateChange] of the
    subscribed hooks. *)
Definition deliver (h : nat) (newState : StateChange) (w : World) : result World :=
  Returned (withHook h (handleStateChange newState) w).

Definition notify (newState : StateChange) (w : World) : World :=
  stateOf (notifyStateChange deliver (stateSubscribers (globals w)) newState w).

(** [resetGlobalState] (lines 41-54). *)
Definition resetGlobalState (w : World) : World :=
  let w := setKeycloakSingleton None w in
  let w := setKeycloakInitPromise None w in
  let w := setInitializationState idle w in
  let w := setGlobalError None w in
  notify RESET w.

Section Hook.

Variable clientId : string.    (* ENV.KEYCLOAK.CLIENT *)
Variable superRole : string.   (* ENV.KEYCLOAK.SUPER_ROLE *)

(** [getClientRoles], [getUserRoles], [hasSuperRole] (lines 112-135) on an
    instance that is there. *)
Definition getClientRoles (kc : option Keycloak) : list string :=
  match kc with
  | Some kc => if kcAuthenticated kc then default [] (resourceAccess kc !! clientId)
               else []
  | None => []
  end.

Definition getUserRoles (kc : option Keycloak) : list string :=
  match kc with
  | Some i => if kcAuthenticated i
              then default [] (realmRoles i) ++ getClientRoles kc
              else []
  | None => []
  end.

Definition hasSuperRole (kc : option Keycloak) : bool :=
  match kc with
  | Some i => if kcAuthenticated i
              then bool_decide (superRole ∈ getUserRoles kc)
              else false
  | None => false
  end.

(** The instance the [keycloak] cell of hook [h] refers to. *)
Definition held (w : World) (h : nat) : option Keycloak :=
  instance w <$> keycloak (hook w h).

(** [hasRole] (lines 380-393) of hook [h]. *)
Definition hasRole (h : nat) (requiredRole : string) (w : World) : bool :=
  if negb (authenticated (hook w h)) || bool_decide (requiredRole = "") then false
  else if hasSuperRole (held w h) then true
  else bool_decide (requiredRole ∈ getUserRoles (held w h)).

(** *** Token auto-refresh (lines 204-256) *)

(** The closure [updateToken] of hook [h] over instance [k], from its entry
    to its [await]. *)
Definition updateToken (h k : nat) (w : World) : World :=
  if negb (isMountedRef (hook w h)) then w
  else callProvider (UpdateToken k 30) w.

(** What [keycloakInstance.updateToken(30)] resolves with: [true] after it
    has stored new credentials in the instance, or [false]. *)
Inductive Refresh :=
| Refreshed (token refreshToken : option string)
| StillValid.

Definition storeTokens (k : nat) (t rt : option string) (w : World) : World :=
  let i := instance w k in
  setInstance k {| kcAuthenticated := kcAuthenticated i; kcToken := t;
                   kcRefreshToken := rt; realmRoles := realmRoles i;
                   resourceAccess := resourceAccess i;
                   tokenLocale := tokenLocale i |} w.

Definition refreshInterval : Z := 5 * 60 * 1000.

(** The closure [updateToken] resumed with the provider's answer. *)
Definition updateTokenResumes (h k : nat) (a : answer Refresh) (w : World) : World :=
  match a with
  | Gives r =>
      let '(refreshed, w) :=
        match r with
        | Refreshed t rt => (true, storeTokens k t rt w)
        | StillValid => (false, w)
        end in
      let w :=
        if refreshed && isMountedRef (hook w h)
        then
          let newToken := kcToken (instance w k) in
          let newRefreshToken := kcRefreshToken (instance w k) in
          let w := withHook h (setToken newToken) w in
          let w := withHook h (setRefreshToken newRefreshToken) w in
          notify (TOKEN_UPDATED newToken newRefreshToken) w
        else w in
      if isMountedRef (hook w h)
      then
        let '(t, w) := setTimeout refreshInterval h k w in
        withHook h (setUpdateTokenTimeoutRef (Some t)) w
      else w
  | Fails _ =>
      if isMountedRef (hook w h)
      then withHook h
             (setError (Some "Authentication session expired. Please login again.")) w
      else w
  end.


(** [if (ref.current) { clearTimeout(ref.current); ref.current = null; }] *)
Definition clearRefreshTimer (h : nat) (w : World) : World :=
  match updateTokenTimeoutRef (hook w h) with
  | Some t => withHook h (setUpdateTokenTimeoutRef None) (clearTimeout t w)
  | None => w
  end.

(** [setupTokenRefresh] of hook [h] on instance [k]. *)
Definition setupTokenRefresh (h k : nat) (w : World) : World :=
  if negb (isMountedRef (hook w h)) then w
  else updateToken h k (clearRefreshTimer h w).

(** *** Initialization (lines 259-378) *)

(** The async function of lines 285-340 from its entry to its [await]:
    it creates the instance and starts the handshake with the provider. *)
Definition startInit (w : World) : nat * World :=
  let '(k, w) := allocInstance newKeycloak w in
  let w := callProvider (Init k) w in
  allocPromise (Running k) w.

(** What [keycloakInstance.init] settles with: it resolves, keycloak-js
    having stored the credentials and claims in the instance, or it
    rejects, with an [Error] of some message or with no reason at all. *)
Inductive InitAnswer :=
| Authenticates (fields : Keycloak)
| RejectsWith (message : string)
| RejectsBare.

(** The same function resumed with the answer of [init].  In the [catch]
    (lines 327-339) [error.message] is read before the notification: for
    a rejection without a reason that read throws a TypeError, the
    subscribers are not notified, and the promise rejects with the
    TypeError. *)
Definition initSettles (p : nat) (a : InitAnswer) (w : World) : World :=
  match promises (objects w) p with
  | Running k =>
      match a with
      | Authenticates fields =>
          let w := setInstance k fields w in
          let authenticated := kcAuthenticated fields in
          let w := setKeycloakSingleton (Some k) w in
          let w := setInitializationState initialized w in
          let w := notify (INITIALIZED k authenticated) w in
          setPromise p (Fulfilled k authenticated) w
      | RejectsWith e =>
          let w := setInitializationState failed w in
          let w := setGlobalError (Some e) w in
          let w := notify (ERROR (default "Keycloak initialization failed"
                                    (truthy (Some e)))) w in
          setPromise p (RejectedWith e) w
      | RejectsBare =>
          let w := setInitializationState failed w in
          let w := setGlobalError None w in
          setPromise p (RejectedWith "TypeError") w
      end
  | _ => w
  end.

(** The answers that come with a value or with an [Error]. *)
Definition initAnswers (p : nat) (a : answer Keycloak) (w : World) : World :=
  initSettles p match a with
                | Gives fields => Authenticates fields
                | Fails e => RejectsWith e
                end w.

(** What a promise returned by [initKeycloak] settles with. *)
Inductive Value :=
| Instance (k : nat)                            (* a Keycloak instance *)
| InitResult (k : nat) (authenticated : bool)   (* { keycloakInstance, authenticated } *)
| Null.

Inductive Settlement :=
| Resolves (v : Value)
| Rejects (error : string).

(** Where a call of [initKeycloak] stands. *)
Inductive InitCall :=
| ReturnsPromise (p : option nat)   (* line 262: return keycloakInitPromise *)
| ReturnsSingleton (k : nat)        (* line 266: return keycloakSingleton *)
| AwaitsInit (p : nat)              (* line 343: await keycloakInitPromise *)
| AwaitsUserInfo (k : nat)          (* line 368: await loadUserInfo(...) *)
| Settled (s : Settlement).

(** [initKeycloak] from its entry to its first [await] or [return]. *)
Definition initKeycloak (w : World) : World * InitCall :=
  match initializationState (globals w), keycloakSingleton (globals w) with
  | initializing, _ => (w, ReturnsPromise (keycloakInitPromise (globals w)))
  | initialized, Some k => (w, ReturnsSingleton k)
  | st, _ =>
      let w := if bool_decide (st = failed) then resetGlobalState w else w in
      let w := setInitializationState initializing w in
      let w := setGlobalError None w in
      let w := notify LOADING w in
      let '(p, w) :=
        match keycloakInitPromise (globals w) with
        | Some p => (p, w)
        | None => let '(p, w) := startInit w in (p, setKeycloakInitPromise (Some p) w)
        end in
      (w, AwaitsInit p)
  end.

(** [loadUserInfo] (lines 148-201) resumed with the profile. *)
Definition loadUserInfoResumes (h k : nat) (a : answer Profile) (w : World) : World :=
  match a with
  | Gives profile =>
      let kc := Some (instance w k) in
      let userLocale :=
        match truthy (tokenLocale (instance w k)) with
        | Some l => Some l
        | None => profileLocale profile
        end in
      let info := {| id := profileId profile; userName := username profile;
                     userEmail := email profile; locale := userLocale;
                     roles := getUserRoles kc;
                     userRealmRoles := default [] (realmRoles (instance w k));
                     userClientRoles := getClientRoles kc;
                     userHasSuperRole := hasSuperRole kc |} in
      if isMountedRef (hook w h) then withHook h (setUserInfo (Some info)) w else w
  | Fails err =>
      if isMountedRef (hook w h)
      then withHook h (setError (Some ("Failed to load user info: " +:+ err))) w
      else w
  end.

(** Lines 370-377. *)
Definition finishInit (h k : nat) (w : World) : World * InitCall :=
  let w := setupTokenRefresh h k w in
  let w := withHook h (setLoading false) w in
  (w, Settled (Resolves (Instance k))).

(** A call of [initKeycloak] by hook [h] resumed at its [await] or
    [return]; [profile] is the answer of [loadUserProfile], used when the
    call is waiting for it.  A call that waits for a promise that is not
    settled stays where it is. *)
Definition resume (h : nat) (c : InitCall) (profile : answer Profile) (w : World)
  : World * InitCall :=
  match c with
  | ReturnsPromise None => (w, Settled (Resolves Null))
  | ReturnsPromise (Some p) =>
      match promises (objects w) p with
      | Running _ => (w, c)
      | Fulfilled k a => (w, Settled (Resolves (InitResult k a)))
      | RejectedWith e => (w, Settled (Rejects e))
      end
  | ReturnsSingleton k => (w, Settled (Resolves (Instance k)))
  | AwaitsInit p =>
      match promises (objects w) p with
      | Running _ => (w, c)
      | RejectedWith e => (w, Settled (Rejects e))
      | Fulfilled k a =>
          if isMountedRef (hook w h)
          then
            let w := withHook h (setKeycloak (Some k)) w in
            let w := withHook h (setAuthenticated a) w in
            if a
            then
              let w := withHook h (setToken (kcToken (instance w k))) w in
              let w := withHook h (setRefreshToken (kcRefreshToken (instance w k))) w in
              if kcAuthenticated (instance w k) && isMountedRef (hook w h)
              then (callProvider (LoadUserProfile k) w, AwaitsUserInfo k)
              else finishInit h k w
            else (withHook h (setLoading false) w, Settled (Resolves (Instance k)))
          else (w, Settled (Resolves (Instance k)))
      end
  | AwaitsUserInfo k => finishInit h k (loadUserInfoResumes h k profile w)
  | Settled s => (w, c)
  end.

(** *** Logout (lines 396-438) *)

(** [logout] of hook [h] from its entry to its [await]; [Some k] when it
    stopped at [await keycloak.logout(...)] on instance [k]. *)
Definition logout (h : nat) (w : World) : World * option nat :=
  match keycloak (hook w h) with
  | None => (w, None)
  | Some k =>
      let w := clearRefreshTimer h w in
      let w :=
        if isMountedRef (hook w h)
        then withHook h (fun x => setLoading true (setRefreshToken None (setToken None
               (setUserInfo None (setAuthenticated false x))))) w
        else w in
      let w := resetGlobalState w in
      (callProvider (SignOut k) w, Some k)
  end.

(** [logout] resumed with the answer of the provider's sign-out. *)
Definition logoutResumes (h : nat) (a : answer unit) (w : World) : World :=
  match a with
  | Gives _ => w
  | Fails err =>
      let w :=
        if isMountedRef (hook w h)
        then withHook h (fun x => setLoading false
               (setError (Some ("Logout failed: " +:+ err)) x)) w
        else w in
      resetGlobalState w
  end.

(** [keycloakInstance.onAuthLogout] (lines 307-310). *)
Definition onAuthLogout (w : World) : World := resetGlobalState w.

(** *** Mounting and unmounting a hook (lines 60-69, 72-109, 517-542) *)

(** The initial values of the [useState] cells and refs. *)
Definition firstRender (w : World) : Hook :=
  let kc := instance w <$> keycloakSingleton (globals w) in
  {| keycloak := keycloakSingleton (globals w);
     authenticated := default false (kcAuthenticated <$> kc);
     loading := bool_decide (initializationState (globals w) = initializing);
     error := globalError (globals w);
     userInfo := None;
     token := kc ≫= fun i => truthy (kcToken i);
     refreshToken := kc ≫= fun i => truthy (kcRefreshToken i);
     updateTokenTimeoutRef := None;
     isMountedRef := true;
     effectKeycloak := keycloakSingleton (globals w) |}.

(** [stateSubscribers.add(handleStateChange)] *)
Definition subscribe (h : nat) (w : World) : World :=
  if bool_decide (h ∈ stateSubscribers (globals w)) then w
  else setStateSubscribers (stateSubscribers (globals w) ++ [h]) w.

(** [stateSubscribers.delete(handleStateChange)] *)
Definition unsubscribe (h : nat) (w : World) : World :=
  setStateSubscribers (filter (fun h' => h' ≠ h) (stateSubscribers (globals w))) w.

(** The effect of lines 517-532 of hook [h]. *)
Definition initializeOnMount (h : nat) (w : World) : World * option InitCall :=
  let w := withHook h (setIsMountedRef true) w in
  let st := initializationState (globals w) in
  if bool_decide (st = idle) || bool_decide (st = failed)
  then let '(w, c) := initKeycloak w in (w, Some c)
  else match st, keycloakSingleton (globals w) with
       | initialized, Some k =>
           let i := instance w k in
           (withHook h (fun x => setLoading false
              (setRefreshToken (truthy (kcRefreshToken i))
                 (setToken (truthy (kcToken i))
                    (setAuthenticated (kcAuthenticated i)
                       (setKeycloak (Some k) x))))) w, None)
       | _, _ => (w, None)
       end.

(** Its cleanup (lines 533-540). *)
Definition initializeOnMountCleanup (h : nat) (w : World) : World :=
  clearRefreshTimer h (withHook h (setIsMountedRef false) w).

(** The first render of hook [h] and its two effects. *)
Definition mount (h : nat) (w : World) : World * option InitCall :=
  let w := withHook h (fun _ => firstRender w) w in
  let w := subscribe h w in
  initializeOnMount h w.

(** *** Later renders *)

(** The hook has set its [keycloak] cell since its effects last ran. *)
Definition stale (w : World) (h : nat) : bool :=
  negb (bool_decide (keycloak (hook w h) = effectKeycloak (hook w h))).

(** The effects of hook [h] that a render with a new [keycloak] runs. *)
Fixpoint runEffects (hs : list nat) (w : World) : World * list (nat * InitCall) :=
  match hs with
  | [] => (w, [])
  | h :: hs =>
      let '(w, c) := initializeOnMount h w in
      let '(w, cs) := runEffects hs w in
      (w, match c with Some c => (h, c) :: cs | None => cs end)
  end.

(** React renders the mounted hooks whose cells were set, after the code
    that set them has run to its end and before anything else happens; the
    mounted hooks are the subscribed ones (lines 103-108).  The effect of
    lines 517-542 runs again in the hooks whose [keycloak] has changed:
    React first runs the cleanups of all of them, then the effects, in the
    order of mounting.  The calls of [initKeycloak] the effects make are
    returned with the hook that made each. *)
Definition render (w : World) : World * list (nat * InitCall) :=
  let hs := filter (fun h => stale w h = true) (stateSubscribers (globals w)) in
  let w := fold_left
             (fun w h => initializeOnMountCleanup h
                           (withHook h (fun x => setEffectKeycloak (keycloak x) x) w))
             hs w in
  runEffects hs w.

(** [logout] from the call to the settlement of its promise: React renders
    while the provider's sign-out is awaited. *)
Definition logoutCompletes (h : nat) (a : answer unit) (w : World) : World :=
  match logout h w with
  | (w, Some _) => logoutResumes h a (fst (render w))
  | (w, None) => w
  end.

(** The cleanups of the two effects. *)
Definition unmount (h : nat) (w : World) : World :=
  let w := unsubscribe h w in
  let w := withHook h (setIsMountedRef false) w in
  match updateTokenTimeoutRef (hook w h) with
  | Some t => withHook h (setUpdateTokenTimeoutRef None) (clearTimeout t w)
  | None => w
  end.

End Hook.

(** The page before any hook is mounted. *)
Definition unmounted : Hook :=
  {| keycloak := None; authenticated := false; loading := false; error := None;
     userInfo := None; token := None; refreshToken := None;
     updateTokenTimeoutRef := None; isMountedRef := false; effectKeycloak := None |}.

Definition initialWorld : World :=
  {| globals := {| keycloakSingleton := None; keycloakInitPromise := None;
                   initializationState := idle; globalError := None;
                   stateSubscribers := [] |};
     objects := {| hooks := fun _ => unmounted; instances := fun _ => newKeycloak;
                   nextInstance := 0; promises := fun _ => RejectedWith "";
                   nextPromise := 0 |};
     outside := {| timers := ∅; nextTimer := 0; providerCalls := [] |} |}.

End UseKeycloak.

(** ** services/api.service.js: the fulfilled branch (lines 63-77) *)
Module ApiResponses.
Import ErrorService.

(** [if (v)] on a JSON value. *)
Definition truthyVal (v : JsVal) : bool :=
  match v with
  | JUndefined | JNull => false
  | JBool b => b
  | JNum n => negb (n =? 0)%Z
  | JStr t => negb (bool_decide (t = ""))
  | JObj _ => true
  end.

Definition isUndefined (v : JsVal) : bool :=
  match v with JUndefined => true | _ => false end.

(** A response: its body, and the fields of its config the branch reads. *)
Record Response := {
  data : JsVal;
  showSuccessToast : option bool;
  successMessage : option string;
  messageMap : option (gmap Status string);
}.

(** The fulfilled branch of the response interceptor: the success toast
    it shows, if any, and the value the request resolves with. *)
Definition onFulfilled (response : Response) : option string * JsVal :=
  let successMessage :=
    match truthy (successMessage response) with
    | Some m => Some m
    | None => truthy (messageMap response ≫= fun t => t !! Tag "success")
    end in
  let toast :=
    match successMessage with
    | Some m => if bool_decide (showSuccessToast response = Some true) then Some m else None
    | None => None
    end in
  (toast,
   if truthyVal (data response)
      && negb (isUndefined (default JUndefined (getProp (data response) "data")))
   then default JUndefined (getProp (data response) "data")
   else data response).

End ApiResponses.

(** ** services/user.service.js *)
Module UserService.
Import ErrorService.

(** The [config] a caller passes to a service function: the keys it sets. *)
Record CallerConfig := {
  c_noToken : option bool;
  c_showErrorToast : option bool;
  c_messageMap : option (gmap Status string);
  c_errorMessage : option ErrorMessage;
  c_customMessage : option string;
  c_errorMessageMap : option (gmap Status string);
}.

Definition noOverrides : CallerConfig :=
  {| c_noToken := None; c_showErrorToast := None; c_messageMap := None;
     c_errorMessage := None; c_customMessage := None; c_errorMessageMap := None |}.

Section Service.

(** [i18n.t(key, { defaultValue })] *)
Variable translate : string -> string -> string.
Variable DEBUG : bool.   (* ENV.DEBUG *)

(** [{ showErrorToast, messageMap: { ...table, ...config.messageMap }, ...config }]
    as the config of a request with the given method and path: the spread
    of [config] comes last, so each key the caller sets replaces the
    service's, the whole [messageMap] included. *)
Definition serviceConfig (verb path : string) (showError : bool)
    (table : gmap Status string) (c : CallerConfig) : RequestConfig :=
  let merged := default ∅ (c_messageMap c) ∪ table in
  {| method := Some verb; requestUrl := Some path; authorization := None;
     noToken := default false (c_noToken c);
     _retry := false;
     showErrorToast := Some (default showError (c_showErrorToast c));
     messageMap := Some (default merged (c_messageMap c));
     errorMessage := c_errorMessage c;
     customMessage := c_customMessage c;
     errorMessageMap := c_errorMessageMap c |}.

(** [userService.getInfo] (lines 8-17) *)
Definition getInfo (c : CallerConfig) : RequestConfig :=
  serviceConfig "get" "/user/info" DEBUG
    {[ Tag "success" := translate "user.getInfo.messages.success"
                          "User info retrieved successfully" ]} c.

(** [userService.update] (lines 19-30) *)
Definition update (c : CallerConfig) : RequestConfig :=
  serviceConfig "put" "/user/update" true
    (<[ Tag "success" := translate "user.update.messages.success"
                           "User info updated successfully" ]>
       (<[ Code 400 := translate "errors.400.message" "Failed to update user info" ]>
          {[ Code 409 := translate "errors.409.message" "Email already exists" ]})) c.

(** [userService.changePassword] (lines 32-42) *)
Definition changePassword (c : CallerConfig) : RequestConfig :=
  serviceConfig "post" "/user/change-password" true
    (<[ Tag "success" := translate "user.changePassword.messages.success"
                           "Password changed successfully" ]>
       {[ Tag "incorrect" := translate "user.changePassword.messages.incorrect"
                               "Current password is incorrect" ]}) c.

End Service.

End UserService.

(** ** hooks/useKeycloak: the token functions the provider hands to the
    interceptor (contexts/keycloakContext, lines 14-18) *)
Module KeycloakTokens.
Import UseKeycloak.

(** [getToken] (lines 506-508) of hook [h]: [keycloak?.token || null]
    reads the instance the hook holds. *)
Definition getToken (h : nat) (w : World) : option string :=
  keycloak (hook w h) ≫= fun k => truthy (kcToken (instance w k)).

(** [updateToken] (lines 470-503) of hook [h] from its entry to its
    [await]: [None] when it throws ['Keycloak not initialized']. *)
Definition updateToken (h : nat) (minValidity : Z) (w : World) : World * option nat :=
  match keycloak (hook w h) with
  | None => (w, None)
  | Some k => (callProvider (UpdateToken k minValidity) w, Some k)
  end.

(** The same resumed with the provider's answer: the value the promise
    resolves with, or the error it rejects with. *)
Definition updateTokenResumes (h k : nat) (a : answer Refresh) (w : World)
  : World * answer bool :=
  match a with
  | Gives r =>
      let '(refreshed, w) :=
        match r with
        | Refreshed t rt => (true, storeTokens k t rt w)
        | StillValid => (false, w)
        end in
      if refreshed && isMountedRef (hook w h)
      then
        let newToken := kcToken (instance w k) in
        let newRefreshToken := kcRefreshToken (instance w k) in
        let w := withHook h (setToken newToken) w in
        let w := withHook h (setRefreshToken newRefreshToken) w in
        (notify (TOKEN_UPDATED newToken newRefreshToken) w, Gives refreshed)
      else (w, Gives refreshed)
  | Fails err => (w, Fails err)
  end.

End KeycloakTokens.

(** ** hooks/useWebsocket and contexts/websocketContext: the options *)
Module WebSocketOptions.
Import WebSocketHook.

(** The [options] object: the keys the caller sets. *)
Record Options := {
  o_reconnectInterval : option Z;
  o_maxReconnectAttempts : option Z;
  o_enableReconnect : option bool;
  o_enableMessageHistory : option bool;
  o_enableAuth : option bool;
  o_protocols : option (list string);
  o_authMethod : option string;
  o_onOpen : option fn;
  o_onMessage : option fn;
  o_onError : option fn;
  o_onClose : option fn;
}.

Definition noOptions : Options :=
  {| o_reconnectInterval := None; o_maxReconnectAttempts := None;
     o_enableReconnect := None; o_enableMessageHistory := None; o_enableAuth := None;
     o_protocols := None; o_authMethod := None;
     o_onOpen := None; o_onMessage := None; o_onError := None; o_onClose := None |}.

(** [ENV.WEBSOCKET] *)
Record Env := {
  URL : string;
  RECONNECT_INTERVAL : Z;
  MAX_RECONNECT_ATTEMPTS : Z;
}.

(** [x || y] on numbers. *)
Definition orNumber (x : option Z) (y : Z) : Z :=
  match x with
  | Some n => if (n =? 0)%Z then y else n
  | None => y
  end.

(** [x || y] on strings. *)
Definition orString (x : option string) (y : string) : string :=
  default y (truthy x).

(** The [config] of [useWebSocket(url, options)] (lines 460-470): first
    the computed keys, then the spread of [options], which replaces every
    key the caller has set. *)
Definition makeConfig (env : Env) (url : option string) (o : Options) : Config :=
  let computed :=
    {| url := orString url (URL env);
       reconnectInterval := orNumber (o_reconnectInterval o) (RECONNECT_INTERVAL env);
       maxReconnectAttempts := orNumber (o_maxReconnectAttempts o) (MAX_RECONNECT_ATTEMPTS env);
       enableReconnect := negb (bool_decide (o_enableReconnect o = Some false));
       enableMessageHistory := negb (bool_decide (o_enableMessageHistory o = Some false));
       enableAuth := negb (bool_decide (o_enableAuth o = Some false));
       protocols := default [] (o_protocols o);
       authMethod := orString (o_authMethod o) "url";
       onOpen := None; onMessage := None; onError := None; onClose := None |} in
  {| url := WebSocketHook.url computed;
     reconnectInterval := default (reconnectInterval computed) (o_reconnectInterval o);
     maxReconnectAttempts := default (maxReconnectAttempts computed) (o_maxReconnectAttempts o);
     enableReconnect := default (enableReconnect computed) (o_enableReconnect o);
     enableMessageHistory := default (enableMessageHistory computed) (o_enableMessageHistory o);
     enableAuth := default (enableAuth computed) (o_enableAuth o);
     protocols := default (protocols computed) (o_protocols o);
     authMethod := default (authMethod computed) (o_authMethod o);
     onOpen := o_onOpen o; onMessage := o_onMessage o;
     onError := o_onError o; onClose := o_onClose o |}.

(** [{ ...defaults, ...options }] *)
Definition spread (defaults o : Options) : Options :=
  {| o_reconnectInterval := o_reconnectInterval o ∪ o_reconnectInterval defaults;
     o_maxReconnectAttempts := o_maxReconnectAttempts o ∪ o_maxReconnectAttempts defaults;
     o_enableReconnect := o_enableReconnect o ∪ o_enableReconnect defaults;
     o_enableMessageHistory := o_enableMessageHistory o ∪ o_enableMessageHistory defaults;
     o_enableAuth := o_enableAuth o ∪ o_enableAuth defaults;
     o_protocols := o_protocols o ∪ o_protocols defaults;
     o_authMethod := o_authMethod o ∪ o_authMethod defaults;
     o_onOpen := o_onOpen o ∪ o_onOpen defaults;
     o_onMessage := o_onMessage o ∪ o_onMessage defaults;
     o_onError := o_onError o ∪ o_onError defaults;
     o_onClose := o_onClose o ∪ o_onClose defaults |}.

(** [defaultOptions] of [WebSocketProvider] (websocketContext, lines 19-26). *)
Definition providerDefaults : Options :=
  {| o_reconnectInterval := Some 3000%Z; o_maxReconnectAttempts := Some 5%Z;
     o_enableReconnect := Some true; o_enableMessageHistory := Some true;
     o_enableAuth := Some true;
     o_protocols := None; o_authMethod := None;
     o_onOpen := None; o_onMessage := None; o_onError := None; o_onClose := None |}.

(** The config of the hook that [WebSocketProvider] mounts. *)
Definition providerConfig (env : Env) (url : option string) (o : Options) : Config :=
  makeConfig env url (spread providerDefaults o).

End WebSocketOptions.

(** * Properties *)

(** ** The connection manager *)
Module WebSocketProofs.
Import WebSocketHook.

Section Hook.

Variable config : Config.
Variable JSON_parse : string -> option JsVal.
Variable JSON_stringify : JsVal -> string.
Variable encodeURIComponent : string -> string.
Variable behaviour : fn -> JsVal -> option string.
Variable registryCalls : fn -> JsVal -> list RegistryCall.

Abbreviation connect := (connect config encodeURIComponent).
Abbreviation onopen := (onopen config JSON_stringify behaviour).
Abbreviation onmessage :=
  (onmessage config JSON_parse JSON_stringify behaviour registryCalls).
Abbreviation onerror := (onerror config behaviour).
Abbreviation onclose := (onclose config behaviour).
Abbreviation sendMessage := (sendMessage config JSON_stringify encodeURIComponent).
Abbreviation reconnect := (reconnect).
Abbreviation autoConnectEffect := (autoConnectEffect config).
Abbreviation step :=
  (step config JSON_parse JSON_stringify encodeURIComponent behaviour registryCalls).
Abbreviation reachable :=
  (reachable config JSON_parse JSON_stringify encodeURIComponent behaviour registryCalls).
Abbreviation call := (call behaviour).
Abbreviation callIfSet := (callIfSet behaviour).
Abbreviation callListener := (callListener behaviour registryCalls).
Abbreviation forEachLive := (forEachLive behaviour registryCalls).
Abbreviation dispatch := (dispatch behaviour registryCalls).
Abbreviation messageData := (messageData JSON_stringify).
Abbreviation send := (send JSON_stringify).

(** A run of several events. *)
Definition run (es : list Event) (s : State) : State :=
  fold_left (fun s e => step e s) es s.

(** *** What calling callbacks and listeners leaves alone *)

Lemma call_frame f arg s :
  ui (stateOf (call f arg s)) = ui s /\
  refs (stateOf (call f arg s)) = refs s /\
  sockets (host (stateOf (call f arg s))) = sockets (host s) /\
  wire (host (stateOf (call f arg s))) = wire (host s) /\
  timers (host (stateOf (call f arg s))) = timers (host s) /\
  nextTimer (host (stateOf (call f arg s))) = nextTimer (host s).
Proof. unfold WebSocketHook.call. destruct (behaviour f arg); cbn; auto 10. Qed.

Lemma callIfSet_frame f arg s :
  ui (stateOf (callIfSet f arg s)) = ui s /\
  refs (stateOf (callIfSet f arg s)) = refs s /\
  sockets (host (stateOf (callIfSet f arg s))) = sockets (host s) /\
  wire (host (stateOf (callIfSet f arg s))) = wire (host s) /\
  timers (host (stateOf (callIfSet f arg s))) = timers (host s) /\
  nextTimer (host (stateOf (callIfSet f arg s))) = nextTimer (host s).
Proof. destruct f; cbn [WebSocketHook.callIfSet]; [apply call_frame | cbn; auto 10]. Qed.

Lemma callIfSet_host f arg s :
  connectTimers (host (stateOf (callIfSet f arg s))) = connectTimers (host s) /\
  autoConnect (host (stateOf (callIfSet f arg s))) = autoConnect (host s).
Proof.
  destruct f; cbn [WebSocketHook.callIfSet]; [|auto].
  unfold WebSocketHook.call. destruct (behaviour _ _); cbn; auto.
Qed.

(** [s'] differs from [s] at most in the registry and in the calls
    recorded: what a listener can change. *)
Definition registryOnly (s s' : State) : Prop :=
  ui s' = ui s /\
  socketRef (refs s') = socketRef (refs s) /\
  reconnectTimeoutRef (refs s') = reconnectTimeoutRef (refs s) /\
  reconnectAttemptsRef (refs s') = reconnectAttemptsRef (refs s) /\
  messageQueueRef (refs s') = messageQueueRef (refs s) /\
  isConnectingRef (refs s') = isConnectingRef (refs s) /\
  sockets (host s') = sockets (host s) /\
  wire (host s') = wire (host s) /\
  timers (host s') = timers (host s) /\
  connectTimers (host s') = connectTimers (host s) /\
  nextTimer (host s') = nextTimer (host s) /\
  autoConnect (host s') = autoConnect (host s).

Lemma registryOnly_refl s : registryOnly s s.
Proof. unfold registryOnly. auto 15. Qed.

Lemma registryOnly_trans s1 s2 s3 :
  registryOnly s1 s2 -> registryOnly s2 s3 -> registryOnly s1 s3.
Proof.
  unfold registryOnly.
  intros (?&?&?&?&?&?&?&?&?&?&?&?) (?&?&?&?&?&?&?&?&?&?&?&?).
  repeat split; congruence.
Qed.

Lemma removeEventListener_registryOnly ty h s :
  registryOnly s (removeEventListener ty h s).
Proof.
  unfold removeEventListener. repeat case_match; unfold registryOnly; cbn; auto 15.
Qed.

Lemma registryCall_registryOnly c s : registryOnly s (registryCall c s).
Proof.
  destruct c; cbn [registryCall]; [|apply removeEventListener_registryOnly].
  unfold registryOnly. cbn. auto 15.
Qed.

Lemma registryCalls_registryOnly cs s :
  registryOnly s (fold_left (fun s c => registryCall c s) cs s).
Proof.
  revert s. induction cs as [|c cs IH]; intros s; cbn [fold_left];
    [apply registryOnly_refl|].
  eapply registryOnly_trans; [apply registryCall_registryOnly | apply IH].
Qed.

Lemma callListener_registryOnly f arg s :
  registryOnly s (stateOf (callListener f arg s)).
Proof.
  unfold WebSocketHook.callListener.
  match goal with |- context [fold_left _ ?cs ?s0] =>
    pose proof (registryCalls_registryOnly cs s0) as H;
    assert (registryOnly s s0) as H0 by (unfold registryOnly; cbn; auto 15) end.
  destruct (behaviour f arg); cbn [stateOf]; eapply registryOnly_trans; eauto.
Qed.

Lemma forEachLive_registryOnly ty arg k n l s :
  registryOnly s (stateOf (forEachLive ty arg k n l s)).
Proof.
  revert k l s. induction n as [|n IH]; intros k l s; cbn [WebSocketHook.forEachLive];
    [apply registryOnly_refl|].
  destruct (default [] l !! k) as [h|]; [|apply IH].
  pose proof (callListener_registryOnly h arg s) as Hc.
  destruct (callListener h arg s) as [s'|e s']; cbn [andThen stateOf] in *; [|exact Hc].
  eapply registryOnly_trans; [exact Hc | apply IH].
Qed.

Lemma dispatch_registryOnly ty arg s : registryOnly s (stateOf (dispatch ty arg s)).
Proof.
  unfold WebSocketHook.dispatch. destruct ty; try apply registryOnly_refl.
  destruct (eventListenersRef (refs s) !! _) as [[|h hs]|]; try apply registryOnly_refl.
  apply forEachLive_registryOnly.
Qed.

(** *** The reconnect-attempt counter *)

Definition attempts (s : State) : nat := reconnectAttemptsRef (refs s).

Lemma wsSend_frame k data s :
  ui (stateOf (wsSend k data s)) = ui s /\
  refs (stateOf (wsSend k data s)) = refs s /\
  sockets (host (stateOf (wsSend k data s))) = sockets (host s) /\
  timers (host (stateOf (wsSend k data s))) = timers (host s) /\
  nextTimer (host (stateOf (wsSend k data s))) = nextTimer (host s) /\
  calls (host (stateOf (wsSend k data s))) = calls (host s).
Proof. unfold wsSend. repeat case_match; cbn; auto 10. Qed.

Lemma wsSend_host k data s :
  connectTimers (host (stateOf (wsSend k data s))) = connectTimers (host s) /\
  autoConnect (host (stateOf (wsSend k data s))) = autoConnect (host s).
Proof. unfold wsSend. repeat case_match; cbn; auto. Qed.

Lemma send_frame m s :
  ui (stateOf (send m s)) = ui s /\
  refs (stateOf (send m s)) = refs s /\
  sockets (host (stateOf (send m s))) = sockets (host s) /\
  timers (host (stateOf (send m s))) = timers (host s) /\
  nextTimer (host (stateOf (send m s))) = nextTimer (host s) /\
  calls (host (stateOf (send m s))) = calls (host s) /\
  connectTimers (host (stateOf (send m s))) = connectTimers (host s) /\
  autoConnect (host (stateOf (send m s))) = autoConnect (host s).
Proof.
  unfold WebSocketHook.send. destruct (currentOpen s) as [k|]; [|cbn; auto 10].
  destruct (messageData m) as [d|]; [|cbn; auto 10].
  destruct (wsSend_frame k d s) as (?&?&?&?&?&?). destruct (wsSend_host k d s) as (?&?).
  auto 10.
Qed.

Lemma flush_attempts k q s :
  attempts (stateOf (flush k q s)) = attempts s /\
  nextTimer (host (stateOf (flush k q s))) = nextTimer (host s).
Proof.
  revert s. induction q as [|m q IH]; intros s; cbn [flush]; [cbn; auto|].
  pose proof (wsSend_frame k m (setMessageQueueRef q s)) as (_ & Hr & _ & _ & Hn & _).
  destruct (wsSend k m (setMessageQueueRef q s)) as [s'|e s'];
    cbn [andThen stateOf] in *.
  - destruct (IH s') as [-> ->]. unfold attempts. rewrite Hr, Hn. split; reflexivity.
  - unfold attempts. rewrite Hr, Hn. split; reflexivity.
Qed.

Lemma connect_attempts r a s : attempts (connect r a s) = attempts s.
Proof. unfold WebSocketHook.connect. repeat case_match; reflexivity. Qed.

Lemma connect_nextTimer r a s : nextTimer (host (connect r a s)) = nextTimer (host s).
Proof. unfold WebSocketHook.connect. repeat case_match; reflexivity. Qed.

Lemma sendMessage_attempts r a m s :
  attempts (stateOf (sendMessage r a m s)) = attempts s /\
  nextTimer (host (stateOf (sendMessage r a m s))) = nextTimer (host s).
Proof.
  unfold WebSocketHook.sendMessage.
  destruct (messageData m) as [d|]; [|cbn; auto].
  destruct (currentOpen s) as [k|].
  - pose proof (wsSend_frame k d s) as (_ & Hr & _ & _ & Hn & _).
    destruct (wsSend k d s) as [s'|e s']; cbn [andThen stateOf] in *.
    + unfold attempts. destruct (enableMessageHistory config); cbn; now rewrite Hr, Hn.
    + unfold attempts. now rewrite Hr, Hn.
  - destruct (negb _ && negb _); cbn [stateOf];
      [rewrite connect_attempts, connect_nextTimer|]; auto.
Qed.

Lemma onopen_attempts k token s :
  is_Some (sockets (host s) !! k) -> attempts (stateOf (onopen k token s)) = 0.
Proof.
  intros [w Hw]. unfold WebSocketHook.onopen. rewrite Hw.
  match goal with |- context [flush k ?q ?s0] =>
    pose proof (flush_attempts k q s0) as [Hf _];
    destruct (flush k q s0) as [s1|e s1] end; cbn [andThen stateOf] in *;
    [|exact Hf].
  match goal with |- context [andThen ?r _] =>
    assert (attempts (stateOf r) = 0) as Ha;
    [|destruct r as [s2|e s2]; cbn [andThen stateOf] in *; [|exact Ha]] end.
  { repeat case_match; cbn [stateOf]; try exact Hf.
    match goal with |- context [wsSend k ?d s1] =>
      pose proof (wsSend_frame k d s1) as (_ & Hr & _) end.
    unfold attempts in *. now rewrite Hr. }
  pose proof (callIfSet_frame (onOpen config) openEvent s2) as (_ & Hr & _).
  unfold attempts in *. now rewrite Hr.
Qed.

(** An inbound message changes no ref but the registry, no timer and no
    socket. *)
Lemma onmessage_frame data now s :
  let s' := stateOf (onmessage data now s) in
  socketRef (refs s') = socketRef (refs s) /\
  reconnectTimeoutRef (refs s') = reconnectTimeoutRef (refs s) /\
  reconnectAttemptsRef (refs s') = reconnectAttemptsRef (refs s) /\
  messageQueueRef (refs s') = messageQueueRef (refs s) /\
  isConnectingRef (refs s') = isConnectingRef (refs s) /\
  sockets (host s') = sockets (host s) /\
  timers (host s') = timers (host s) /\
  connectTimers (host s') = connectTimers (host s) /\
  nextTimer (host s') = nextTimer (host s) /\
  autoConnect (host s') = autoConnect (host s).
Proof.
  unfold WebSocketHook.onmessage.
  match goal with |- context [WebSocketHook.callIfSet _ ?f ?arg ?s0] =>
    pose proof (callIfSet_frame f arg s0) as (_ & Hr & Hs & _ & Ht & Hn);
    pose proof (callIfSet_host f arg s0) as (Hc & Ha);
    assert (refs s0 = refs s /\ host s0 = host s) as [H0 H0']
      by (destruct (enableMessageHistory config); split; reflexivity);
    destruct (callIfSet f arg s0) as [s1|e s1] end; cbn [andThen stateOf] in *.
  2:{ rewrite Hr, Hs, Ht, Hn, Hc, Ha, H0, H0'. auto 12. }
  destruct (getProp _ "type") as [ty|]; cbn [stateOf];
    [|rewrite Hr, Hs, Ht, Hn, Hc, Ha, H0, H0'; auto 12].
  match goal with |- context [andThen ?r _] =>
    assert (refs (stateOf r) = refs s1 /\
            sockets (host (stateOf r)) = sockets (host s1) /\
            timers (host (stateOf r)) = timers (host s1) /\
            connectTimers (host (stateOf r)) = connectTimers (host s1) /\
            nextTimer (host (stateOf r)) = nextTimer (host s1) /\
            autoConnect (host (stateOf r)) = autoConnect (host s1))
      as (Hr2 & Hs2 & Ht2 & Hc2 & Hn2 & Ha2);
    [|destruct r as [s2|e s2]; cbn [andThen stateOf] in *] end.
  { destruct (isString "ping" ty); cbn [stateOf]; [|auto 10].
    match goal with |- context [WebSocketHook.send _ ?m s1] =>
      destruct (send_frame m s1) as (_ & ? & ? & ? & ? & _ & ? & ?) end. auto 10. }
  2:{ rewrite Hr2, Hs2, Ht2, Hn2, Hc2, Ha2, Hr, Hs, Ht, Hn, Hc, Ha, H0, H0'. auto 12. }
  match goal with |- context [WebSocketHook.dispatch _ _ ?t ?p s2] =>
    destruct (dispatch_registryOnly t p s2) as (_&R1&R2&R3&R4&R5&R6&_&R8&R9&R10&R11) end.
  rewrite R1, R2, R3, R4, R5, R6, R8, R9, R10, R11.
  rewrite Hr2, Hs2, Ht2, Hn2, Hc2, Ha2, Hr, Hs, Ht, Hn, Hc, Ha, H0, H0'. auto 12.
Qed.

Lemma onerror_attempts s :
  attempts (stateOf (onerror s)) = attempts s /\
  nextTimer (host (stateOf (onerror s))) = nextTimer (host s).
Proof.
  unfold WebSocketHook.onerror.
  match goal with |- context [WebSocketHook.callIfSet _ ?f ?arg ?s0] =>
    pose proof (callIfSet_frame f arg s0) as (_ & Hr & _ & _ & _ & Hn) end.
  unfold attempts. now rewrite Hr, Hn.
Qed.

Lemma disconnect_attempts s : attempts (disconnect s) = 0.
Proof. reflexivity. Qed.

Lemma addEventListener_attempts ty h s : attempts (addEventListener ty h s) = attempts s.
Proof. reflexivity. Qed.

Lemma removeEventListener_attempts ty h s :
  attempts (removeEventListener ty h s) = attempts s.
Proof. unfold removeEventListener. repeat case_match; reflexivity. Qed.

Lemma reconnect_attempts r s : attempts (reconnect r s) = 0.
Proof. reflexivity. Qed.

Lemma autoConnectCleanup_attempts s :
  attempts (autoConnectCleanup s) = attempts s \/ attempts (autoConnectCleanup s) = 0.
Proof. unfold autoConnectCleanup. destruct (autoConnect (host s)); auto. Qed.

Lemma autoConnectEffect_attempts r s : attempts (autoConnectEffect r s) = attempts s.
Proof. unfold WebSocketHook.autoConnectEffect. destruct (_ && _); reflexivity. Qed.

Lemma cleanupEffect_attempts s : attempts (cleanupEffect s) = attempts s.
Proof.
  unfold cleanupEffect, wsClose. repeat case_match; reflexivity.
Qed.

(** No timer of [s] is lost or added. *)
Definition noNewTimer (s s' : State) : Prop :=
  nextTimer (host s') = nextTimer (host s) /\
  forall t, is_Some (timers (host s') !! t) -> is_Some (timers (host s) !! t).

(** [if (ref.current) { clearTimeout(ref.current); ref.current = null; }] *)
Definition cancelReconnect (s : State) : State :=
  match reconnectTimeoutRef (refs s) with
  | Some t => setReconnectTimeoutRef None (clearTimeout t s)
  | None => s
  end.

(** What a close event does to the counter and the timers: either it
    schedules nothing and leaves the counter, or it was an unclean close
    below the maximum, and it adds one to the counter and arms one timer. *)
Lemma onclose_cases k wasClean s :
  let s' := stateOf (onclose k wasClean s) in
  (attempts s' = attempts s /\ noNewTimer s s') \/
  (attempts s' = S (attempts s) /\ wasClean = false /\ enableReconnect config = true /\
   (Z.of_nat (attempts s) < maxReconnectAttempts config)%Z /\
   nextTimer (host s') = S (nextTimer (host s)) /\
   reconnectTimeoutRef (refs s') = Some (nextTimer (host s)) /\
   exists r, timers (host s') !! nextTimer (host s) = Some (reconnectInterval config, r)).
Proof.
  unfold WebSocketHook.onclose.
  destruct (sockets (host s) !! k) as [w|]; cbn zeta; [|left; cbn; unfold noNewTimer; auto].
  match goal with |- context [WebSocketHook.callIfSet _ ?f ?arg ?s0] =>
    pose proof (callIfSet_frame f arg s0) as (_ & Hr & _ & _ & Ht & Hn);
    destruct (callIfSet f arg s0) as [s1|e s1] end; cbn [andThen stateOf] in *.
  2:{ left. unfold attempts, noNewTimer. rewrite Hr, Hn. cbn.
      repeat split. intros t. rewrite Ht. cbn. auto. }
  assert (attempts s1 = attempts s) as Ha by (unfold attempts; now rewrite Hr).
  cbn in Ht, Hn.
  fold (cancelReconnect s1).
  set (s2 := cancelReconnect s1).
  assert (attempts s2 = attempts s /\ noNewTimer s s2) as [Ha2 [Hn2 Ht2]].
  { subst s2. unfold cancelReconnect, noNewTimer, attempts in *.
    destruct (reconnectTimeoutRef (refs s1)) as [t|]; cbn.
    - split; [exact Ha|]. split; [exact Hn|]. intros t'. rewrite Ht.
      destruct (decide (t = t')) as [->|Hne].
      + rewrite lookup_delete_eq. intros [? ?]; discriminate.
      + now rewrite lookup_delete_ne.
    - split; [exact Ha|]. split; [exact Hn|]. intros t'. now rewrite Ht. }
  fold (attempts s2).
  destruct (enableReconnect config) eqn:Er; cbn [andb].
  - destruct (Z.ltb_spec (Z.of_nat (attempts s2)) (maxReconnectAttempts config)) as [Hlt|Hge];
      cbn [andb].
    + destruct wasClean; cbn [negb].
      * left. destruct (maxReconnectAttempts config <=? Z.of_nat (attempts s2))%Z;
          cbn; unfold noNewTimer; auto.
      * right. cbn. unfold attempts in *. rewrite PeanoNat.Nat.add_1_r.
        repeat split; try congruence; try lia.
        exists (wsRender w). rewrite Hn2. apply lookup_insert_eq.
    + left. destruct (maxReconnectAttempts config <=? Z.of_nat (attempts s2))%Z;
        cbn; unfold noNewTimer; auto.
  - left. destruct (maxReconnectAttempts config <=? Z.of_nat (attempts s2))%Z;
      cbn; unfold noNewTimer; auto.
Qed.

(** Below the maximum, the unclean close of a socket schedules a
    reconnect, when reconnection is enabled and the [onClose] callback
    returns. *)
Lemma onclose_schedules k w s :
  sockets (host s) !! k = Some w ->
  enableReconnect config = true ->
  (Z.of_nat (reconnectAttemptsRef (refs s)) < maxReconnectAttempts config)%Z ->
  (forall f, onClose config = Some f -> behaviour f (closeEvent false) = None) ->
  let s' := stateOf (onclose k false s) in
  let t := nextTimer (host s) in
  reconnectAttemptsRef (refs s') = S (reconnectAttemptsRef (refs s)) /\
  reconnectTimeoutRef (refs s') = Some t /\
  timers (host s') !! t = Some (reconnectInterval config, wsRender w).
Proof.
  intros Hw Her Hlt Hcb. unfold WebSocketHook.onclose. rewrite Hw.
  match goal with |- context [WebSocketHook.callIfSet _ ?f ?arg ?s0] =>
    assert (exists s1, callIfSet f arg s0 = Returned s1 /\ refs s1 = refs s0 /\
              nextTimer (host s1) = nextTimer (host s0)) as (s1 & -> & Hr & Hn)
  end.
  { destruct (onClose config) as [f|] eqn:Ef; cbn [WebSocketHook.callIfSet].
    - unfold WebSocketHook.call. rewrite (Hcb f eq_refl). eexists; repeat split.
    - eexists; repeat split. }
  cbn [andThen]. fold (cancelReconnect s1).
  assert (reconnectAttemptsRef (refs (cancelReconnect s1)) = reconnectAttemptsRef (refs s) /\
          nextTimer (host (cancelReconnect s1)) = nextTimer (host s)) as [Ha Hn2].
  { unfold cancelReconnect. destruct (reconnectTimeoutRef (refs s1)); cbn; rewrite ?Hr, ?Hn; auto. }
  set (s2 := cancelReconnect s1) in *.
  rewrite Her, Ha. cbn [andb negb].
  destruct (Z.ltb_spec (Z.of_nat (reconnectAttemptsRef (refs s)))
              (maxReconnectAttempts config)); [|lia].
  cbn. rewrite Hn2, PeanoNat.Nat.add_1_r. split; [reflexivity|]. split; [reflexivity|].
  apply lookup_insert_eq.
Qed.

Lemma setReadyState_frame k rs s :
  attempts (setReadyState k rs s) = attempts s /\
  nextTimer (host (setReadyState k rs s)) = nextTimer (host s) /\
  timers (host (setReadyState k rs s)) = timers (host s) /\
  refs (setReadyState k rs s) = refs s /\ ui (setReadyState k rs s) = ui s.
Proof. cbn. auto. Qed.

Lemma setReadyState_lookup k rs s w :
  sockets (host s) !! k = Some w ->
  sockets (host (setReadyState k rs s)) !! k
  = Some {| wsUrl := wsUrl w; readyState := rs; wsRender := wsRender w |}.
Proof. intros H. cbn. now rewrite list_lookup_alter_eq, H. Qed.

Lemma clearTimeout_attempts t s : attempts (clearTimeout t s) = attempts s.
Proof. reflexivity. Qed.

(** The events that neither open a socket nor call [disconnect]: they
    leave the queue and do not reset the counter. *)
Definition waits (e : Event) : bool :=
  match e with
  | SocketOpens _ _ | Disconnect | Reconnect _ | EffectRuns _ | Unmounts => false
  | _ => true
  end.

(** The event is a close that arms a timer. *)
Definition armsTimer (e : Event) (s : State) : bool :=
  match e with
  | SocketCloses _ _ => negb (Nat.eqb (nextTimer (host (step e s))) (nextTimer (host s)))
  | _ => false
  end.

(** The reconnects that the close events of a run schedule. *)
Fixpoint scheduled (es : list Event) (s : State) : nat :=
  match es with
  | [] => 0
  | e :: es => (if armsTimer e s then 1 else 0) + scheduled es (step e s)
  end.

(** What a close event does, as the browser delivers it. *)
Lemma close_cases k wasClean s :
  let s' := step (SocketCloses k wasClean) s in
  (attempts s' = attempts s /\ noNewTimer s s') \/
  (attempts s' = S (attempts s) /\ wasClean = false /\ enableReconnect config = true /\
   (Z.of_nat (attempts s) < maxReconnectAttempts config)%Z /\
   nextTimer (host s') = S (nextTimer (host s)) /\
   reconnectTimeoutRef (refs s') = Some (nextTimer (host s)) /\
   exists r, timers (host s') !! nextTimer (host s) = Some (reconnectInterval config, r)).
Proof.
  cbn [WebSocketHook.step].
  assert (noNewTimer s s) as Hrefl by (split; auto).
  pose proof (onclose_cases k wasClean (setReadyState k CLOSED s)) as H.
  destruct (readyStateOf s k) as [[]|]; auto.
Qed.

Lemma step_counts e s :
  waits e = true ->
  attempts (step e s) = attempts s + (if armsTimer e s then 1 else 0).
Proof.
  intros Hw. destruct e; try discriminate; cbn [armsTimer];
    rewrite ?Nat.add_0_r; cbn [WebSocketHook.step].
  - apply connect_attempts.
  - apply sendMessage_attempts.
  - reflexivity.
  - apply removeEventListener_attempts.
  - destruct (readyStateOf s k) as [[]|]; try reflexivity.
    apply (onmessage_frame data now s).
  - destruct (readyStateOf s k); [|reflexivity]. apply onerror_attempts.
  - destruct (close_cases k wasClean s) as [[Ha [Hn _]]|(Ha & _ & _ & _ & Hn & _)];
      cbn [WebSocketHook.step] in Ha, Hn; rewrite Ha, Hn.
    + rewrite Nat.eqb_refl. cbn. lia.
    + destruct (Nat.eqb_spec (S (nextTimer (host s))) (nextTimer (host s))); [lia|].
      cbn. lia.
  - destruct (timers (host s) !! t) as [[d r]|]; [now rewrite connect_attempts|].
    destruct (connectTimers (host s) !! t) as [[d r]|]; [now rewrite connect_attempts|].
    reflexivity.
Qed.

Lemma run_counts es s :
  Forall (fun e => waits e = true) es ->
  attempts (run es s) = attempts s + scheduled es s.
Proof.
  revert s. induction es as [|e es IH]; intros s Hall; cbn [run fold_left scheduled];
    [lia|].
  apply Forall_cons in Hall as [He Hall]. fold (run es (step e s)).
  rewrite (IH _ Hall), (step_counts e s He). lia.
Qed.

Definition bounded (s : State) : Prop :=
  (Z.of_nat (attempts s) <= Z.max 0 (maxReconnectAttempts config))%Z.

Lemma step_bounded e s : bounded s -> bounded (step e s).
Proof.
  unfold bounded. intros Hb.
  destruct (waits e) eqn:Hw.
  - rewrite (step_counts e s Hw). destruct e; try discriminate; cbn [armsTimer];
      rewrite ?Nat.add_0_r; try exact Hb.
    destruct (close_cases k wasClean s) as [[Ha [Hn _]]|(Ha & _ & _ & Hlt & Hn & _)];
      rewrite Hn.
    + rewrite Nat.eqb_refl. cbn. rewrite Nat.add_0_r. exact Hb.
    + destruct (Nat.eqb_spec (S (nextTimer (host s))) (nextTimer (host s))); [lia|].
      cbn. lia.
  - destruct e; try discriminate; cbn [WebSocketHook.step].
    + rewrite disconnect_attempts. lia.
    + destruct (readyStateOf s k) as [[]|] eqn:E; try exact Hb.
      rewrite onopen_attempts; [lia|].
      unfold readyStateOf in E. cbn. rewrite list_lookup_alter_eq.
      destruct (sockets (host s) !! k); [eexists; reflexivity | discriminate].
    + rewrite reconnect_attempts. lia.
    + rewrite autoConnectEffect_attempts.
      destruct (autoConnectCleanup_attempts s) as [-> | ->]; [exact Hb | lia].
    + rewrite cleanupEffect_attempts.
      change (attempts (setAutoConnect None (autoConnectCleanup s)))
        with (attempts (autoConnectCleanup s)).
      destruct (autoConnectCleanup_attempts s) as [-> | ->]; [exact Hb | lia].
Qed.

Lemma reachable_bounded s : reachable s -> bounded s.
Proof.
  induction 1 as [|e s _ IH].
  - unfold bounded. cbn. lia.
  - now apply step_bounded.
Qed.

Lemma run_reachable_from es s : reachable s -> reachable (run es s).
Proof.
  revert s. induction es as [|e es IH]; intros s Hs; cbn [run fold_left]; [exact Hs|].
  apply IH. now constructor.
Qed.

Lemma onclose_exhausted k wasClean s :
  is_Some (sockets (host s) !! k) ->
  (maxReconnectAttempts config <= Z.of_nat (attempts s))%Z ->
  (forall f, onClose config = Some f -> behaviour f (closeEvent wasClean) = None) ->
  error (ui (stateOf (onclose k wasClean s)))
  = Some (ReconnectFailed (maxReconnectAttempts config)).
Proof.
  intros [w Hw] Hmax Hcb. unfold WebSocketHook.onclose. rewrite Hw.
  match goal with |- context [WebSocketHook.callIfSet _ ?f ?arg ?s0] =>
    assert (exists s1, callIfSet f arg s0 = Returned s1 /\ refs s1 = refs s0) as (s1 & -> & Hr)
  end.
  { destruct (onClose config) as [f|] eqn:Ef; cbn [WebSocketHook.callIfSet].
    - unfold WebSocketHook.call. rewrite (Hcb f eq_refl). eexists; split; reflexivity.
    - eexists; split; reflexivity. }
  cbn [andThen]. fold (cancelReconnect s1).
  set (s2 := cancelReconnect s1).
  assert (attempts s2 = attempts s) as Ha.
  { subst s2. unfold cancelReconnect, attempts.
    destruct (reconnectTimeoutRef (refs s1)); cbn; now rewrite Hr. }
  fold (attempts s2). rewrite Ha.
  destruct (Z.ltb_spec (Z.of_nat (attempts s)) (maxReconnectAttempts config)); [lia|].
  rewrite andb_false_r. cbn [andb].
  destruct (Z.leb_spec (maxReconnectAttempts config) (Z.of_nat (attempts s))); [|lia].
  reflexivity.
Qed.

(** *** C6 *)

(** C6.  In every reachable state of a connection the reconnect-attempt
    counter is at most the configured maximum (a maximum below zero counts
    as zero); an open event resets the counter to zero; a close event with
    [wasClean = true] arms no timer; once the counter has reached the
    maximum, a close event arms no timer and leaves the counter, and, when
    the [onClose] callback returns, the terminal error is set.  The counter
    counts the reconnects: a close event either arms no timer and leaves
    the counter, or it is unclean, below the maximum, arms one timer of the
    configured interval and adds one to the counter; below the maximum the
    unclean close of a socket that is not yet closed does so (when
    reconnection is enabled and the [onClose] callback returns).  So in a
    run of events without an open and without a [disconnect], the counter
    grows by the number of reconnects the closes of the run schedule, and
    with them stays within the maximum. *)
Theorem reconnect_attempts_bounded (s : State) :
  reachable s ->
  (Z.of_nat (attempts s) <= Z.max 0 (maxReconnectAttempts config))%Z /\
  (forall k token, readyStateOf s k = Some CONNECTING ->
     attempts (step (SocketOpens k token) s) = 0) /\
  (forall k, noNewTimer s (step (SocketCloses k true) s)) /\
  (forall k wasClean,
     (maxReconnectAttempts config <= Z.of_nat (attempts s))%Z ->
     noNewTimer s (step (SocketCloses k wasClean) s) /\
     attempts (step (SocketCloses k wasClean) s) = attempts s /\
     (is_Some (readyStateOf s k) -> readyStateOf s k <> Some CLOSED ->
      (forall f, onClose config = Some f -> behaviour f (closeEvent wasClean) = None) ->
      error (ui (step (SocketCloses k wasClean) s))
      = Some (ReconnectFailed (maxReconnectAttempts config)))) /\
  (forall k wasClean,
     let s' := step (SocketCloses k wasClean) s in
     (attempts s' = attempts s /\ noNewTimer s s') \/
     (attempts s' = S (attempts s) /\ wasClean = false /\ enableReconnect config = true /\
      (Z.of_nat (attempts s) < maxReconnectAttempts config)%Z /\
      nextTimer (host s') = S (nextTimer (host s)) /\
      reconnectTimeoutRef (refs s') = Some (nextTimer (host s)) /\
      exists r, timers (host s') !! nextTimer (host s) = Some (reconnectInterval config, r))) /\
  (forall k w,
     sockets (host s) !! k = Some w -> readyState w <> CLOSED ->
     enableReconnect config = true ->
     (Z.of_nat (attempts s) < maxReconnectAttempts config)%Z ->
     (forall f, onClose config = Some f -> behaviour f (closeEvent false) = None) ->
     let s' := step (SocketCloses k false) s in
     attempts s' = S (attempts s) /\
     reconnectTimeoutRef (refs s') = Some (nextTimer (host s)) /\
     timers (host s') !! nextTimer (host s) = Some (reconnectInterval config, wsRender w)) /\
  (forall es, Forall (fun e => waits e = true) es ->
     attempts (run es s) = attempts s + scheduled es s /\
     (Z.of_nat (attempts s + scheduled es s) <= Z.max 0 (maxReconnectAttempts config))%Z).
Proof.
  intros Hreach. split; [exact (reachable_bounded s Hreach)|].
  assert (forall k, is_Some (readyStateOf s k) ->
            is_Some (sockets (host (setReadyState k CLOSED s)) !! k)) as Hsock.
  { intros k [rs E]. unfold readyStateOf in E. cbn. rewrite list_lookup_alter_eq.
    destruct (sockets (host s) !! k); [eexists; reflexivity | discriminate]. }
  assert (noNewTimer s s) as Hrefl by (split; auto).
  split; [|split; [|split; [|split; [|split]]]].
  - intros k token E. cbn [WebSocketHook.step]. rewrite E.
    apply onopen_attempts. unfold readyStateOf in E. cbn. rewrite list_lookup_alter_eq.
    destruct (sockets (host s) !! k); [eexists; reflexivity | discriminate].
  - intros k.
    destruct (close_cases k true s) as [[_ Hn]|(_ & Hc & _)]; [exact Hn | discriminate].
  - intros k wasClean Hmax.
    destruct (close_cases k wasClean s) as [[Ha Hn]|(_ & _ & _ & Hlt & _)]; [|lia].
    split; [exact Hn|]. split; [exact Ha|].
    intros Hsome Hopen Hcb. cbn [WebSocketHook.step].
    assert (error (ui (stateOf (onclose k wasClean (setReadyState k CLOSED s))))
            = Some (ReconnectFailed (maxReconnectAttempts config))) as He
      by (apply onclose_exhausted; auto).
    destruct (readyStateOf s k) as [[]|]; auto; try congruence.
    destruct Hsome; discriminate.
  - intros k wasClean. apply close_cases.
  - intros k w Hw Hrs Her Hlt Hcb s'. unfold s'. cbn [WebSocketHook.step].
    assert (readyStateOf s k = Some (readyState w)) as ->
      by (unfold readyStateOf; now rewrite Hw).
    pose proof (onclose_schedules k _ (setReadyState k CLOSED s)
                  (setReadyState_lookup k CLOSED s w Hw) Her Hlt Hcb) as H.
    cbn [wsRender] in H. destruct (readyState w); try exact H. congruence.
  - intros es Hall. rewrite <- (run_counts es s Hall). split; [reflexivity|].
    apply (reachable_bounded (run es s)). now apply run_reachable_from.
Qed.

(** *** The outbound queue *)

(** The string a [sendMessage] event hands over, when its message can be
    serialised. *)
Definition payload (e : Event) : list string :=
  match e with
  | SendMessage _ _ message =>
      match messageData message with Some data => [data] | None => [] end
  | _ => []
  end.

Definition payloads (es : list Event) : list string := concat (map payload es).

Definition isSend (e : Event) : bool :=
  match e with SendMessage _ _ _ => true | _ => false end.

(** The authentication frame [onopen] sends after the queue (lines 562-572). *)
Definition authFrames (k : nat) (token : option string) (s : State) : list (nat * string) :=
  match sockets (host s) !! k with
  | Some w =>
      if enableAuth config && r_authenticated (wsRender w)
         && bool_decide (authMethod config = "message")
      then match truthy token with
           | Some t => [(k, JSON_stringify (JObj [("type", JStr "auth");
                                                  ("token", JStr (cleanToken t))]))]
           | None => []
           end
      else []
  | None => []
  end.

Lemma currentOpen_same s s' :
  socketRef (refs s') = socketRef (refs s) -> sockets (host s') = sockets (host s) ->
  currentOpen s' = currentOpen s.
Proof. intros Hr Hs. unfold currentOpen, readyStateOf. now rewrite Hr, Hs. Qed.

Lemma currentOpen_after_close k s :
  currentOpen s = None -> currentOpen (setReadyState k CLOSED s) = None.
Proof.
  unfold currentOpen, readyStateOf. cbn.
  destruct (socketRef (refs s)) as [k'|]; [|reflexivity].
  destruct (decide (k' = k)) as [->|Hne].
  - intros _. rewrite list_lookup_alter_eq.
    destruct (sockets (host s) !! k); cbn; [|reflexivity].
    rewrite bool_decide_eq_false_2; [reflexivity | discriminate].
  - rewrite list_lookup_alter_ne by congruence. auto.
Qed.

Lemma connect_queue r a s :
  currentOpen s = None ->
  messageQueueRef (refs (connect r a s)) = messageQueueRef (refs s) /\
  wire (host (connect r a s)) = wire (host s) /\
  currentOpen (connect r a s) = None.
Proof.
  intros Hc. unfold WebSocketHook.connect.
  repeat case_match; cbn; repeat split; auto.
  all: unfold currentOpen, readyStateOf; cbn;
       rewrite lookup_app_r by lia; rewrite Nat.sub_diag; reflexivity.
Qed.

Lemma onclose_line k wasClean s :
  let s' := stateOf (onclose k wasClean s) in
  messageQueueRef (refs s') = messageQueueRef (refs s) /\
  wire (host s') = wire (host s) /\
  socketRef (refs s') = socketRef (refs s) /\
  sockets (host s') = sockets (host s).
Proof.
  unfold WebSocketHook.onclose.
  destruct (sockets (host s) !! k) as [w|]; cbn zeta; [|cbn; auto].
  match goal with |- context [WebSocketHook.callIfSet _ ?f ?arg ?s0] =>
    pose proof (callIfSet_frame f arg s0) as (_ & Hr & Hs & Hw & _);
    destruct (callIfSet f arg s0) as [s1|e s1] end; cbn [andThen stateOf] in *.
  2:{ rewrite Hr, Hs, Hw. cbn. auto. }
  fold (cancelReconnect s1).
  assert (messageQueueRef (refs (cancelReconnect s1)) = messageQueueRef (refs s) /\
          wire (host (cancelReconnect s1)) = wire (host s) /\
          socketRef (refs (cancelReconnect s1)) = socketRef (refs s) /\
          sockets (host (cancelReconnect s1)) = sockets (host s)) as H.
  { unfold cancelReconnect. destruct (reconnectTimeoutRef (refs s1)); cbn;
      rewrite ?Hr, ?Hs, ?Hw; cbn; auto. }
  set (s2 := cancelReconnect s1) in *. clearbody s2.
  unfold setTimeout. repeat case_match; cbn; exact H.
Qed.

Lemma onerror_line s :
  let s' := stateOf (onerror s) in
  messageQueueRef (refs s') = messageQueueRef (refs s) /\
  wire (host s') = wire (host s) /\
  socketRef (refs s') = socketRef (refs s) /\
  sockets (host s') = sockets (host s).
Proof.
  unfold WebSocketHook.onerror.
  match goal with |- context [WebSocketHook.callIfSet _ ?f ?arg ?s0] =>
    pose proof (callIfSet_frame f arg s0) as (_ & Hr & Hs & Hw & _) end.
  cbn zeta. rewrite Hr, Hs, Hw. cbn. auto.
Qed.

(** Without an open socket an inbound message transmits nothing. *)
Lemma onmessage_closed data now s :
  currentOpen s = None -> wire (host (stateOf (onmessage data now s))) = wire (host s).
Proof.
  intros Hc. unfold WebSocketHook.onmessage.
  match goal with |- context [WebSocketHook.callIfSet _ ?f ?arg ?s0] =>
    pose proof (callIfSet_frame f arg s0) as (_ & Hr & Hs & Hw & _);
    assert (wire (host s0) = wire (host s) /\ currentOpen s0 = None) as [Hw0 Hc0]
      by (split; [destruct (enableMessageHistory config); reflexivity|];
          rewrite <- Hc; apply currentOpen_same;
          destruct (enableMessageHistory config); reflexivity);
    destruct (callIfSet f arg s0) as [s1|e s1] end; cbn [andThen stateOf] in *;
    [|congruence].
  assert (currentOpen s1 = None) as Hc1
    by (rewrite <- Hc0; apply currentOpen_same; [now rewrite Hr | exact Hs]).
  destruct (getProp _ "type") as [ty|]; cbn [stateOf]; [|congruence].
  match goal with |- context [andThen ?r _] =>
    assert (r = Returned s1) as -> by (unfold WebSocketHook.send; rewrite Hc1;
                                       destruct (isString "ping" ty); reflexivity) end.
  cbn [andThen].
  destruct (dispatch_registryOnly ty
              match JSON_parse data with
              | Some v => v
              | None => JObj [("type", JStr "raw"); ("data", JStr data)]
              end s1) as (_&_&_&_&_&_&_&Hwd&_).
  congruence.
Qed.

(** While the connection is not open, an event that neither opens a socket
    nor disconnects leaves the queue, but for the payload a [sendMessage]
    appends to it, and transmits nothing. *)
Lemma step_waits e s :
  waits e = true -> currentOpen s = None ->
  messageQueueRef (refs (step e s)) = messageQueueRef (refs s) ++ payload e /\
  wire (host (step e s)) = wire (host s) /\
  currentOpen (step e s) = None.
Proof.
  intros Hw Hc. destruct e; try discriminate; cbn [payload WebSocketHook.step];
    rewrite ?app_nil_r.
  - apply connect_queue, Hc.
  - unfold WebSocketHook.sendMessage.
    destruct (messageData message) as [d|]; cbn [stateOf]; [|rewrite app_nil_r; auto].
    rewrite Hc.
    match goal with |- context [connect ?r a ?s0] =>
      destruct (connect_queue r a s0 Hc) as (Hq & Hw' & Ho) end.
    destruct (negb _ && negb _); cbn [stateOf]; [rewrite Hq, Hw', Ho|]; auto.
  - auto.
  - destruct (removeEventListener_registryOnly eventType listener s)
      as (_&Hr&_&_&Hq&_&Hs&Hw'&_).
    rewrite Hq, Hw'. repeat split. rewrite <- Hc. now apply currentOpen_same.
  - destruct (readyStateOf s k) as [[]|]; auto.
    destruct (onmessage_frame data now s) as (Hr&_&_&Hq&_&Hs&_).
    rewrite Hq, (onmessage_closed data now s Hc). repeat split.
    rewrite <- Hc. now apply currentOpen_same.
  - destruct (readyStateOf s k); auto.
    destruct (onerror_line s) as (Hq & Hw' & Hr & Hs). rewrite Hq, Hw'. repeat split.
    rewrite <- Hc. now apply currentOpen_same.
  - assert (currentOpen (stateOf (onclose k wasClean (setReadyState k CLOSED s))) = None
            /\ messageQueueRef (refs (stateOf (onclose k wasClean (setReadyState k CLOSED s))))
               = messageQueueRef (refs s)
            /\ wire (host (stateOf (onclose k wasClean (setReadyState k CLOSED s))))
               = wire (host s)) as (Ho & Hq & Hw').
    { destruct (onclose_line k wasClean (setReadyState k CLOSED s)) as (Hq & Hw' & Hr & Hs).
      rewrite Hq, Hw'. repeat split.
      rewrite <- (currentOpen_after_close k s Hc). now apply currentOpen_same. }
    destruct (readyStateOf s k) as [[]|]; auto.
  - assert (currentOpen (clearTimeout t s) = None) as Hc' by exact Hc.
    destruct (timers (host s) !! t) as [[d r]|];
      [exact (connect_queue r a _ Hc')|].
    destruct (connectTimers (host s) !! t) as [[d r]|];
      [exact (connect_queue r a _ Hc')|]. auto.
Qed.

Lemma run_waits es s :
  Forall (fun e => waits e = true) es -> currentOpen s = None ->
  messageQueueRef (refs (run es s)) = messageQueueRef (refs s) ++ payloads es /\
  wire (host (run es s)) = wire (host s) /\
  currentOpen (run es s) = None.
Proof.
  revert s. induction es as [|e es IH]; intros s Hall Hc; cbn [run fold_left].
  - unfold payloads. cbn. rewrite app_nil_r. auto.
  - apply Forall_cons in Hall as [He Hall].
    destruct (step_waits e s He Hc) as (Hq & Hw & Ho).
    destruct (IH _ Hall Ho) as (Hq' & Hw' & Ho'). unfold run in *.
    rewrite Hq', Hw', Hq, Hw, <- app_assoc. auto.
Qed.

(** On an open socket every queued message is transmitted, in order, and
    the queue ends empty. *)
Lemma flush_open k q s :
  readyStateOf s k = Some OPEN ->
  exists s', flush k q s = Returned s' /\
    wire (host s') = wire (host s) ++ map (pair k) q /\
    messageQueueRef (refs s') = match q with [] => messageQueueRef (refs s) | _ => [] end /\
    sockets (host s') = sockets (host s) /\
    socketRef (refs s') = socketRef (refs s).
Proof.
  revert s. induction q as [|m q IH]; intros s Ho; cbn [flush].
  - exists s. rewrite app_nil_r. auto.
  - unfold wsSend at 1.
    assert (readyStateOf (setMessageQueueRef q s) k = Some OPEN) as -> by exact Ho.
    cbn [andThen].
    match goal with |- context [flush k q ?s0] =>
      destruct (IH s0 Ho) as (s' & -> & Hw & Hq & Hs & Hr) end.
    exists s'. split; [reflexivity|]. rewrite Hw, Hs, Hr. cbn.
    rewrite <- app_assoc. repeat split; auto.
    rewrite Hq. destruct q; reflexivity.
Qed.

(** The open event of a connecting socket: the queue goes out on that
    socket, then the authentication frame if one is due. *)
Lemma open_flushes k token s :
  readyStateOf s k = Some CONNECTING ->
  wire (host (step (SocketOpens k token) s))
  = wire (host s) ++ map (pair k) (messageQueueRef (refs s)) ++ authFrames k token s /\
  messageQueueRef (refs (step (SocketOpens k token) s)) = [] /\
  readyStateOf (step (SocketOpens k token) s) k = Some OPEN /\
  socketRef (refs (step (SocketOpens k token) s)) = socketRef (refs s).
Proof.
  intros E. cbn [WebSocketHook.step]. rewrite E.
  unfold readyStateOf in E.
  destruct (sockets (host s) !! k) as [w|] eqn:Ew; [|discriminate].
  unfold WebSocketHook.onopen, authFrames. rewrite Ew.
  assert (sockets (host (setReadyState k OPEN s)) !! k
          = Some {| wsUrl := wsUrl w; readyState := OPEN; wsRender := wsRender w |}) as Ew'
    by (cbn; rewrite list_lookup_alter_eq, Ew; reflexivity).
  rewrite Ew'. cbn [wsRender].
  match goal with |- context [flush k ?q ?s0] =>
    assert (readyStateOf s0 k = Some OPEN) as Ho
      by (unfold readyStateOf; cbn; rewrite list_lookup_alter_eq, Ew; reflexivity);
    destruct (flush_open k q s0 Ho) as (s1 & -> & Hw & Hq & Hs & Hr)
  end.
  cbn [andThen]. cbn in Hw, Hq, Hs, Hr.
  assert (readyStateOf s1 k = Some OPEN) as Ho1
    by (unfold readyStateOf; rewrite Hs, list_lookup_alter_eq, Ew; reflexivity).
  assert (messageQueueRef (refs s1) = []) as Hq1
    by (rewrite Hq; destruct (messageQueueRef (refs s)); reflexivity).
  match goal with |- context [andThen ?r _] =>
    assert (exists s2, r = Returned s2 /\
              wire (host s2) = wire (host s1) ++
                (if enableAuth config && r_authenticated (wsRender w)
                    && bool_decide (authMethod config = "message")
                 then match truthy token with
                      | Some t => [(k, JSON_stringify (JObj [("type", JStr "auth");
                                                             ("token", JStr (cleanToken t))]))]
                      | None => []
                      end
                 else []) /\
              refs s2 = refs s1 /\ sockets (host s2) = sockets (host s1))
      as (s2 & -> & Hw2 & Hr2 & Hs2)
  end.
  { destruct (enableAuth config && r_authenticated (wsRender w)
              && bool_decide (authMethod config = "message")).
    - destruct (truthy token) as [t|].
      + unfold wsSend. rewrite Ho1. eexists. split; [reflexivity|]. cbn. auto.
      + exists s1. rewrite app_nil_r. auto.
    - exists s1. rewrite app_nil_r. auto. }
  cbn [andThen].
  pose proof (callIfSet_frame (onOpen config) openEvent s2) as (_ & Hr3 & Hs3 & Hw3 & _).
  rewrite Hw3, Hw2, Hw, Hr3, Hr2, Hq1, Hr. unfold readyStateOf. rewrite Hs3, Hs2, Hs.
  cbn. rewrite list_lookup_alter_eq, Ew. cbn. repeat split; auto.
  now rewrite <- app_assoc.
Qed.

(** While the connection is open on socket [k], [sendMessage] transmits at
    once on [k] what serialises, and leaves the queue. *)
Lemma send_while_open e k s :
  isSend e = true -> currentOpen s = Some k ->
  wire (host (step e s)) = wire (host s) ++ map (pair k) (payload e) /\
  messageQueueRef (refs (step e s)) = messageQueueRef (refs s) /\
  currentOpen (step e s) = Some k.
Proof.
  intros He Hc. destruct e; try discriminate.
  cbn [WebSocketHook.step payload]. unfold WebSocketHook.sendMessage.
  destruct (messageData message) as [d|]; cbn [stateOf map];
    [|rewrite app_nil_r; auto].
  rewrite Hc. unfold wsSend.
  assert (readyStateOf s k = Some OPEN) as Ho.
  { unfold currentOpen in Hc. destruct (socketRef (refs s)) as [k'|]; [|discriminate].
    case_bool_decide; [|discriminate]. congruence. }
  rewrite Ho. cbn [andThen stateOf].
  destruct (enableMessageHistory config); cbn; repeat split; auto.
Qed.

Lemma sends_while_open es k s :
  Forall (fun e => isSend e = true) es -> currentOpen s = Some k ->
  wire (host (run es s)) = wire (host s) ++ map (pair k) (payloads es) /\
  messageQueueRef (refs (run es s)) = messageQueueRef (refs s).
Proof.
  revert s. induction es as [|e es IH]; intros s Hall Hc; cbn [run fold_left].
  - unfold payloads. cbn. rewrite app_nil_r. auto.
  - apply Forall_cons in Hall as [He Hall].
    destruct (send_while_open e k s He Hc) as (Hw & Hq & Ho).
    destruct (IH _ Hall Ho) as (Hw' & Hq'). unfold run in *.
    unfold payloads in *. cbn [map concat].
    rewrite Hw', Hq', Hw, Hq, map_app, <- app_assoc. auto.
Qed.

(** [disconnect] empties the queue and transmits nothing. *)
Lemma disconnect_drops s :
  messageQueueRef (refs (disconnect s)) = [] /\ wire (host (disconnect s)) = wire (host s).
Proof.
  split; [reflexivity|]. unfold disconnect, wsClose. repeat case_match; reflexivity.
Qed.

Lemma cleanupEffect_line s :
  messageQueueRef (refs (cleanupEffect s)) = messageQueueRef (refs s) /\
  wire (host (cleanupEffect s)) = wire (host s).
Proof. unfold cleanupEffect, wsClose. repeat case_match; auto. Qed.

(** The events that call [disconnect]: the call itself, [reconnect], and,
    once the auto-connect effect has run, its next run and the unmount. *)
Definition disconnects (e : Event) (s : State) : bool :=
  match e with
  | Disconnect | Reconnect _ => true
  | EffectRuns _ | Unmounts => bool_decide (is_Some (autoConnect (host s)))
  | _ => false
  end.

Lemma step_disconnects e s :
  disconnects e s = true ->
  messageQueueRef (refs (step e s)) = [] /\ wire (host (step e s)) = wire (host s).
Proof.
  intros He. destruct e; try discriminate; cbn [WebSocketHook.step].
  - apply disconnect_drops.
  - unfold reconnect, setConnectTimeout. cbn. apply disconnect_drops.
  - cbn in He. apply bool_decide_eq_true in He as [c Hc].
    unfold autoConnectCleanup. rewrite Hc.
    match goal with |- context [disconnect ?s0] =>
      assert (wire (host s0) = wire (host s)) as Hw0 by (destruct c; reflexivity);
      destruct (disconnect_drops s0) as [Hq Hw]; set (s1 := disconnect s0) in * end.
    clearbody s1. unfold WebSocketHook.autoConnectEffect, setConnectTimeout.
    destruct (_ && _); cbn; rewrite Hq, Hw, Hw0; auto.
  - cbn in He. apply bool_decide_eq_true in He as [c Hc].
    unfold autoConnectCleanup. rewrite Hc.
    match goal with |- context [disconnect ?s0] =>
      assert (wire (host s0) = wire (host s)) as Hw0 by (destruct c; reflexivity);
      destruct (disconnect_drops s0) as [Hq Hw];
      destruct (cleanupEffect_line (setAutoConnect None (disconnect s0))) as [Hq' Hw']
    end.
    rewrite Hq', Hw'. split; [exact Hq|]. now rewrite <- Hw0, <- Hw.
Qed.

(** *** C3 *)

(** C3, as the code has it.  While the connection is not open, through any
    events that neither open a socket nor call [disconnect], every message
    passed to [sendMessage] that can be serialised is appended to the queue
    and nothing is transmitted; when the current socket then opens, the
    whole queue is transmitted on it, each message once, in the order of
    enqueueing (followed by the authentication frame if one is due), and
    the queue is empty; messages sent after that open are transmitted after
    them.  An event that calls [disconnect] before the open empties the
    queue and transmits nothing of it. *)
Theorem queued_messages_flushed_in_order
    (s : State) (before after : list Event) (k : nat) (token : option string) :
  currentOpen s = None ->
  Forall (fun e => waits e = true) before ->
  Forall (fun e => isSend e = true) after ->
  readyStateOf (run before s) k = Some CONNECTING ->
  socketRef (refs (run before s)) = Some k ->
  let s1 := run before s in
  let s2 := step (SocketOpens k token) s1 in
  let s3 := run after s2 in
  messageQueueRef (refs s1) = messageQueueRef (refs s) ++ payloads before /\
  wire (host s1) = wire (host s) /\
  wire (host s2)
  = wire (host s) ++ map (pair k) (messageQueueRef (refs s) ++ payloads before)
      ++ authFrames k token s1 /\
  messageQueueRef (refs s2) = [] /\
  wire (host s3) = wire (host s2) ++ map (pair k) (payloads after) /\
  messageQueueRef (refs s3) = [] /\
  (forall e, disconnects e s1 = true ->
     messageQueueRef (refs (step e s1)) = [] /\ wire (host (step e s1)) = wire (host s)).
Proof.
  intros Hc Hbefore Hafter Hk Href s1 s2 s3.
  destruct (run_waits before s Hbefore Hc) as (Hq1 & Hw1 & _).
  destruct (open_flushes k token s1 Hk) as (Hw2 & Hq2 & Ho2 & Hr2).
  assert (currentOpen s2 = Some k) as Hc2.
  { unfold currentOpen. fold s2 in Hr2, Ho2. rewrite Hr2. fold s1 in Href. rewrite Href.
    rewrite bool_decide_eq_true_2; auto. }
  destruct (sends_while_open after k s2 Hafter Hc2) as (Hw3 & Hq3).
  fold s1 in Hq1, Hw1. fold s2 in Hw2, Hq2. fold s3 in Hw3, Hq3.
  rewrite Hw2, Hq1, Hw1 in *.
  split; [reflexivity|]. split; [reflexivity|]. split; [reflexivity|].
  split; [exact Hq2|]. split; [exact Hw3|]. split; [congruence|].
  intros e He. destruct (step_disconnects e s1 He) as [Hq Hw]. rewrite Hq, Hw. auto.
Qed.

(** *** Inbound dispatch *)

(** The value [onmessage] dispatches for a payload (lines 598-603). *)
Definition parsed (data : string) : JsVal :=
  match JSON_parse data with
  | Some v => v
  | None => JObj [("type", JStr "raw"); ("data", JStr data)]
  end.

(** The handlers of a list that a dispatch gets to when the list stays as
    it is: each one in order, up to and including the first that throws. *)
Fixpoint reached (arg : JsVal) (hs : list fn) : list fn :=
  match hs with
  | [] => []
  | h :: rest => h :: match behaviour h arg with
                      | None => reached arg rest
                      | Some _ => []
                      end
  end.

(** The handlers [forEach] calls from index [k] with [n] indices to go,
    over the array as the handlers called leave it. *)
Fixpoint visited (eventType : string) (arg : JsVal) (k n : nat)
    (listeners : option (list fn)) : list fn :=
  match n with
  | 0 => []
  | S n =>
      match default [] listeners !! k with
      | Some handler =>
          handler ::
          match behaviour handler arg with
          | None =>
              visited eventType arg (S k) n
                (fold_left (fun l c => arrayAfter eventType c l)
                   (registryCalls handler arg) listeners)
          | Some _ => []
          end
      | None => visited eventType arg (S k) n listeners
      end
  end.

(** The handlers called by the dispatch of an event of type [eventType]
    that finds [hs] registered. *)
Definition dispatched (eventType : string) (arg : JsVal) (hs : list fn) : list fn :=
  visited eventType arg 0 (length hs) (Some hs).

Definition dispatchedFor (ty : JsVal) (arg : JsVal) (s : State) : list fn :=
  match ty with
  | JStr t => dispatched t arg (default [] (eventListenersRef (refs s) !! t))
  | _ => []
  end.

(** The handler, called with [arg], neither registers nor unregisters a
    listener of [eventType]. *)
Definition leavesAlone (eventType : string) (h : fn) (arg : JsVal) : bool :=
  forallb (fun c => match c with
                    | Register t _ | Unregister t _ => negb (bool_decide (t = eventType))
                    end) (registryCalls h arg).

(** The call of [config.onMessage], when it is set. *)
Definition onMessageCall (data : string) : list (fn * JsVal) :=
  match onMessage config with
  | Some f => [(f, messageEvent data)]
  | None => []
  end.

(** The heartbeat reply of line 607. *)
Definition pong (now : string) : string :=
  JSON_stringify (JObj [("type", JStr "pong"); ("time", JStr now)]).

Lemma registryCalls_calls cs s :
  calls (host (fold_left (fun s c => registryCall c s) cs s)) = calls (host s).
Proof.
  revert s. induction cs as [|c cs IH]; intros s; cbn [fold_left]; [reflexivity|].
  rewrite IH. destruct c; cbn [registryCall]; [reflexivity|].
  unfold removeEventListener. repeat case_match; reflexivity.
Qed.

Lemma forEachLive_calls ty arg k n l s :
  calls (host (stateOf (forEachLive ty arg k n l s)))
  = calls (host s) ++ map (fun h => (h, arg)) (visited ty arg k n l).
Proof.
  revert k l s. induction n as [|n IH]; intros k l s;
    cbn [WebSocketHook.forEachLive visited].
  - cbn. now rewrite app_nil_r.
  - destruct (default [] l !! k) as [h|]; [|apply IH].
    unfold WebSocketHook.callListener.
    destruct (behaviour h arg); cbn [andThen stateOf map].
    + now rewrite registryCalls_calls.
    + rewrite IH, registryCalls_calls. cbn. now rewrite <- app_assoc.
Qed.

Lemma dispatch_calls ty arg s :
  calls (host (stateOf (dispatch ty arg s)))
  = calls (host s) ++ map (fun h => (h, arg)) (dispatchedFor ty arg s).
Proof.
  unfold WebSocketHook.dispatch, dispatchedFor.
  destruct ty; try (cbn; now rewrite app_nil_r).
  destruct (eventListenersRef (refs s) !! _) as [[|h hs]|]; cbn [default];
    try (cbn; now rewrite app_nil_r).
  apply forEachLive_calls.
Qed.

Lemma arrayAfter_alone ty h arg l :
  leavesAlone ty h arg = true ->
  fold_left (fun l c => arrayAfter ty c l) (registryCalls h arg) (Some l) = Some l.
Proof.
  unfold leavesAlone. induction (registryCalls h arg) as [|c cs IH]; cbn [forallb fold_left];
    [reflexivity|].
  intros [Hc Hcs]%andb_true_iff.
  assert (arrayAfter ty c (Some l) = Some l) as ->; [|auto].
  destruct c as [t f|t f]; cbn [arrayAfter];
    apply negb_true_iff, bool_decide_eq_false in Hc;
    now rewrite bool_decide_eq_false_2.
Qed.

Lemma visited_past ty arg k n l :
  length l <= k -> visited ty arg k n (Some l) = [].
Proof.
  revert k. induction n as [|n IH]; intros k Hk; cbn [visited from_option id]; [reflexivity|].
  rewrite (lookup_ge_None_2 l k Hk). apply IH. lia.
Qed.

(** Over handlers that leave the array alone, [forEach] is the plain walk. *)
Lemma visited_alone ty arg k n l :
  (forall h, h ∈ drop k l -> leavesAlone ty h arg = true) ->
  visited ty arg k n (Some l) = reached arg (take n (drop k l)).
Proof.
  revert k. induction n as [|n IH]; intros k Hall; cbn [visited from_option id]; [reflexivity|].
  destruct (l !! k) as [h|] eqn:Eh.
  - rewrite (drop_S l h k Eh) in *. cbn [take reached].
    rewrite arrayAfter_alone by (apply Hall, list_elem_of_here).
    rewrite IH; [reflexivity|]. intros h' Hin. apply Hall. now apply list_elem_of_further.
  - apply lookup_ge_None_1 in Eh. rewrite drop_ge by exact Eh. rewrite take_nil.
    cbn. apply visited_past. lia.
Qed.

Lemma dispatched_alone ty arg hs :
  (forall h, h ∈ hs -> leavesAlone ty h arg = true) ->
  dispatched ty arg hs = reached arg hs.
Proof.
  intros Hall. unfold dispatched. rewrite visited_alone by (now rewrite drop_0).
  now rewrite drop_0, firstn_all.
Qed.

(** A handler that unregisters itself makes [forEach] pass over its
    successor. *)
Lemma dispatched_skips ty arg h1 h2 rest :
  behaviour h1 arg = None ->
  registryCalls h1 arg = [Unregister ty h1] ->
  (forall h, h ∈ rest -> leavesAlone ty h arg = true) ->
  dispatched ty arg (h1 :: h2 :: rest) = h1 :: reached arg rest.
Proof.
  intros Hb Hc Hall. unfold dispatched. cbn [length].
  change (visited ty arg 0 (S (S (length rest))) (Some (h1 :: h2 :: rest)))
    with (h1 :: match behaviour h1 arg with
                | None =>
                    visited ty arg 1 (S (length rest))
                      (fold_left (fun l c => arrayAfter ty c l)
                         (registryCalls h1 arg) (Some (h1 :: h2 :: rest)))
                | Some _ => []
                end).
  rewrite Hb, Hc. cbn [fold_left arrayAfter spliceFirst].
  rewrite !bool_decide_eq_true_2 by reflexivity.
  rewrite visited_alone by exact Hall.
  change (drop 1 (h2 :: rest)) with rest. f_equal.
  rewrite take_ge; [reflexivity | lia].
Qed.

Lemma reached_all arg hs :
  (forall h, h ∈ hs -> behaviour h arg = None) -> reached arg hs = hs.
Proof.
  induction hs as [|h hs IH]; intros Hall; cbn; [reflexivity|].
  rewrite (Hall h) by apply list_elem_of_here.
  rewrite IH; [reflexivity|]. intros h' Hin. apply Hall. now apply list_elem_of_further.
Qed.

Lemma reached_until_throw arg hs i h e :
  hs !! i = Some h -> behaviour h arg = Some e ->
  (forall j h', j < i -> hs !! j = Some h' -> behaviour h' arg = None) ->
  reached arg hs = take (S i) hs.
Proof.
  revert i. induction hs as [|h0 hs IH]; intros i Hi He Hbefore; [discriminate|].
  destruct i as [|i]; cbn in *.
  - inversion Hi; subst. rewrite He. now rewrite take_0.
  - rewrite (Hbefore 0 h0) by (cbn; auto; lia).
    f_equal. apply IH; auto.
    intros j h' Hj Hl. apply (Hbefore (S j) h'); [lia | exact Hl].
Qed.

(** What one inbound message makes the hook send and call, when its
    payload has a type and the [onMessage] callback returns. *)
Lemma onmessage_dispatch data now ty s :
  getProp (parsed data) "type" = Some ty ->
  (forall f, onMessage config = Some f -> behaviour f (messageEvent data) = None) ->
  wire (host (stateOf (onmessage data now s)))
  = wire (host s) ++
      (if isString "ping" ty
       then match currentOpen s with Some k => [(k, pong now)] | None => [] end
       else []) /\
  calls (host (stateOf (onmessage data now s)))
  = calls (host s) ++ onMessageCall data ++
      map (fun h => (h, parsed data)) (dispatchedFor ty (parsed data) s).
Proof.
  intros Hty Hcb. unfold WebSocketHook.onmessage. fold (parsed data). rewrite Hty.
  match goal with |- context [WebSocketHook.callIfSet _ ?f ?arg ?s0] =>
    assert (exists s1, callIfSet f arg s0 = Returned s1 /\
              calls (host s1) = calls (host s) ++ onMessageCall data /\
              wire (host s1) = wire (host s) /\ refs s1 = refs s /\
              sockets (host s1) = sockets (host s))
      as (s1 & -> & Hc1 & Hw1 & Hr1 & Hs1)
  end.
  { unfold onMessageCall. destruct (onMessage config) as [f|] eqn:Ef;
      cbn [WebSocketHook.callIfSet].
    - unfold WebSocketHook.call. rewrite (Hcb f eq_refl). eexists. split; [reflexivity|].
      destruct (enableMessageHistory config); cbn; auto.
    - eexists. split; [reflexivity|]. rewrite app_nil_r.
      destruct (enableMessageHistory config); cbn; auto. }
  cbn [andThen].
  assert (currentOpen s1 = currentOpen s) as Ho
    by (apply currentOpen_same; [now rewrite Hr1 | exact Hs1]).
  match goal with |- context [andThen ?r _] =>
    assert (exists s2, r = Returned s2 /\
              wire (host s2) = wire (host s1) ++
                (if isString "ping" ty
                 then match currentOpen s with Some k => [(k, pong now)] | None => [] end
                 else []) /\
              calls (host s2) = calls (host s1) /\ refs s2 = refs s1)
      as (s2 & -> & Hw2 & Hc2 & Hr2)
  end.
  { destruct (isString "ping" ty).
    - unfold WebSocketHook.send. rewrite Ho. destruct (currentOpen s) as [k|] eqn:Ek.
      + cbn [WebSocketHook.messageData]. unfold wsSend.
        assert (readyStateOf s1 k = Some OPEN) as ->.
        { unfold currentOpen in Ek. destruct (socketRef (refs s)); [|discriminate].
          case_bool_decide; [|discriminate]. inversion Ek; subst.
          unfold readyStateOf in *. now rewrite Hs1. }
        eexists. split; [reflexivity|]. cbn. auto.
      + exists s1. rewrite app_nil_r. auto.
    - exists s1. rewrite app_nil_r. auto. }
  cbn [andThen].
  rewrite dispatch_calls.
  destruct (dispatch_registryOnly ty (parsed data) s2) as (_&_&_&_&_&_&_&Hw3&_).
  assert (dispatchedFor ty (parsed data) s2 = dispatchedFor ty (parsed data) s) as ->
    by (unfold dispatchedFor; now rewrite Hr2, Hr1).
  rewrite Hw3, Hw2, Hw1, Hc2, Hc1, <- app_assoc. auto.
Qed.

(** When the [onMessage] callback throws, [onmessage] ends there: no
    heartbeat reply is sent and no handler is called. *)
Lemma onMessage_callback_throws data now f e s :
  onMessage config = Some f ->
  behaviour f (messageEvent data) = Some e ->
  returned (onmessage data now s) = false /\
  calls (host (stateOf (onmessage data now s))) = calls (host s) ++ [(f, messageEvent data)] /\
  wire (host (stateOf (onmessage data now s))) = wire (host s).
Proof.
  intros Hf He. unfold WebSocketHook.onmessage. rewrite Hf.
  cbn [WebSocketHook.callIfSet]. unfold WebSocketHook.call. rewrite He.
  cbn [andThen stateOf returned]. destruct (enableMessageHistory config); cbn; auto.
Qed.

(** *** C4 *)

(** C4, as the code has it.  For an inbound message whose parsed type is
    ['ping'], with the hook's current socket open and the [onMessage]
    callback returning, the pong reply is sent on the current socket; the
    event is then dispatched to the handlers registered under ['ping'] as
    for any other type: when no handler registers or unregisters a ['ping']
    listener during the dispatch, each in order up to the first that
    throws. *)
Theorem ping_is_answered_and_dispatched
    (data now : string) (s : State) (k : nat) (hs : list fn) :
  getProp (parsed data) "type" = Some (JStr "ping") ->
  (forall f, onMessage config = Some f -> behaviour f (messageEvent data) = None) ->
  currentOpen s = Some k ->
  eventListenersRef (refs s) !! "ping" = Some hs ->
  wire (host (stateOf (onmessage data now s))) = wire (host s) ++ [(k, pong now)] /\
  calls (host (stateOf (onmessage data now s)))
  = calls (host s) ++ onMessageCall data ++
      map (fun h => (h, parsed data)) (dispatched "ping" (parsed data) hs) /\
  ((forall h, h ∈ hs -> leavesAlone "ping" h (parsed data) = true) ->
   dispatched "ping" (parsed data) hs = reached (parsed data) hs).
Proof.
  intros Hty Hcb Ho Hl.
  destruct (onmessage_dispatch data now _ s Hty Hcb) as [Hw Hc].
  rewrite Hw, Hc, Ho. cbn [isString dispatchedFor]. rewrite Hl.
  rewrite bool_decide_eq_true_2 by reflexivity.
  split; [reflexivity|]. split; [reflexivity|]. apply dispatched_alone.
Qed.

(** *** C5 *)

(** C5, as the code has it.  For an inbound event of a type other than
    ['ping'] with handlers registered under its type, when the [onMessage]
    callback returns, the handlers are called by a [forEach] over the
    registry's own array.  When no handler registers or unregisters a
    listener of that type during the dispatch, they are called in
    registration order up to and including the first that throws: all of
    them when none throws, and when the [i]-th throws, the handlers after it
    are not called.  When the first handler returns after unregistering
    itself, the handler registered second is passed over, and the dispatch
    goes on from the third. *)
Theorem handlers_called_in_order_until_throw
    (data now t : string) (s : State) (hs : list fn) :
  getProp (parsed data) "type" = Some (JStr t) ->
  t <> "ping" ->
  (forall f, onMessage config = Some f -> behaviour f (messageEvent data) = None) ->
  eventListenersRef (refs s) !! t = Some hs ->
  calls (host (stateOf (onmessage data now s)))
  = calls (host s) ++ onMessageCall data ++
      map (fun h => (h, parsed data)) (dispatched t (parsed data) hs) /\
  wire (host (stateOf (onmessage data now s))) = wire (host s) /\
  ((forall h, h ∈ hs -> leavesAlone t h (parsed data) = true) ->
   dispatched t (parsed data) hs = reached (parsed data) hs /\
   ((forall h, h ∈ hs -> behaviour h (parsed data) = None) ->
    dispatched t (parsed data) hs = hs) /\
   (forall i h e,
      hs !! i = Some h -> behaviour h (parsed data) = Some e ->
      (forall j h', j < i -> hs !! j = Some h' -> behaviour h' (parsed data) = None) ->
      dispatched t (parsed data) hs = take (S i) hs)) /\
  (forall h1 h2 rest,
     hs = h1 :: h2 :: rest ->
     behaviour h1 (parsed data) = None ->
     registryCalls h1 (parsed data) = [Unregister t h1] ->
     (forall h, h ∈ rest -> leavesAlone t h (parsed data) = true) ->
     dispatched t (parsed data) hs = h1 :: reached (parsed data) rest).
Proof.
  intros Hty Hne Hcb Hl.
  destruct (onmessage_dispatch data now _ s Hty Hcb) as [Hw Hc].
  rewrite Hw, Hc. cbn [isString dispatchedFor]. rewrite Hl.
  rewrite bool_decide_eq_false_2 by exact Hne. rewrite app_nil_r.
  split; [reflexivity|]. split; [reflexivity|]. split.
  - intros Halone. rewrite (dispatched_alone t (parsed data) hs Halone).
    split; [reflexivity|]. split; [apply reached_all|].
    intros i h e. apply reached_until_throw.
  - intros h1 h2 rest -> Hb Hc1 Hrest. now apply dispatched_skips.
Qed.

End Hook.
(** *** A concrete connection *)

(** A channel with at most three reconnect attempts, 100 ms apart, an
    [onMessage] callback (function 9), no authentication. *)
Definition channel : Config :=
  {| url := "ws://host/ws"; reconnectInterval := 100; maxReconnectAttempts := 3;
     enableReconnect := true; enableMessageHistory := true; enableAuth := false;
     protocols := []; authMethod := "url";
     onOpen := None; onMessage := Some 9; onError := None; onClose := None |}.

(** The same channel behind authentication. *)
Definition guarded : Config :=
  {| url := "ws://host/ws"; reconnectInterval := 100; maxReconnectAttempts := 3;
     enableReconnect := true; enableMessageHistory := true; enableAuth := true;
     protocols := []; authMethod := "url";
     onOpen := None; onMessage := Some 9; onError := None; onClose := None |}.

(** A parser that knows two payloads, and a printer that gives the type. *)
Definition parse (data : string) : option JsVal :=
  if bool_decide (data = "ping") then Some (JObj [("type", JStr "ping")])
  else if bool_decide (data = "chat") then Some (JObj [("type", JStr "chat")])
  else None.

Definition print (v : JsVal) : string :=
  match getProp v "type" with
  | Some (JStr t) => t
  | _ => ""
  end.

(** Handler 1 throws; every other function returns. *)
Definition handlers (f : fn) (arg : JsVal) : option string :=
  if bool_decide (f = 1) then Some "boom" else None.

(** Handler 5 is a one-shot listener of ['chat']: when called it calls the
    closure that [addEventListener] returned to it.  No other function
    calls the registry. *)
Definition oneShot (f : fn) (arg : JsVal) : list RegistryCall :=
  if bool_decide (f = 5) then [Unregister "chat" 5] else [].

Definition nothing : Ambient := {| tokenNow := None; webSocketThrows := None |}.

Abbreviation go := (run channel parse print id handlers oneShot).
Abbreviation receive := (onmessage channel parse print handlers oneShot).

(** The hook after [connect()] and the open event of its socket. *)
Definition opened : State := go [Connect true nothing; SocketOpens 0 None] initialState.

(** The hook after its first render with an authenticated user: the
    auto-connect effect has armed its timer (timer 0). *)
Definition mounted : State := go [EffectRuns true] initialState.

(** Two messages sent before the connection is open, with a listener
    registered and the timer of the effect firing in between, and one sent
    later.  The first [sendMessage] starts the connection (socket 0). *)
Definition twoQueued : list Event :=
  [SendMessage true nothing (Text "a");
   AddEventListener "chat" 2;
   TimerFires 0 nothing;
   SendMessage true nothing (Object (JObj [("type", JStr "b")]))].

Definition oneMore : list Event := [SendMessage true nothing (Text "c")].

Lemma queued_messages_flushed_in_order_witness :
  messageQueueRef (refs (go twoQueued mounted))
  = messageQueueRef (refs mounted) ++ payloads print twoQueued /\
  wire (host (go twoQueued mounted)) = wire (host mounted) /\
  wire (host (go [SocketOpens 0 None] (go twoQueued mounted)))
  = wire (host mounted)
      ++ map (pair 0) (messageQueueRef (refs mounted) ++ payloads print twoQueued)
      ++ authFrames channel print 0 None (go twoQueued mounted) /\
  messageQueueRef (refs (go [SocketOpens 0 None] (go twoQueued mounted))) = [] /\
  wire (host (go oneMore (go [SocketOpens 0 None] (go twoQueued mounted))))
  = wire (host (go [SocketOpens 0 None] (go twoQueued mounted)))
      ++ map (pair 0) (payloads print oneMore) /\
  messageQueueRef (refs (go oneMore (go [SocketOpens 0 None] (go twoQueued mounted))))
  = [] /\
  (forall e, disconnects e (go twoQueued mounted) = true ->
     messageQueueRef
       (refs (step channel parse print id handlers oneShot e (go twoQueued mounted)))
     = [] /\
     wire (host (step channel parse print id handlers oneShot e (go twoQueued mounted)))
     = wire (host mounted)).
Proof.
  assert (currentOpen mounted = None) as H1 by (vm_compute; reflexivity).
  assert (Forall (fun e => waits e = true) twoQueued) as H2
    by (repeat constructor).
  assert (Forall (fun e => isSend e = true) oneMore) as H3
    by (repeat constructor).
  assert (readyStateOf (go twoQueued mounted) 0 = Some CONNECTING) as H4
    by (vm_compute; reflexivity).
  assert (socketRef (refs (go twoQueued mounted)) = Some 0) as H5
    by (vm_compute; reflexivity).
  exact (queued_messages_flushed_in_order channel parse print id handlers oneShot
           mounted twoQueued oneMore 0 None H1 H2 H3 H4 H5).
Defined.

Example flushed_frames :
  wire (host (go (twoQueued ++ [SocketOpens 0 None] ++ oneMore) mounted))
  = [(0, "a"); (0, "b"); (0, "c")].
Proof. vm_compute. reflexivity. Qed.

(** A message sent before the user is authenticated, on the guarded
    channel: the auto-connect effect has run without authentication; the
    message is queued and [connect] returns at its authentication guard;
    the user signs in, the effect runs again, its cleanup first; the timer
    of the effect connects and the socket opens. *)
Definition sentBeforeSignIn : list Event :=
  [EffectRuns false; SendMessage false nothing (Text "hello")].

Definition thenSignedIn : list Event :=
  [EffectRuns true; TimerFires 0 nothing; SocketOpens 0 None].

(** C3, as stated, fails: the message is appended to the queue while the
    connection is not open, the cleanup of the auto-connect effect empties
    the queue by [disconnect], and the open that follows transmits
    nothing. *)
Lemma message_before_authentication_is_dropped :
  currentOpen (run guarded parse print id handlers oneShot sentBeforeSignIn initialState)
  = None /\
  messageQueueRef
    (refs (run guarded parse print id handlers oneShot sentBeforeSignIn initialState))
  = ["hello"] /\
  currentOpen
    (run guarded parse print id handlers oneShot (sentBeforeSignIn ++ thenSignedIn)
       initialState) = Some 0 /\
  wire (host (run guarded parse print id handlers oneShot (sentBeforeSignIn ++ thenSignedIn)
                initialState)) = [] /\
  messageQueueRef
    (refs (run guarded parse print id handlers oneShot (sentBeforeSignIn ++ thenSignedIn)
             initialState)) = [].
Proof. vm_compute. repeat split; reflexivity. Qed.

(** A message that cannot be serialised is not queued: [sendMessage]
    throws at line 692. *)
Example unserializable_message_is_not_queued :
  sendMessage channel print id (latest true initialState) nothing Unserializable initialState
  = Threw "TypeError" initialState.
Proof. reflexivity. Qed.

(** The hook after three unclean closes in a row, each followed by the
    reconnect its timer starts. *)
Definition threeCloses : list Event :=
  [Connect true nothing;
   SocketCloses 0 false; TimerFires 0 nothing;
   SocketCloses 1 false; TimerFires 1 nothing;
   SocketCloses 2 false; TimerFires 2 nothing].

Definition exhausted : State := go threeCloses initialState.

Lemma run_reachable es s :
  reachable channel parse print id handlers oneShot s ->
  reachable channel parse print id handlers oneShot (go es s).
Proof. apply run_reachable_from. Qed.

Lemma reconnect_attempts_bounded_witness :
  (Z.of_nat (attempts exhausted) <= Z.max 0 (maxReconnectAttempts channel))%Z /\
  (forall k token, readyStateOf exhausted k = Some CONNECTING ->
     attempts (go [SocketOpens k token] exhausted) = 0) /\
  (forall k, noNewTimer exhausted (go [SocketCloses k true] exhausted)) /\
  (forall k wasClean,
     (maxReconnectAttempts channel <= Z.of_nat (attempts exhausted))%Z ->
     noNewTimer exhausted (go [SocketCloses k wasClean] exhausted) /\
     attempts (go [SocketCloses k wasClean] exhausted) = attempts exhausted /\
     (is_Some (readyStateOf exhausted k) -> readyStateOf exhausted k <> Some CLOSED ->
      (forall f, onClose channel = Some f -> handlers f (closeEvent wasClean) = None) ->
      error (ui (go [SocketCloses k wasClean] exhausted))
      = Some (ReconnectFailed (maxReconnectAttempts channel)))) /\
  (forall k wasClean,
     (attempts (go [SocketCloses k wasClean] exhausted) = attempts exhausted /\
      noNewTimer exhausted (go [SocketCloses k wasClean] exhausted)) \/
     (attempts (go [SocketCloses k wasClean] exhausted) = S (attempts exhausted) /\
      wasClean = false /\ enableReconnect channel = true /\
      (Z.of_nat (attempts exhausted) < maxReconnectAttempts channel)%Z /\
      nextTimer (host (go [SocketCloses k wasClean] exhausted))
      = S (nextTimer (host exhausted)) /\
      reconnectTimeoutRef (refs (go [SocketCloses k wasClean] exhausted))
      = Some (nextTimer (host exhausted)) /\
      exists r, timers (host (go [SocketCloses k wasClean] exhausted))
                  !! nextTimer (host exhausted)
                = Some (reconnectInterval channel, r))) /\
  (forall k w,
     sockets (host exhausted) !! k = Some w -> readyState w <> CLOSED ->
     enableReconnect channel = true ->
     (Z.of_nat (attempts exhausted) < maxReconnectAttempts channel)%Z ->
     (forall f, onClose channel = Some f -> handlers f (closeEvent false) = None) ->
     attempts (go [SocketCloses k false] exhausted) = S (attempts exhausted) /\
     reconnectTimeoutRef (refs (go [SocketCloses k false] exhausted))
     = Some (nextTimer (host exhausted)) /\
     timers (host (go [SocketCloses k false] exhausted)) !! nextTimer (host exhausted)
     = Some (reconnectInterval channel, wsRender w)) /\
  (forall es, Forall (fun e => waits e = true) es ->
     attempts (go es exhausted)
     = attempts exhausted + scheduled channel parse print id handlers oneShot es exhausted /\
     (Z.of_nat (attempts exhausted
                + scheduled channel parse print id handlers oneShot es exhausted)
      <= Z.max 0 (maxReconnectAttempts channel))%Z).
Proof.
  exact (reconnect_attempts_bounded channel parse print id handlers oneShot exhausted
           (run_reachable threeCloses initialState
              (reachable_initial channel parse print id handlers oneShot))).
Defined.

(** The scenario of the specification: three unclean closes give three
    reconnects, each counted; the fourth close schedules nothing and
    reports exhaustion. *)
Example three_attempts_then_exhaustion :
  attempts exhausted = 3 /\
  scheduled channel parse print id handlers oneShot threeCloses initialState = 3 /\
  nextTimer (host exhausted) = 3 /\
  nextTimer (host (go [SocketCloses 3 false] exhausted)) = 3 /\
  error (ui (go [SocketCloses 3 false] exhausted)) = Some (ReconnectFailed 3).
Proof. vm_compute. repeat split; reflexivity. Qed.

(** The open hook with handler 7 registered under ['ping']. *)
Definition listeningForPing : State := go [AddEventListener "ping" 7] opened.

Lemma ping_is_answered_and_dispatched_witness :
  wire (host (stateOf (receive "ping" "now" listeningForPing)))
  = wire (host listeningForPing) ++ [(0, pong print "now")] /\
  calls (host (stateOf (receive "ping" "now" listeningForPing)))
  = calls (host listeningForPing) ++ onMessageCall channel "ping" ++
      map (fun h => (h, parsed parse "ping"))
        (dispatched handlers oneShot "ping" (parsed parse "ping") [7]) /\
  ((forall h, h ∈ [7] -> leavesAlone oneShot "ping" h (parsed parse "ping") = true) ->
   dispatched handlers oneShot "ping" (parsed parse "ping") [7]
   = reached handlers (parsed parse "ping") [7]).
Proof.
  refine (ping_is_answered_and_dispatched channel parse print handlers oneShot
            "ping" "now" listeningForPing 0 [7] _ _ _ _).
  - vm_compute. reflexivity.
  - intros f Hf. injection Hf as <-. vm_compute. reflexivity.
  - vm_compute. reflexivity.
  - vm_compute. reflexivity.
Defined.

(** C4, as stated, fails: a heartbeat is answered and then handed to the
    handler registered under ['ping'] (function 7 is called with it, after
    the [onMessage] callback 9). *)
Lemma ping_reaches_registered_handler :
  eventListenersRef (refs listeningForPing) !! "ping" = Some [7] /\
  wire (host (go [SocketMessage 0 "ping" "now"] listeningForPing)) = [(0, "pong")] /\
  calls (host (go [SocketMessage 0 "ping" "now"] listeningForPing))
  = [(9, messageEvent "ping"); (7, JObj [("type", JStr "ping")])].
Proof. vm_compute. repeat split; reflexivity. Qed.

(** The open hook with handlers 1 (which throws) and 2 under ['chat']. *)
Definition listeningForChat : State :=
  go [AddEventListener "chat" 1; AddEventListener "chat" 2] opened.

Lemma handlers_called_in_order_until_throw_witness :
  calls (host (stateOf (receive "chat" "now" listeningForChat)))
  = calls (host listeningForChat) ++ onMessageCall channel "chat" ++
      map (fun h => (h, parsed parse "chat"))
        (dispatched handlers oneShot "chat" (parsed parse "chat") [1; 2]) /\
  wire (host (stateOf (receive "chat" "now" listeningForChat)))
  = wire (host listeningForChat) /\
  ((forall h, h ∈ [1; 2] -> leavesAlone oneShot "chat" h (parsed parse "chat") = true) ->
   dispatched handlers oneShot "chat" (parsed parse "chat") [1; 2]
   = reached handlers (parsed parse "chat") [1; 2] /\
   ((forall h, h ∈ [1; 2] -> handlers h (parsed parse "chat") = None) ->
    dispatched handlers oneShot "chat" (parsed parse "chat") [1; 2] = [1; 2]) /\
   (forall i h e,
      [1; 2] !! i = Some h -> handlers h (parsed parse "chat") = Some e ->
      (forall j h', j < i -> [1; 2] !! j = Some h' ->
                    handlers h' (parsed parse "chat") = None) ->
      dispatched handlers oneShot "chat" (parsed parse "chat") [1; 2]
      = take (S i) [1; 2])) /\
  (forall h1 h2 rest,
     [1; 2] = h1 :: h2 :: rest ->
     handlers h1 (parsed parse "chat") = None ->
     oneShot h1 (parsed parse "chat") = [Unregister "chat" h1] ->
     (forall h, h ∈ rest -> leavesAlone oneShot "chat" h (parsed parse "chat") = true) ->
     dispatched handlers oneShot "chat" (parsed parse "chat") [1; 2]
     = h1 :: reached handlers (parsed parse "chat") rest).
Proof.
  refine (handlers_called_in_order_until_throw channel parse print handlers oneShot
            "chat" "now" "chat" listeningForChat [1; 2] _ _ _ _).
  - vm_compute. reflexivity.
  - discriminate.
  - intros f Hf. injection Hf as <-. vm_compute. reflexivity.
  - vm_compute. reflexivity.
Defined.

(** C5, as stated, fails: handler 1 throws and handler 2, registered after
    it under the same type, is not called. *)
Lemma throwing_handler_stops_dispatch :
  eventListenersRef (refs listeningForChat) !! "chat" = Some [1; 2] /\
  handlers 1 (JObj [("type", JStr "chat")]) = Some "boom" /\
  calls (host (go [SocketMessage 0 "chat" "now"] listeningForChat))
  = [(9, messageEvent "chat"); (1, JObj [("type", JStr "chat")])].
Proof. vm_compute. repeat split; reflexivity. Qed.

(** No handler throws, and still one is not called: the one-shot handler 5
    unregisters itself when called, the array loses its first element while
    [forEach] is at index 0, and handler 2 is passed over. *)
Example one_shot_handler_hides_the_next :
  eventListenersRef
    (refs (go [AddEventListener "chat" 5; AddEventListener "chat" 2;
               AddEventListener "chat" 3] opened)) !! "chat" = Some [5; 2; 3] /\
  calls (host (go [AddEventListener "chat" 5; AddEventListener "chat" 2;
                   AddEventListener "chat" 3; SocketMessage 0 "chat" "now"] opened))
  = [(9, messageEvent "chat"); (5, JObj [("type", JStr "chat")]);
     (3, JObj [("type", JStr "chat")])] /\
  eventListenersRef
    (refs (go [AddEventListener "chat" 5; AddEventListener "chat" 2;
               AddEventListener "chat" 3; SocketMessage 0 "chat" "now"] opened)) !! "chat"
  = Some [2; 3].
Proof. vm_compute. repeat split; reflexivity. Qed.


End WebSocketProofs.

(** ** The gateway interceptor *)
Module ApiProofs.
Import ErrorService ApiService.

Section Interceptor.

Variable getErrorMessage : string -> string.

Abbreviation onRejected := (onRejected getErrorMessage).
Abbreviation afterRefresh := (afterRefresh getErrorMessage).
Abbreviation afterRetry := (afterRetry getErrorMessage).
Abbreviation handleApiError := (handleApiError getErrorMessage).

(** [error.response?.data?.message || ''] *)
Definition bodyMessage (error : AxiosError) : string :=
  default "" (truthy (response error ≫= dataMessage)).

(** A rejected credential: status 401 on a request that is neither
    credential-exempt nor a retry, with a body that does not report an
    incorrect password. *)
Definition expired (error : AxiosError) : Prop :=
  status <$> response error = Some 401%Z /\
  noToken (config error) = false /\
  _retry (config error) = false /\
  isPasswordError (bodyMessage error) = false.

(** The effects of a run that are calls of the refresh or of logout. *)
Definition isSessionCall (e : Effect) : bool :=
  match e with
  | CalledUpdateToken _ | CalledLogout => true
  | _ => false
  end.

(** *** C10 *)

(** C10, as the code has it.  A 401 response whose body reports an
    incorrect password never makes the interceptor call the refresh or
    logout: the run only hands the error to [handleApiError] and rejects.
    When moreover the request is not credential-exempt and no refresh is in
    flight, the error is tagged ['incorrect'], and [handleApiError] logs
    the incorrect-data line and takes the toast from the ['incorrect']
    message path. *)
Theorem password_error_is_tagged (error : AxiosError) (s : State) :
  status <$> response error = Some 401%Z ->
  isPasswordError (bodyMessage error) = true ->
  (exists e logged toast,
     onRejected error s = (emit (Handled e logged toast) s, Rejected e)) /\
  (noToken (config error) = false -> isRefreshingToken s = false ->
   let tagged := setCustomStatus (Some "incorrect") error in
   onRejected error s
   = (emit (Handled tagged (LogError "Incorrect data error")
              (displayToast tagged toast_error
                 (getCustomMessage getErrorMessage tagged (Tag "incorrect") "incorrect"))) s,
      Rejected tagged)).
Proof.
  intros H401 Hpw. unfold ApiService.onRejected. fold (bodyMessage error).
  rewrite H401, Hpw, bool_decide_eq_true_2 by reflexivity. cbn [andb].
  split.
  - destruct (negb (noToken (config error)) && negb (isRefreshingToken s)).
    + unfold surface. destruct (ErrorService.handleApiError _ _) as [l t]. eauto.
    + unfold surface. destruct (ErrorService.handleApiError _ _) as [l t]. eauto.
  - intros -> ->. cbn [negb andb]. unfold surface. reflexivity.
Qed.

(** *** C2 *)

(** C2, as the code has it.  When two requests are rejected with 401 in
    the same tick, the handler of the first calls the refresh once and
    waits for it; the handler of the second, which finds the refresh in
    flight, neither refreshes nor waits nor logs out: it hands its error to
    [handleApiError] and rejects.  When the refresh succeeds, only the first
    request is sent again, once, with the new credential. *)
Theorem one_refresh_for_concurrent_401
    (e1 e2 : AxiosError) (s : State) (newToken : string) :
  expired e1 -> expired e2 ->
  is_Some (updateTokenFunction s) -> is_Some (getTokenFunction s) ->
  isRefreshingToken s = false -> newToken <> "" ->
  let e1' := withConfig (setRetry true) e1 in
  let e1'' := withConfig (setAuthorization (Some ("Bearer " +:+ newToken))) e1' in
  let s1 := fst (onRejected e1 s) in
  let s2 := fst (onRejected e2 s1) in
  let s3 := fst (afterRefresh (Gives true) (Gives (Some newToken)) e1' s2) in
  snd (onRejected e1 s) = AwaitingRefresh e1' /\
  effects s1 = effects s ++ [CalledUpdateToken 30] /\
  snd (onRejected e2 s1) = Rejected e2 /\
  effects s2 = effects s1 ++ [Handled e2 (fst (handleApiError e2)) (snd (handleApiError e2))] /\
  snd (afterRefresh (Gives true) (Gives (Some newToken)) e1' s2) = AwaitingRetry e1'' /\
  effects s3 = effects s2 ++ [Resent (config e1'')] /\
  authorization (config e1'') = Some ("Bearer " +:+ newToken).
Proof.
  intros (H1 & Hn1 & Hr1 & Hp1) (H2 & Hn2 & Hr2 & Hp2) Hu Hg Hf Hne.
  assert (ApiService.onRejected getErrorMessage e1 s
          = (emit (CalledUpdateToken 30) (setIsRefreshingToken true s),
             AwaitingRefresh (withConfig (setRetry true) e1))) as E1.
  { unfold ApiService.onRejected. fold (bodyMessage e1).
    rewrite H1, Hn1, Hf, Hp1, Hr1, bool_decide_eq_true_2 by reflexivity.
    rewrite (bool_decide_eq_true_2 _ Hu). reflexivity. }
  rewrite E1. cbn [fst snd].
  assert (ApiService.onRejected getErrorMessage e2
            (emit (CalledUpdateToken 30) (setIsRefreshingToken true s))
          = surface getErrorMessage e2
              (emit (CalledUpdateToken 30) (setIsRefreshingToken true s))) as E2.
  { unfold ApiService.onRejected. cbn [isRefreshingToken emit setIsRefreshingToken negb].
    now rewrite andb_false_r. }
  rewrite E2. unfold surface.
  destruct (ErrorService.handleApiError getErrorMessage e2) as [l t] eqn:Eh.
  cbn [fst snd].
  unfold ApiService.afterRefresh.
  cbn [getTokenFunction emit setIsRefreshingToken].
  destruct Hg as [g ->]. unfold truthy. rewrite bool_decide_eq_false_2 by exact Hne.
  cbn. repeat split; reflexivity.
Qed.

End Interceptor.

(** *** Concrete requests *)

Definition defaults (key : string) : string := "default:" +:+ key.

Definition request (path : string) : RequestConfig :=
  {| method := Some "get"; requestUrl := Some path; authorization := Some "Bearer old";
     noToken := false; _retry := false; showErrorToast := Some true;
     messageMap := None; errorMessage := None; customMessage := None;
     errorMessageMap := None |}.

(** A 401 with the backend's message. *)
Definition rejection (path body : string) : AxiosError :=
  {| config := request path;
     response := Some {| status := 401; dataMessage := Some body |};
     customStatus := None; message := Some "Request failed with status code 401" |}.

(** The module after [setTokenGetter(getToken, logout, updateToken)]. *)
Definition wired : State :=
  {| getTokenFunction := Some 1; logoutFunction := Some 2; updateTokenFunction := Some 3;
     isRefreshingToken := false; effects := [] |}.

Definition refreshing : State := setIsRefreshingToken true wired.

Definition wrongPassword : AxiosError := rejection "/user/change-password" "Current password is incorrect".
Definition expiredA : AxiosError := rejection "/a" "Token expired".
Definition expiredB : AxiosError := rejection "/b" "Token expired".

Lemma password_error_is_tagged_witness :
  (exists e logged toast,
     onRejected defaults wrongPassword wired = (emit (Handled e logged toast) wired, Rejected e)) /\
  (noToken (config wrongPassword) = false -> isRefreshingToken wired = false ->
   let tagged := setCustomStatus (Some "incorrect") wrongPassword in
   onRejected defaults wrongPassword wired
   = (emit (Handled tagged (LogError "Incorrect data error")
              (displayToast tagged toast_error
                 (getCustomMessage defaults tagged (Tag "incorrect") "incorrect"))) wired,
      Rejected tagged)).
Proof.
  refine (password_error_is_tagged defaults wrongPassword wired _ _);
    vm_compute; reflexivity.
Defined.

(** C10, as stated, fails: while a refresh is in flight, a 401 that
    reports an incorrect password is not tagged; it is surfaced through the
    401 message path. *)
Lemma password_error_untagged_during_refresh :
  isPasswordError (bodyMessage wrongPassword) = true /\
  onRejected defaults wrongPassword refreshing
  = (emit (Handled wrongPassword (LogError "401 - Unauthorized")
             (Some (toast_error, "default:401"))) refreshing,
     Rejected wrongPassword) /\
  customStatus wrongPassword = None.
Proof. vm_compute. repeat split; reflexivity. Qed.

Lemma one_refresh_for_concurrent_401_witness :
  let e1' := withConfig (setRetry true) expiredA in
  let e1'' := withConfig (setAuthorization (Some ("Bearer " +:+ "new"))) e1' in
  let s1 := fst (onRejected defaults expiredA wired) in
  let s2 := fst (onRejected defaults expiredB s1) in
  let s3 := fst (afterRefresh defaults (Gives true) (Gives (Some "new")) e1' s2) in
  snd (onRejected defaults expiredA wired) = AwaitingRefresh e1' /\
  effects s1 = effects wired ++ [CalledUpdateToken 30] /\
  snd (onRejected defaults expiredB s1) = Rejected expiredB /\
  effects s2 = effects s1 ++ [Handled expiredB (fst (handleApiError defaults expiredB))
                                (snd (handleApiError defaults expiredB))] /\
  snd (afterRefresh defaults (Gives true) (Gives (Some "new")) e1' s2) = AwaitingRetry e1'' /\
  effects s3 = effects s2 ++ [Resent (config e1'')] /\
  authorization (config e1'') = Some ("Bearer " +:+ "new").
Proof.
  refine (one_refresh_for_concurrent_401 defaults expiredA expiredB wired "new"
            _ _ _ _ _ _).
  - vm_compute. repeat split; reflexivity.
  - vm_compute. repeat split; reflexivity.
  - eexists; reflexivity.
  - eexists; reflexivity.
  - reflexivity.
  - discriminate.
Defined.

(** The two requests of C2 from their rejection to the end of the refresh
    and of the resent request, which the backend then answers. *)
Definition bothRejected : State * Outcome * Outcome :=
  let '(s1, o1) := onRejected defaults expiredA wired in
  let '(s2, o2) := onRejected defaults expiredB s1 in
  let '(s3, _) := afterRefresh defaults (Gives true) (Gives (Some "new"))
                    (withConfig (setRetry true) expiredA) s2 in
  let '(s4, o4) := afterRetry defaults (inl (JStr "payload"))
                     (withConfig (setRetry true) expiredA) s3 in
  (s4, o4, o2).

(** C2, as stated, fails: of two requests rejected with 401 in the same
    tick only the first is sent again; the second is rejected with its 401
    while the refresh is still in flight. *)
Lemma second_401_is_not_retried :
  snd bothRejected = Rejected expiredB /\
  snd (fst bothRejected) = Resolved (JStr "payload") /\
  List.filter (fun e => match e with Resent _ => true | _ => false end)
    (effects (fst (fst bothRejected)))
  = [Resent (setAuthorization (Some "Bearer new") (setRetry true (request "/a")))] /\
  List.filter isSessionCall (effects (fst (fst bothRejected)))
  = [CalledUpdateToken 30].
Proof. vm_compute. repeat split; reflexivity. Qed.

End ApiProofs.

(** ** The session manager *)
Module KeycloakProofs.
Import UseKeycloak.

(** *** Notification *)

Section Fanout.

Context {Sub S : Type}.
Variable invoke : Sub -> StateChange -> S -> result S.

(** A subscriber together with a record of the calls made: the log gets
    the subscriber's name when it is called, whatever it then does. *)
Definition traced (subscriber : Sub) (newState : StateChange) (ls : list Sub * S)
  : result (list Sub * S) :=
  match invoke subscriber newState (snd ls) with
  | Returned s => Returned (fst ls ++ [subscriber], s)
  | Threw e s => Threw e (fst ls ++ [subscriber], s)
  end.

Lemma notifyStateChange_fold subs newState s :
  notifyStateChange invoke subs newState s
  = Returned (fold_left (fun s sub => stateOf (invoke sub newState s)) subs s).
Proof.
  revert s. induction subs as [|sub subs IH]; intros s; [reflexivity|].
  unfold notifyStateChange in *. cbn [forEach fold_left].
  destruct (invoke sub newState s); cbn [tryCatch andThen stateOf]; apply IH.
Qed.

End Fanout.


(** Subscriber 2 throws on every state change. *)
Definition moody (subscriber : nat) (newState : StateChange) (s : list string)
  : result (list string) :=
  if bool_decide (subscriber = 2) then Threw "boom" s
  else Returned (s ++ ["seen"]).

Example throwing_subscriber_is_passed :
  notifyStateChange (traced moody) [1; 2; 3] RESET ([], [])
  = Returned ([1; 2; 3], ["seen"; "seen"]).
Proof. reflexivity. Qed.

(** *** What a notification leaves alone *)

Lemma notify_fold newState w :
  notify newState w
  = fold_left (fun w h => withHook h (handleStateChange newState) w)
      (stateSubscribers (globals w)) w.
Proof. unfold notify. now rewrite notifyStateChange_fold. Qed.

Lemma deliveries_frame newState hs w :
  let w' := fold_left (fun w h => withHook h (handleStateChange newState) w) hs w in
  globals w' = globals w /\ outside w' = outside w /\
  instances (objects w') = instances (objects w) /\
  nextInstance (objects w') = nextInstance (objects w) /\
  promises (objects w') = promises (objects w) /\
  nextPromise (objects w') = nextPromise (objects w).
Proof.
  revert w. induction hs as [|h hs IH]; intros w; cbn [fold_left]; [auto 10|].
  destruct (IH (withHook h (handleStateChange newState) w)) as (-> & -> & -> & -> & -> & ->).
  cbn. auto 10.
Qed.

Lemma notify_frame newState w :
  globals (notify newState w) = globals w /\
  outside (notify newState w) = outside w /\
  instances (objects (notify newState w)) = instances (objects w) /\
  nextInstance (objects (notify newState w)) = nextInstance (objects w) /\
  promises (objects (notify newState w)) = promises (objects w) /\
  nextPromise (objects (notify newState w)) = nextPromise (objects w).
Proof. rewrite notify_fold. apply deliveries_frame. Qed.

(** A property of a hook's cells that its subscriber keeps is kept by a
    notification. *)
Lemma notify_hook (P : Hook -> Prop) newState w h :
  (forall x, P x -> P (handleStateChange newState x)) ->
  P (hook w h) -> P (hook (notify newState w) h).
Proof.
  intros Hkeep. rewrite notify_fold. generalize (stateSubscribers (globals w)).
  intros hs. revert w. induction hs as [|h' hs IH]; intros w Hp; cbn [fold_left]; [exact Hp|].
  apply IH. unfold hook. cbn. unfold hook in Hp.
  destruct (decide (h' = h)) as [->|Hne].
  - rewrite fn_lookup_insert. now apply Hkeep.
  - rewrite fn_lookup_insert_ne by exact Hne. exact Hp.
Qed.


Lemma handleStateChange_timer newState x :
  updateTokenTimeoutRef (handleStateChange newState x) = updateTokenTimeoutRef x.
Proof. unfold handleStateChange. destruct (isMountedRef x), newState; cbn; auto. Qed.


Lemma notify_timer newState w h :
  updateTokenTimeoutRef (hook (notify newState w) h) = updateTokenTimeoutRef (hook w h).
Proof.
  apply (notify_hook (fun x => updateTokenTimeoutRef x = updateTokenTimeoutRef (hook w h)));
    [|reflexivity].
  intros x. now rewrite handleStateChange_timer.
Qed.



Lemma resetGlobalState_frame w :
  keycloakSingleton (globals (resetGlobalState w)) = None /\
  keycloakInitPromise (globals (resetGlobalState w)) = None /\
  initializationState (globals (resetGlobalState w)) = idle /\
  globalError (globals (resetGlobalState w)) = None /\
  stateSubscribers (globals (resetGlobalState w)) = stateSubscribers (globals w) /\
  outside (resetGlobalState w) = outside w /\
  instances (objects (resetGlobalState w)) = instances (objects w) /\
  nextInstance (objects (resetGlobalState w)) = nextInstance (objects w) /\
  promises (objects (resetGlobalState w)) = promises (objects w) /\
  nextPromise (objects (resetGlobalState w)) = nextPromise (objects w).
Proof.
  unfold resetGlobalState.
  match goal with |- context [notify RESET ?w0] =>
    destruct (notify_frame RESET w0) as (-> & -> & -> & -> & -> & ->) end.
  cbn. auto 12.
Qed.

Lemma resetGlobalState_hook (P : Hook -> Prop) w h :
  (forall x, P x -> P (handleStateChange RESET x)) ->
  P (hook w h) -> P (hook (resetGlobalState w) h).
Proof. intros Hkeep Hp. unfold resetGlobalState. now apply notify_hook. Qed.

(** *** Who a notification reaches *)

Abbreviation deliveries newState :=
  (fold_left (fun w h => withHook h (handleStateChange newState) w)).

Lemma deliveries_hook (P : Hook -> Prop) newState hs w h :
  (forall x, P x -> P (handleStateChange newState x)) ->
  P (hook w h) -> P (hook (deliveries newState hs w) h).
Proof.
  intros Hkeep. revert w. induction hs as [|h' hs IH]; intros w Hp; cbn [fold_left]; [exact Hp|].
  apply IH. unfold hook in *. cbn.
  destruct (decide (h' = h)) as [->|Hne].
  - rewrite fn_lookup_insert. now apply Hkeep.
  - rewrite fn_lookup_insert_ne by exact Hne. exact Hp.
Qed.

Lemma deliveries_reach (Q : Hook -> Prop) newState hs w h :
  (forall x, Q x -> Q (handleStateChange newState x)) ->
  (forall x, isMountedRef x = true -> Q (handleStateChange newState x)) ->
  h ∈ hs -> isMountedRef (hook w h) = true ->
  Q (hook (deliveries newState hs w) h).
Proof.
  intros Hkeep Hset. revert w. induction hs as [|h' hs IH]; intros w Hin Hm.
  - inversion Hin.
  - cbn [fold_left]. destruct (decide (h' = h)) as [->|Hne].
    + apply deliveries_hook; [exact Hkeep|].
      unfold hook in *. cbn. rewrite fn_lookup_insert. now apply Hset.
    + apply IH.
      * apply elem_of_cons in Hin as [->|Hin]; [congruence | exact Hin].
      * unfold hook in *. cbn. now rewrite fn_lookup_insert_ne.
Qed.

Lemma deliveries_skip newState hs w h :
  h ∉ hs \/ isMountedRef (hook w h) = false ->
  hook (deliveries newState hs w) h = hook w h.
Proof.
  intros [Hn|Hm].
  - revert w. induction hs as [|h' hs IH]; intros w; cbn [fold_left]; [reflexivity|].
    apply not_elem_of_cons in Hn as [Hne Hn]. rewrite (IH Hn).
    unfold hook. cbn. now rewrite fn_lookup_insert_ne.
  - apply (deliveries_hook (fun x => x = hook w h)); [|reflexivity].
    intros x ->. unfold handleStateChange. now rewrite Hm.
Qed.

(** The cells of a hook after the reset notification. *)
Definition cleared (x : Hook) : Prop :=
  keycloak x = None /\ authenticated x = false /\ loading x = false /\ error x = None /\
  userInfo x = None /\ token x = None /\ refreshToken x = None.

Lemma handleStateChange_RESET_cleared x : cleared x -> cleared (handleStateChange RESET x).
Proof. unfold handleStateChange, cleared. destruct (isMountedRef x); cbn; auto 10. Qed.



Lemma notify_LOADING w h : hook (notify LOADING w) h = hook w h.
Proof.
  apply (notify_hook (fun x => x = hook w h)); [|reflexivity].
  intros x ->. unfold handleStateChange. now destruct (isMountedRef _).
Qed.

(** *** What a render leaves alone *)

(** A property of a hook's cells that no step of a render breaks: the
    subscriber, the two refs being set or emptied, and the copy of the
    singleton (lines 525-531). *)
Definition keptByRender (P : Hook -> Prop) : Prop :=
  (forall newState x, P x -> P (handleStateChange newState x)) /\
  (forall v x, P x -> P (setIsMountedRef v x)) /\
  (forall v x, P x -> P (setEffectKeycloak v x)) /\
  (forall x, P x -> P (setUpdateTokenTimeoutRef None x)) /\
  (forall k a t rt x,
     P x -> P (setLoading false (setRefreshToken rt (setToken t
                 (setAuthenticated a (setKeycloak (Some k) x)))))).

Lemma withHook_hook h f w h' :
  hook (withHook h f w) h' = if decide (h = h') then f (hook w h) else hook w h'.
Proof.
  unfold hook. cbn. destruct (decide (h = h')) as [->|Hne].
  - now rewrite fn_lookup_insert.
  - now rewrite fn_lookup_insert_ne.
Qed.

Lemma withHook_keeps (P : Hook -> Prop) h f w h' :
  (forall x, P x -> P (f x)) -> P (hook w h') -> P (hook (withHook h f w) h').
Proof.
  intros Hf Hp. rewrite withHook_hook. destruct (decide (h = h')) as [->|]; auto.
Qed.

Lemma clearRefreshTimer_keeps (P : Hook -> Prop) h w h' :
  (forall x, P x -> P (setUpdateTokenTimeoutRef None x)) ->
  P (hook w h') -> P (hook (clearRefreshTimer h w) h').
Proof.
  intros Hf Hp. unfold clearRefreshTimer.
  destruct (updateTokenTimeoutRef (hook w h)); [|exact Hp].
  apply withHook_keeps; [exact Hf | exact Hp].
Qed.

Lemma clearRefreshTimer_frame h w :
  globals (clearRefreshTimer h w) = globals w /\
  providerCalls (outside (clearRefreshTimer h w)) = providerCalls (outside w) /\
  nextTimer (outside (clearRefreshTimer h w)) = nextTimer (outside w) /\
  instances (objects (clearRefreshTimer h w)) = instances (objects w) /\
  nextInstance (objects (clearRefreshTimer h w)) = nextInstance (objects w) /\
  promises (objects (clearRefreshTimer h w)) = promises (objects w) /\
  nextPromise (objects (clearRefreshTimer h w)) = nextPromise (objects w) /\
  (forall t, timers (outside w) !! t = None ->
     timers (outside (clearRefreshTimer h w)) !! t = None) /\
  (forall t, updateTokenTimeoutRef (hook w h) = Some t ->
     timers (outside (clearRefreshTimer h w)) !! t = None) /\
  updateTokenTimeoutRef (hook (clearRefreshTimer h w) h) = None.
Proof.
  unfold clearRefreshTimer. destruct (updateTokenTimeoutRef (hook w h)) as [t|] eqn:E.
  - assert (hook (withHook h (setUpdateTokenTimeoutRef None) (clearTimeout t w)) h
            = setUpdateTokenTimeoutRef None (hook w h)) as ->
      by (rewrite withHook_hook; destruct (decide (h = h)); [reflexivity|congruence]).
    cbn. repeat split; auto.
    + intros t' Hn. destruct (decide (t = t')) as [->|Hne];
        [apply lookup_delete_eq | now rewrite lookup_delete_ne].
    + intros t' [= <-]. apply lookup_delete_eq.
  - repeat split; auto. intros t' [=].
Qed.

(** The part of a world that only the provider and the module code change. *)
Definition sameModule (w w' : World) : Prop :=
  globals w' = globals w /\
  providerCalls (outside w') = providerCalls (outside w) /\
  nextTimer (outside w') = nextTimer (outside w) /\
  instances (objects w') = instances (objects w) /\
  nextInstance (objects w') = nextInstance (objects w) /\
  promises (objects w') = promises (objects w) /\
  nextPromise (objects w') = nextPromise (objects w).

Lemma sameModule_refl w : sameModule w w.
Proof. unfold sameModule. auto 10. Qed.

Lemma sameModule_trans w1 w2 w3 : sameModule w1 w2 -> sameModule w2 w3 -> sameModule w1 w3.
Proof.
  unfold sameModule. intros (?&?&?&?&?&?&?) (?&?&?&?&?&?&?). repeat split; congruence.
Qed.

(** The cleanups of a render. *)
Definition cleanups (hs : list nat) (w : World) : World :=
  fold_left
    (fun w h => initializeOnMountCleanup h
                  (withHook h (fun x => setEffectKeycloak (keycloak x) x) w))
    hs w.

(** What the cleanup leaves in a hook. *)
Definition cleanedUp (x : Hook) : Prop :=
  updateTokenTimeoutRef x = None /\ isMountedRef x = false /\
  effectKeycloak x = keycloak x.

Lemma cleanup_step h w :
  let w' := initializeOnMountCleanup h
              (withHook h (fun x => setEffectKeycloak (keycloak x) x) w) in
  sameModule w w' /\
  (forall t, timers (outside w) !! t = None -> timers (outside w') !! t = None) /\
  (forall t, updateTokenTimeoutRef (hook w h) = Some t -> timers (outside w') !! t = None) /\
  cleanedUp (hook w' h) /\
  (forall h', cleanedUp (hook w h') -> cleanedUp (hook w' h')) /\
  (forall h', h' <> h -> hook w' h' = hook w h') /\
  (forall (P : Hook -> Prop) h',
     (forall v x, P x -> P (setIsMountedRef v x)) ->
     (forall v x, P x -> P (setEffectKeycloak v x)) ->
     (forall x, P x -> P (setUpdateTokenTimeoutRef None x)) ->
     P (hook w h') -> P (hook w' h')).
Proof.
  intros w'. unfold w', initializeOnMountCleanup.
  set (w1 := withHook h (setIsMountedRef false)
               (withHook h (fun x => setEffectKeycloak (keycloak x) x) w)).
  assert (hook w1 h = setIsMountedRef false
                        (setEffectKeycloak (keycloak (hook w h)) (hook w h))) as Hh1.
  { unfold w1. rewrite !withHook_hook. destruct (decide (h = h)); [reflexivity|congruence]. }
  assert (forall h', h' <> h -> hook w1 h' = hook w h') as Hother.
  { intros h' Hne. unfold w1. rewrite !withHook_hook.
    destruct (decide (h = h')); [congruence | reflexivity]. }
  destruct (clearRefreshTimer_frame h w1)
    as (Hg & Hpc & Hnt & Hi & Hni & Hp & Hnp & Hmono & Hdel & Hnone).
  split; [unfold sameModule; rewrite Hg, Hpc, Hnt, Hi, Hni, Hp, Hnp; cbn; auto 10|].
  split; [intros t Ht; apply Hmono; exact Ht|].
  split; [intros t Ht; apply Hdel; rewrite Hh1; exact Ht|].
  assert (cleanedUp (hook (clearRefreshTimer h w1) h)) as Hc.
  { split; [exact Hnone|].
    apply (clearRefreshTimer_keeps
             (fun x => isMountedRef x = false /\ effectKeycloak x = keycloak x));
      [intros x; cbn; auto | rewrite Hh1; cbn; auto]. }
  split; [exact Hc|]. split.
  { intros h' Hq. destruct (decide (h' = h)) as [->|Hne]; [exact Hc|].
    unfold clearRefreshTimer. destruct (updateTokenTimeoutRef (hook w1 h));
      rewrite ?withHook_hook; try destruct (decide (h = h')); try congruence;
      change (hook (clearTimeout _ w1) h') with (hook w1 h');
      rewrite (Hother h' Hne); exact Hq. }
  split.
  { intros h' Hne. unfold clearRefreshTimer. destruct (updateTokenTimeoutRef (hook w1 h));
      rewrite ?withHook_hook; try destruct (decide (h = h')); try congruence;
      change (hook (clearTimeout _ w1) h') with (hook w1 h'); now apply Hother. }
  intros P h' Hm He Ht Hp0. apply clearRefreshTimer_keeps; [exact Ht|].
  unfold w1. apply withHook_keeps; [apply Hm|].
  apply withHook_keeps; [intros x; apply He | exact Hp0].
Qed.

Lemma cleanups_spec hs w :
  let w' := cleanups hs w in
  sameModule w w' /\
  (forall t, timers (outside w) !! t = None -> timers (outside w') !! t = None) /\
  (forall h t, h ∈ hs -> updateTokenTimeoutRef (hook w h) = Some t ->
     timers (outside w') !! t = None) /\
  (forall h, h ∈ hs -> cleanedUp (hook w' h)) /\
  (forall h, cleanedUp (hook w h) -> cleanedUp (hook w' h)) /\
  (forall h, h ∉ hs -> hook w' h = hook w h) /\
  (forall (P : Hook -> Prop) h,
     (forall v x, P x -> P (setIsMountedRef v x)) ->
     (forall v x, P x -> P (setEffectKeycloak v x)) ->
     (forall x, P x -> P (setUpdateTokenTimeoutRef None x)) ->
     P (hook w h) -> P (hook w' h)).
Proof.
  revert w. induction hs as [|h0 hs IH]; intros w; cbn zeta.
  - unfold cleanups. cbn [fold_left].
    split; [apply sameModule_refl|]. split; [auto|].
    split; [intros h t Hin; inversion Hin|].
    split; [intros h Hin; inversion Hin|]. auto.
  - change (cleanups (h0 :: hs) w)
      with (cleanups hs (initializeOnMountCleanup h0
                           (withHook h0 (fun x => setEffectKeycloak (keycloak x) x) w))).
    destruct (cleanup_step h0 w) as (S1 & M1 & D1 & C1 & K1 & O1 & P1).
    set (w1 := initializeOnMountCleanup h0 _) in *.
    destruct (IH w1) as (S2 & M2 & D2 & C2 & K2 & O2 & P2).
    split; [eapply sameModule_trans; eauto|].
    split; [intros t Ht; apply M2, M1, Ht|].
    split.
    { intros h t Hin Ht. apply elem_of_cons in Hin as [->|Hin].
      - apply M2, D1, Ht.
      - destruct (decide (h = h0)) as [->|Hne]; [apply M2, D1, Ht|].
        apply (D2 h t Hin). rewrite (O1 h Hne). exact Ht. }
    split.
    { intros h Hin. apply elem_of_cons in Hin as [->|Hin]; [apply K2, C1 | now apply C2]. }
    split; [intros h Hq; apply K2, K1, Hq|].
    split.
    { intros h Hn. apply not_elem_of_cons in Hn as [Hne Hn].
      rewrite (O2 h Hn). now apply O1. }
    intros P h Hm He Ht Hp. apply P2; auto. apply P1; auto.
Qed.

(** *** What [initKeycloak] leaves alone *)

Lemma resetGlobalState_keeps (P : Hook -> Prop) w h :
  (forall newState x, P x -> P (handleStateChange newState x)) ->
  P (hook w h) -> P (hook (resetGlobalState w) h).
Proof. intros Hk Hp. apply resetGlobalState_hook; [apply Hk | exact Hp]. Qed.

Lemma initKeycloak_keeps (P : Hook -> Prop) w h :
  (forall newState x, P x -> P (handleStateChange newState x)) ->
  P (hook w h) -> P (hook (fst (initKeycloak w)) h).
Proof.
  intros Hk Hp. unfold initKeycloak.
  destruct (initializationState (globals w)) eqn:Es;
    try (destruct (keycloakSingleton (globals w)); cbn [fst]; try exact Hp);
    cbn [fst]; try exact Hp.
  all: match goal with |- context [notify LOADING ?w0] =>
         assert (P (hook (notify LOADING w0) h)) as Hn;
         [apply notify_hook; [apply Hk|];
          try (case_bool_decide;
               [exact (resetGlobalState_keeps P w h Hk Hp) | exact Hp]);
          try exact Hp
         | set (w1 := notify LOADING w0) in *;
           destruct (keycloakInitPromise (globals w1)); cbn [fst]; exact Hn ] end.
Qed.

Lemma initKeycloak_timers w :
  timers (outside (fst (initKeycloak w))) = timers (outside w) /\
  nextTimer (outside (fst (initKeycloak w))) = nextTimer (outside w) /\
  stateSubscribers (globals (fst (initKeycloak w))) = stateSubscribers (globals w).
Proof.
  unfold initKeycloak.
  destruct (initializationState (globals w)) eqn:Es;
    try (destruct (keycloakSingleton (globals w)); cbn [fst]; auto);
    cbn [fst]; auto.
  all: match goal with |- context [notify LOADING ?w0] =>
         destruct (notify_frame LOADING w0) as (Hg & Ho & _);
         set (w1 := notify LOADING w0) in *;
         destruct (keycloakInitPromise (globals w1)); cbn; rewrite ?Ho, ?Hg; cbn;
         try (case_bool_decide; cbn;
              try (destruct (resetGlobalState_frame w) as (_&_&_&_&-> & -> &_)); auto);
         auto end.
Qed.

(** [initKeycloak] called in the idle state with no promise at hand. *)
Lemma initKeycloak_idle w :
  initializationState (globals w) = idle ->
  keycloakInitPromise (globals w) = None ->
  let p := nextPromise (objects w) in
  let k := nextInstance (objects w) in
  let w' := fst (initKeycloak w) in
  snd (initKeycloak w) = AwaitsInit p /\
  initializationState (globals w') = initializing /\
  keycloakInitPromise (globals w') = Some p /\
  keycloakSingleton (globals w') = keycloakSingleton (globals w) /\
  globalError (globals w') = None /\
  stateSubscribers (globals w') = stateSubscribers (globals w) /\
  promises (objects w') p = Running k /\
  providerCalls (outside w') = providerCalls (outside w) ++ [Init k] /\
  (forall h, hook w' h = hook w h).
Proof.
  intros Hi Hp. unfold initKeycloak. rewrite Hi. cbn [bool_decide decide_rel].
  rewrite bool_decide_eq_false_2 by discriminate.
  match goal with |- context [notify LOADING ?w0] =>
    destruct (notify_frame LOADING w0) as (Hg & Ho & Hin & Hni & Hpr & Hnp);
    pose proof (notify_LOADING w0) as Hh;
    set (w1 := notify LOADING w0) in * end.
  cbn in Hg, Ho, Hin, Hni, Hpr, Hnp.
  rewrite Hg. cbn [keycloakInitPromise]. rewrite Hp.
  unfold startInit, allocInstance, allocPromise. cbn.
  rewrite Hnp, Hni, Ho, Hg. cbn. rewrite fn_lookup_insert.
  do 8 (split; [reflexivity|]). intros h. exact (Hh h).
Qed.

(** *** The effects of a render *)

Lemma initializeOnMount_keeps (P : Hook -> Prop) h w h' :
  keptByRender P -> P (hook w h') -> P (hook (fst (initializeOnMount h w)) h').
Proof.
  intros (Hn & Hm & _ & _ & Hs) Hp. unfold initializeOnMount.
  set (w0 := withHook h (setIsMountedRef true) w).
  assert (P (hook w0 h')) as Hp0 by (apply withHook_keeps; [apply Hm | exact Hp]).
  destruct (bool_decide _ || bool_decide _).
  - pose proof (initKeycloak_keeps P w0 h' Hn Hp0) as H.
    destruct (initKeycloak w0). exact H.
  - destruct (initializationState (globals w0)); try exact Hp0.
    destruct (keycloakSingleton (globals w0)); [|exact Hp0].
    cbn [fst]. apply withHook_keeps; [intros x; apply Hs | exact Hp0].
Qed.

Lemma initializeOnMount_timers h w :
  timers (outside (fst (initializeOnMount h w))) = timers (outside w) /\
  nextTimer (outside (fst (initializeOnMount h w))) = nextTimer (outside w) /\
  stateSubscribers (globals (fst (initializeOnMount h w))) = stateSubscribers (globals w).
Proof.
  unfold initializeOnMount.
  set (w0 := withHook h (setIsMountedRef true) w).
  destruct (bool_decide _ || bool_decide _).
  - pose proof (initKeycloak_timers w0) as H. destruct (initKeycloak w0). exact H.
  - destruct (initializationState (globals w0)); auto.
    destruct (keycloakSingleton (globals w0)); auto.
Qed.

Lemma runEffects_keeps (P : Hook -> Prop) hs w h' :
  keptByRender P -> P (hook w h') -> P (hook (fst (runEffects hs w)) h').
Proof.
  intros Hk. revert w. induction hs as [|h hs IH]; intros w Hp; cbn [runEffects fst];
    [exact Hp|].
  pose proof (initializeOnMount_keeps P h w h' Hk Hp) as H1.
  destruct (initializeOnMount h w) as [w1 c]. cbn [fst] in H1.
  specialize (IH w1 H1). destruct (runEffects hs w1). exact IH.
Qed.

Lemma runEffects_timers hs w :
  timers (outside (fst (runEffects hs w))) = timers (outside w) /\
  nextTimer (outside (fst (runEffects hs w))) = nextTimer (outside w) /\
  stateSubscribers (globals (fst (runEffects hs w))) = stateSubscribers (globals w).
Proof.
  revert w. induction hs as [|h hs IH]; intros w; cbn [runEffects fst]; [auto|].
  destruct (initializeOnMount_timers h w) as (H1 & H2 & H3).
  destruct (initializeOnMount h w) as [w1 c]. cbn [fst] in *.
  destruct (IH w1) as (H4 & H5 & H6). destruct (runEffects hs w1). cbn [fst] in *.
  repeat split; congruence.
Qed.

(** The hooks whose effect a render runs again. *)
Definition rerun (w : World) : list nat :=
  filter (fun h => stale w h = true) (stateSubscribers (globals w)).

Lemma render_unfold w : render w = runEffects (rerun w) (cleanups (rerun w) w).
Proof. reflexivity. Qed.

Lemma elem_of_rerun w h :
  h ∈ rerun w <->
  keycloak (hook w h) <> effectKeycloak (hook w h) /\ h ∈ stateSubscribers (globals w).
Proof.
  unfold rerun, stale. rewrite list_elem_of_filter, negb_true_iff, bool_decide_eq_false.
  tauto.
Qed.

Lemma keptByRender_cleanup (P : Hook -> Prop) :
  keptByRender P ->
  (forall v x, P x -> P (setIsMountedRef v x)) /\
  (forall v x, P x -> P (setEffectKeycloak v x)) /\
  (forall x, P x -> P (setUpdateTokenTimeoutRef None x)).
Proof. intros (_ & ? & ? & ? & _). auto. Qed.

(** A render keeps what no step of it breaks. *)
Lemma render_keeps (P : Hook -> Prop) w h :
  keptByRender P -> P (hook w h) -> P (hook (fst (render w)) h).
Proof.
  intros Hk Hp. rewrite render_unfold. apply runEffects_keeps; [exact Hk|].
  destruct (keptByRender_cleanup P Hk) as (H1 & H2 & H3).
  destruct (cleanups_spec (rerun w) w) as (_ & _ & _ & _ & _ & _ & HP). now apply HP.
Qed.

Lemma timerless_kept : keptByRender (fun x => updateTokenTimeoutRef x = None).
Proof.
  repeat split; intros; cbn; auto. now rewrite handleStateChange_timer.
Qed.

(** A render arms no timer, and it cancels the timer of every hook whose
    effect runs again. *)
Lemma render_cancels w :
  let w' := fst (render w) in
  (forall t, timers (outside w) !! t = None -> timers (outside w') !! t = None) /\
  nextTimer (outside w') = nextTimer (outside w) /\
  stateSubscribers (globals w') = stateSubscribers (globals w) /\
  (forall h, h ∈ rerun w ->
     updateTokenTimeoutRef (hook w' h) = None /\
     forall t, updateTokenTimeoutRef (hook w h) = Some t -> timers (outside w') !! t = None).
Proof.
  intros w'. unfold w'. rewrite render_unfold.
  destruct (cleanups_spec (rerun w) w) as ((Hg & _ & Hnt & _) & Hmono & Hdel & Hc & _).
  destruct (runEffects_timers (rerun w) (cleanups (rerun w) w)) as (Ht & Hn & Hs).
  rewrite Ht, Hn, Hs, Hnt, Hg.
  split; [exact Hmono|]. split; [reflexivity|]. split; [reflexivity|].
  intros h Hin. split.
  - apply (runEffects_keeps (fun x => updateTokenTimeoutRef x = None));
      [exact timerless_kept | apply (Hc h Hin)].
  - intros t Hr. exact (Hdel h t Hin Hr).
Qed.





Lemma initializeOnMount_initializing h w :
  initializationState (globals w) = initializing ->
  initializeOnMount h w = (withHook h (setIsMountedRef true) w, None).
Proof.
  intros Hi. unfold initializeOnMount. cbn [globals withHook withObjects]. rewrite Hi.
  rewrite !bool_decide_eq_false_2 by discriminate. reflexivity.
Qed.



(** What the copy of the singleton leaves in a hook (lines 525-531). *)
Definition synced (k : nat) (i : Keycloak) (x : Hook) : Prop :=
  keycloak x = Some k /\ authenticated x = kcAuthenticated i /\
  token x = truthy (kcToken i) /\ refreshToken x = truthy (kcRefreshToken i) /\
  loading x = false /\ isMountedRef x = true.

Lemma initializeOnMount_initialized h k w :
  initializationState (globals w) = initialized ->
  keycloakSingleton (globals w) = Some k ->
  let w' := fst (initializeOnMount h w) in
  snd (initializeOnMount h w) = None /\
  globals w' = globals w /\ outside w' = outside w /\
  instances (objects w') = instances (objects w) /\
  synced k (instance w k) (hook w' h) /\
  (forall h', h' <> h -> hook w' h' = hook w h').
Proof.
  intros Hi Hs. unfold initializeOnMount. cbn [globals withHook withObjects].
  rewrite Hi, Hs. rewrite !bool_decide_eq_false_2 by discriminate. cbn [orb fst snd].
  do 4 (split; [reflexivity|]). split.
  - rewrite withHook_hook. destruct (decide (h = h)); [|congruence].
    unfold synced, instance. cbn. rewrite fn_lookup_insert. cbn. auto 10.
  - intros h' Hne. rewrite !withHook_hook. destruct (decide (h = h')); [congruence|reflexivity].
Qed.

Lemma runEffects_initialized hs k w :
  initializationState (globals w) = initialized ->
  keycloakSingleton (globals w) = Some k ->
  let w' := fst (runEffects hs w) in
  snd (runEffects hs w) = [] /\
  globals w' = globals w /\ outside w' = outside w /\
  instances (objects w') = instances (objects w) /\
  (forall h, h ∈ hs -> synced k (instance w k) (hook w' h)) /\
  (forall h, synced k (instance w k) (hook w h) -> synced k (instance w k) (hook w' h)).
Proof.
  revert w. induction hs as [|h0 hs IH]; intros w Hi Hs; cbn [runEffects fst snd].
  - do 4 (split; [reflexivity|]). split; [intros h Hin; inversion Hin | auto].
  - destruct (initializeOnMount_initialized h0 k w Hi Hs) as (Hc & Hg & Ho & Hin & Hsy & Hot).
    destruct (initializeOnMount h0 w) as [w1 c]. cbn [fst snd] in *. subst c.
    assert (instance w1 k = instance w k) as Hik by (unfold instance; now rewrite Hin).
    destruct (IH w1) as (Hc2 & Hg2 & Ho2 & Hin2 & Hsy2 & Hk2); [congruence | congruence|].
    destruct (runEffects hs w1) as [w2 cs]. cbn [fst snd] in *. subst cs.
    rewrite Hik in *.
    split; [reflexivity|]. split; [congruence|]. split; [congruence|]. split; [congruence|].
    split.
    + intros h Hel. apply elem_of_cons in Hel as [->|Hel]; [now apply Hk2 | now apply Hsy2].
    + intros h Hh. apply Hk2. destruct (decide (h = h0)) as [->|Hne]; [exact Hsy|].
      rewrite (Hot h Hne). exact Hh.
Qed.

(** The render that follows the answer of the handshake: every hook whose
    effect runs again copies the singleton and its credentials; none calls
    [initKeycloak] or the provider. *)
Lemma render_initialized w k :
  initializationState (globals w) = initialized ->
  keycloakSingleton (globals w) = Some k ->
  let w' := fst (render w) in
  snd (render w) = [] /\
  globals w' = globals w /\
  providerCalls (outside w') = providerCalls (outside w) /\
  instances (objects w') = instances (objects w) /\
  (forall h, h ∈ rerun w -> synced k (instance w k) (hook w' h)).
Proof.
  intros Hi Hs w'. unfold w'. rewrite render_unfold.
  destruct (cleanups_spec (rerun w) w) as ((Hg & Hpc & _ & Hin & _) & _).
  set (wc := cleanups (rerun w) w) in *.
  assert (instance wc k = instance w k) as Hik by (unfold instance; now rewrite Hin).
  destruct (runEffects_initialized (rerun w) k wc) as (Hc & Hg2 & Ho2 & Hin2 & Hsy & _);
    [congruence | congruence|].
  rewrite Hik in Hsy.
  split; [exact Hc|]. split; [congruence|]. split; [congruence|]. split; [congruence|].
  exact Hsy.
Qed.

Section Hook.

Variable clientId : string.
Variable superRole : string.

Abbreviation hasRole := (hasRole clientId superRole).
Abbreviation resume := (resume clientId superRole).

(** *** Logout *)








(** *** Token auto-refresh *)


(** *** Initialization *)

(** [n] calls of [initKeycloak] one after the other, nothing settling in
    between; the calls in the order they were made. *)
Fixpoint callsOf (n : nat) (w : World) : World * list InitCall :=
  match n with
  | 0 => (w, [])
  | S n => let '(w, c) := initKeycloak w in
           let '(w, cs) := callsOf n w in
           (w, c :: cs)
  end.

Lemma initKeycloak_first w :
  initializationState (globals w) = idle ->
  keycloakInitPromise (globals w) = None ->
  let p := nextPromise (objects w) in
  let k := nextInstance (objects w) in
  let w' := fst (initKeycloak w) in
  snd (initKeycloak w) = AwaitsInit p /\
  initializationState (globals w') = initializing /\
  keycloakInitPromise (globals w') = Some p /\
  promises (objects w') p = Running k /\
  providerCalls (outside w') = providerCalls (outside w) ++ [Init k].
Proof.
  intros Hi Hp.
  destruct (initKeycloak_idle w Hi Hp) as (H1 & H2 & H3 & _ & _ & _ & H7 & H8 & _).
  auto.
Qed.

Lemma initKeycloak_later w :
  initializationState (globals w) = initializing ->
  initKeycloak w = (w, ReturnsPromise (keycloakInitPromise (globals w))).
Proof. intros Hi. unfold initKeycloak. now rewrite Hi. Qed.

Lemma callsOf_later n w :
  initializationState (globals w) = initializing ->
  callsOf n w = (w, replicate n (ReturnsPromise (keycloakInitPromise (globals w)))).
Proof.
  intros Hi. induction n as [|n IH]; [reflexivity|].
  cbn [callsOf replicate]. rewrite (initKeycloak_later w Hi), IH. reflexivity.
Qed.

(** The part of C1 that holds, and where it fails.  Of any number of calls
    of [initKeycloak] made from the idle state before the handshake is
    answered, the first starts the one handshake and the later ones start
    none.  When the provider answers, the first call resolves to the
    Keycloak instance, but each later call resolves to the wrapper object
    [{ keycloakInstance, authenticated }] around that instance; when the
    provider fails, every call rejects with its error. *)
Theorem initKeycloak_single_flight (n : nat) (w : World) :
  initializationState (globals w) = idle ->
  keycloakInitPromise (globals w) = None ->
  let p := nextPromise (objects w) in
  let k := nextInstance (objects w) in
  let w1 := fst (callsOf (S n) w) in
  snd (callsOf (S n) w) = AwaitsInit p :: replicate n (ReturnsPromise (Some p)) /\
  providerCalls (outside w1) = providerCalls (outside w) ++ [Init k] /\
  (forall fields h profile,
     let w2 := initAnswers p (Gives fields) w1 in
     let first := resume h (AwaitsInit p) profile w2 in
     providerCalls (outside w2) = providerCalls (outside w1) /\
     keycloakSingleton (globals w2) = Some k /\
     instance w2 k = fields /\
     (snd first = Settled (Resolves (Instance k)) \/
      snd first = AwaitsUserInfo k /\
      snd (resume h (snd first) profile (fst first)) = Settled (Resolves (Instance k))) /\
     snd (resume h (ReturnsPromise (Some p)) profile w2)
     = Settled (Resolves (InitResult k (kcAuthenticated fields)))) /\
  (forall e h profile,
     let w2 := initAnswers p (Fails e) w1 in
     snd (resume h (AwaitsInit p) profile w2) = Settled (Rejects e) /\
     snd (resume h (ReturnsPromise (Some p)) profile w2) = Settled (Rejects e)).
Proof.
  intros Hi Hp p k w1.
  destruct (initKeycloak_first w Hi Hp) as (Hc & Hi' & Hp' & Hrun & Hcalls).
  fold p k in Hc, Hp', Hrun, Hcalls.
  assert (callsOf (S n) w
          = (fst (initKeycloak w), AwaitsInit p :: replicate n (ReturnsPromise (Some p)))) as E.
  { cbn [callsOf]. destruct (initKeycloak w) as [w0 c] eqn:E0. cbn [fst snd] in *.
    rewrite (callsOf_later n w0 Hi'), Hp', Hc. reflexivity. }
  unfold w1. rewrite E. cbn [fst snd]. set (w0 := fst (initKeycloak w)) in *.
  split; [reflexivity|]. split; [exact Hcalls|]. split.
  - intros fields h profile.
    set (w2 := initAnswers p (Gives fields) w0).
    set (first := resume h (AwaitsInit p) profile w2).
    set (a := kcAuthenticated fields).
    set (w3 := notify (INITIALIZED k a)
                 (setInitializationState initialized
                    (setKeycloakSingleton (Some k) (setInstance k fields w0)))).
    assert (w2 = setPromise p (Fulfilled k a) w3) as Hw2
      by (unfold w2, initAnswers, initSettles; rewrite Hrun; reflexivity).
    unfold w3 in Hw2.
    match type of Hw2 with context [notify ?n ?wx] =>
      destruct (notify_frame n wx) as (Hg & Ho & Hin & _) end.
    fold w3 in Hw2, Hg, Ho, Hin. cbn in Hg, Ho, Hin.
    assert (promises (objects w2) p = Fulfilled k a) as Hful
      by (rewrite Hw2; cbn; apply fn_lookup_insert).
    split; [rewrite Hw2; cbn; now rewrite Ho|].
    split; [rewrite Hw2; cbn; now rewrite Hg|].
    split; [rewrite Hw2; unfold instance; cbn; rewrite Hin; apply fn_lookup_insert|].
    split.
    + unfold first, UseKeycloak.resume. rewrite Hful. clearbody a.
      destruct (isMountedRef (hook w2 h)); [|left; reflexivity].
      destruct a; [|left; reflexivity].
      match goal with |- context [if ?c then _ else _] => destruct c end.
      * right. split; reflexivity.
      * left. reflexivity.
    + unfold UseKeycloak.resume. now rewrite Hful.
  - intros e h profile.
    set (w2 := initAnswers p (Fails e) w0).
    assert (promises (objects w2) p = RejectedWith e) as Hrej.
    { unfold w2, initAnswers, initSettles. rewrite Hrun. cbn. apply fn_lookup_insert. }
    unfold UseKeycloak.resume. now rewrite Hrej.
Qed.

End Hook.

(** *** A concrete page *)

(** What the provider stores in the instance when a user signs in. *)
Definition alice : Keycloak :=
  {| kcAuthenticated := true; kcToken := Some "t1"; kcRefreshToken := Some "r1";
     realmRoles := Some ["user"]; resourceAccess := {["app" := ["editor"]]};
     tokenLocale := None |}.

Definition aliceProfile : answer Profile :=
  Gives {| profileId := Some "42"; username := Some "alice"; email := None;
           profileLocale := Some "en" |}.

Abbreviation resumeApp := (resume "app" "tsadmin").
Abbreviation hasRoleApp := (hasRole "app" "tsadmin").

(** Hook 0 is mounted, which calls [initKeycloak]; a second call is made
    before the provider has answered. *)
Definition twoCalls : World := fst (callsOf 2 (fst (mount 0 initialWorld))).

(** Mounting hook 0 on the fresh page starts the handshake. *)
Example mount_starts_handshake :
  snd (mount 0 initialWorld) = Some (AwaitsInit 0) /\
  providerCalls (outside (fst (mount 0 initialWorld))) = [Init 0].
Proof. vm_compute. split; reflexivity. Qed.

(** The page after hook 0 was mounted, the provider signed alice in, the
    call of [initKeycloak] went on to ask for her profile, React rendered
    the hook with its instance, her profile was loaded, and the first
    refresh attempt found the token still valid: the hook has armed its
    timer (timer 0). *)
Definition signedIn : World :=
  let w := fst (mount 0 initialWorld) in
  let w := initAnswers 0 (Gives alice) w in
  let w := fst (resumeApp 0 (AwaitsInit 0) aliceProfile w) in
  let w := fst (render w) in
  let w := fst (resumeApp 0 (AwaitsUserInfo 0) aliceProfile w) in
  updateTokenResumes 0 0 (Gives StillValid) w.

Example signedIn_state :
  keycloak (hook signedIn 0) = Some 0 /\
  effectKeycloak (hook signedIn 0) = Some 0 /\
  authenticated (hook signedIn 0) = true /\
  updateTokenTimeoutRef (hook signedIn 0) = Some 0 /\
  providerCalls (outside signedIn) = [Init 0; LoadUserProfile 0; UpdateToken 0 30] /\
  hasRoleApp 0 "editor" signedIn = true /\
  hasRoleApp 0 "owner" signedIn = false.
Proof. vm_compute. repeat split; reflexivity. Qed.

Lemma signedIn_subscribed : 0 ∈ stateSubscribers (globals signedIn).
Proof.
  replace (stateSubscribers (globals signedIn)) with [0] by (vm_compute; reflexivity).
  apply list_elem_of_singleton. reflexivity.
Defined.

Lemma initKeycloak_single_flight_witness :
  initializationState (globals initialWorld) = idle /\
  keycloakInitPromise (globals initialWorld) = None /\
  snd (callsOf 2 initialWorld) = [AwaitsInit 0; ReturnsPromise (Some 0)] /\
  providerCalls (outside (fst (callsOf 2 initialWorld))) = [Init 0] /\
  snd (resumeApp 0 (ReturnsPromise (Some 0)) aliceProfile
         (initAnswers 0 (Gives alice) (fst (callsOf 2 initialWorld))))
  = Settled (Resolves (InitResult 0 true)).
Proof.
  destruct (initKeycloak_single_flight "app" "tsadmin" 1 initialWorld eq_refl eq_refl)
    as (H1 & H2 & H3 & _).
  destruct (H3 alice 0 aliceProfile) as (_ & _ & _ & _ & H4).
  exact (conj eq_refl (conj eq_refl (conj H1 (conj H2 H4)))).
Defined.

(** C1 at two calls.  The caller that started the handshake resolves to
    the Keycloak instance (object 0); the caller that joined it resolves
    to the wrapper around that instance, on which [token] is undefined. *)
Lemma joined_caller_gets_wrapper :
  let w := initAnswers 0 (Gives alice) twoCalls in
  let first := resumeApp 0 (AwaitsInit 0) aliceProfile w in
  providerCalls (outside twoCalls) = [Init 0] /\
  snd (resumeApp 0 (snd first) aliceProfile (fst first)) = Settled (Resolves (Instance 0)) /\
  snd (resumeApp 0 (ReturnsPromise (Some 0)) aliceProfile w)
  = Settled (Resolves (InitResult 0 true)).
Proof. vm_compute. repeat split; reflexivity. Qed.



(** The provider signs the user out behind the page's back: the timer
    stays armed through the reset and is cancelled by the render that
    follows, which also starts the next handshake. *)
Example reset_cancels_timer_at_render :
  timers (outside signedIn) !! 0 = Some (300000%Z, 0, 0) /\
  timers (outside (onAuthLogout signedIn)) !! 0 = Some (300000%Z, 0, 0) /\
  timers (outside (fst (render (onAuthLogout signedIn)))) !! 0 = None /\
  snd (render (onAuthLogout signedIn)) = [(0, AwaitsInit 1)] /\
  providerCalls (outside (fst (render (onAuthLogout signedIn))))
  = [Init 0; LoadUserProfile 0; UpdateToken 0 30; Init 1].
Proof. vm_compute. repeat split; reflexivity. Qed.


(** The sign-out succeeds: when the promise of [logout] settles the next
    handshake is under way. *)
Example logout_then_handshake :
  initializationState (globals (logoutCompletes 0 (Gives tt) signedIn)) = initializing /\
  keycloakInitPromise (globals (logoutCompletes 0 (Gives tt) signedIn)) = Some 1 /\
  providerCalls (outside (logoutCompletes 0 (Gives tt) signedIn))
  = [Init 0; LoadUserProfile 0; UpdateToken 0 30; SignOut 0; Init 1] /\
  keycloak (hook (logoutCompletes 0 (Gives tt) signedIn) 0) = None.
Proof. vm_compute. repeat split; reflexivity. Qed.

End KeycloakProofs.

(** ** More on the connection manager *)
Module WebSocketInvariants.
Import WebSocketHook WebSocketProofs.

Section Hook.

Variable config : Config.
Variable JSON_parse : string -> option JsVal.
Variable JSON_stringify : JsVal -> string.
Variable encodeURIComponent : string -> string.
Variable behaviour : fn -> JsVal -> option string.
Variable registryCalls : fn -> JsVal -> list RegistryCall.

Abbreviation connect := (connect config encodeURIComponent).
Abbreviation onopen := (onopen config JSON_stringify behaviour).
Abbreviation onmessage :=
  (onmessage config JSON_parse JSON_stringify behaviour registryCalls).
Abbreviation onerror := (onerror config behaviour).
Abbreviation onclose := (onclose config behaviour).
Abbreviation sendMessage := (sendMessage config JSON_stringify encodeURIComponent).
Abbreviation autoConnectEffect := (autoConnectEffect config).
Abbreviation step :=
  (step config JSON_parse JSON_stringify encodeURIComponent behaviour registryCalls).
Abbreviation reachable :=
  (reachable config JSON_parse JSON_stringify encodeURIComponent behaviour registryCalls).
Abbreviation callIfSet := (callIfSet behaviour).
Abbreviation callListener := (callListener behaviour registryCalls).
Abbreviation forEachLive := (forEachLive behaviour registryCalls).
Abbreviation dispatch := (dispatch behaviour registryCalls).
Abbreviation messageData := (messageData JSON_stringify).
Abbreviation send := (send JSON_stringify).

(** *** Runs that touch neither the timers nor the registry *)

Definition quiet (s s' : State) : Prop :=
  timers (host s') = timers (host s) /\
  connectTimers (host s') = connectTimers (host s) /\
  nextTimer (host s') = nextTimer (host s) /\
  reconnectTimeoutRef (refs s') = reconnectTimeoutRef (refs s) /\
  eventListenersRef (refs s') = eventListenersRef (refs s).

Lemma quiet_refl s : quiet s s.
Proof. unfold quiet. auto. Qed.

Lemma quiet_trans s1 s2 s3 : quiet s1 s2 -> quiet s2 s3 -> quiet s1 s3.
Proof. unfold quiet. intros (?&?&?&?&?) (?&?&?&?&?). repeat split; congruence. Qed.

Lemma wsSend_quiet k data s : quiet s (stateOf (wsSend k data s)).
Proof.
  destruct (wsSend_frame k data s) as (_ & Hr & _ & Ht & Hn & _).
  destruct (wsSend_host k data s) as (Hc & _).
  unfold quiet. now rewrite Hr, Ht, Hn, Hc.
Qed.

Lemma callIfSet_quiet f arg s : quiet s (stateOf (callIfSet f arg s)).
Proof.
  destruct (callIfSet_frame behaviour f arg s) as (_ & Hr & _ & _ & Ht & Hn).
  destruct (callIfSet_host behaviour f arg s) as (Hc & _).
  unfold quiet. now rewrite Hr, Ht, Hn, Hc.
Qed.

Lemma flush_quiet k q s : quiet s (stateOf (flush k q s)).
Proof.
  revert s. induction q as [|m q IH]; intros s; cbn [flush]; [apply quiet_refl|].
  pose proof (wsSend_quiet k m (setMessageQueueRef q s)) as Hq.
  destruct (wsSend k m (setMessageQueueRef q s)) as [s'|e s'];
    cbn [andThen stateOf] in *.
  - eapply quiet_trans; [|apply IH]. exact Hq.
  - exact Hq.
Qed.

Lemma connect_quiet r a s : quiet s (connect r a s).
Proof.
  unfold WebSocketHook.connect. repeat case_match; unfold quiet; cbn; auto.
Qed.

Lemma sendMessage_quiet r a m s : quiet s (stateOf (sendMessage r a m s)).
Proof.
  unfold WebSocketHook.sendMessage.
  destruct (messageData m) as [d|]; [|apply quiet_refl].
  destruct (currentOpen s) as [k|].
  - pose proof (wsSend_quiet k d s) as Hq.
    destruct (wsSend k d s) as [s'|e s']; cbn [andThen stateOf] in *; [|exact Hq].
    destruct (enableMessageHistory config); exact Hq.
  - destruct (negb _ && negb _); cbn [stateOf].
    + eapply quiet_trans; [|apply connect_quiet]. unfold quiet. cbn. auto.
    + unfold quiet. cbn. auto.
Qed.

Lemma onopen_quiet k token s : quiet s (stateOf (onopen k token s)).
Proof.
  unfold WebSocketHook.onopen. destruct (sockets (host s) !! k) as [w|];
    [|apply quiet_refl].
  match goal with |- context [flush k ?q ?s0] =>
    pose proof (flush_quiet k q s0) as Hf;
    assert (quiet s s0) as H0 by (unfold quiet; cbn; auto);
    destruct (flush k q s0) as [s1|e s1] end; cbn [andThen stateOf] in *;
    [|eapply quiet_trans; eauto].
  assert (quiet s s1) as H1 by (eapply quiet_trans; eauto).
  match goal with |- context [andThen ?r _] =>
    assert (quiet s1 (stateOf r)) as Ha;
    [|destruct r as [s2|e s2]; cbn [andThen stateOf] in *;
      [|eapply quiet_trans; eauto]] end.
  { destruct (_ && _ && _); [|apply quiet_refl].
    destruct (truthy token); [apply wsSend_quiet | apply quiet_refl]. }
  eapply quiet_trans; [|apply callIfSet_quiet]. eapply quiet_trans; eauto.
Qed.

Lemma onerror_quiet s : quiet s (stateOf (onerror s)).
Proof.
  unfold WebSocketHook.onerror.
  eapply quiet_trans; [|apply callIfSet_quiet]. unfold quiet. cbn. auto.
Qed.

Lemma wsClose_quiet k s : quiet s (wsClose k s) /\ refs (wsClose k s) = refs s.
Proof. unfold wsClose, quiet. repeat case_match; cbn; auto 10. Qed.

(** *** The reconnect timer is single-slot *)

(** Every pending timer that a close event armed is the one the hook
    remembers. *)
Definition singleTimer (s : State) : Prop :=
  forall t, is_Some (timers (host s) !! t) -> reconnectTimeoutRef (refs s) = Some t.

(** No timer of a close event is pending. *)
Definition noTimer (s : State) : Prop := forall t, timers (host s) !! t = None.

Lemma shrink_singleTimer s s' :
  (forall t, is_Some (timers (host s') !! t) -> is_Some (timers (host s) !! t)) ->
  reconnectTimeoutRef (refs s') = reconnectTimeoutRef (refs s) ->
  singleTimer s -> singleTimer s'.
Proof. intros Ht Hr Hs t H. rewrite Hr. apply Hs, Ht, H. Qed.

Lemma quiet_singleTimer s s' : quiet s s' -> singleTimer s -> singleTimer s'.
Proof.
  intros (Ht & _ & _ & Hr & _). apply shrink_singleTimer; [|exact Hr].
  intros t. now rewrite Ht.
Qed.

Lemma noTimer_singleTimer s : noTimer s -> singleTimer s.
Proof. intros Hn t [x Hx]. rewrite Hn in Hx. discriminate. Qed.

Lemma clearTimeout_timers t s t' :
  is_Some (timers (host (clearTimeout t s)) !! t') -> is_Some (timers (host s) !! t').
Proof. cbn. rewrite lookup_delete_is_Some. tauto. Qed.

Lemma clearTimeout_connectTimers t s t' :
  is_Some (connectTimers (host (clearTimeout t s)) !! t') ->
  is_Some (connectTimers (host s) !! t').
Proof. cbn. rewrite lookup_delete_is_Some. tauto. Qed.

Lemma cancelReconnect_noTimer s : singleTimer s -> noTimer (cancelReconnect s).
Proof.
  intros Hs t. unfold cancelReconnect.
  destruct (reconnectTimeoutRef (refs s)) as [t0|] eqn:E.
  - cbn. destruct (decide (t0 = t)) as [->|Hne]; [apply lookup_delete_eq|].
    rewrite lookup_delete_ne by exact Hne.
    destruct (timers (host s) !! t) eqn:Et; [|reflexivity].
    assert (Some t0 = Some t) by (rewrite <- E; apply Hs; eauto). congruence.
  - destruct (timers (host s) !! t) eqn:Et; [|reflexivity].
    assert (@None nat = Some t) by (rewrite <- E; apply Hs; eauto). discriminate.
Qed.

Lemma onclose_singleTimer k wasClean s :
  singleTimer s -> singleTimer (stateOf (onclose k wasClean s)).
Proof.
  intros Hs. unfold WebSocketHook.onclose.
  destruct (sockets (host s) !! k) as [w|]; [|exact Hs].
  match goal with |- context [WebSocketHook.callIfSet _ ?f ?arg ?s0] =>
    pose proof (callIfSet_quiet f arg s0) as Hc;
    assert (quiet s s0) as H0 by (unfold quiet; cbn; auto);
    destruct (callIfSet f arg s0) as [s1|e s1] end; cbn [andThen stateOf] in *.
  2:{ eapply quiet_singleTimer; [|exact Hs]. eapply quiet_trans; eauto. }
  assert (singleTimer s1) as Hs1
    by (eapply quiet_singleTimer; [|exact Hs]; eapply quiet_trans; eauto).
  fold (cancelReconnect s1).
  pose proof (cancelReconnect_noTimer s1 Hs1) as Hno.
  set (s2 := cancelReconnect s1) in *.
  destruct (enableReconnect config && _ && negb wasClean).
  - intros t. cbn. destruct (decide (nextTimer (host s2) = t)) as [->|Hne]; [reflexivity|].
    rewrite lookup_insert_ne by exact Hne. rewrite Hno. intros [? ?]; discriminate.
  - destruct (maxReconnectAttempts config <=? _)%Z; cbn [stateOf];
      intros t; cbn; rewrite Hno; intros [? ?]; discriminate.
Qed.

Lemma disconnect_noTimer s : singleTimer s -> noTimer (disconnect s).
Proof.
  intros Hs t. pose proof (cancelReconnect_noTimer s Hs t) as Hno.
  unfold disconnect. fold (cancelReconnect s). set (s1 := cancelReconnect s) in *.
  destruct (socketRef (refs s1)) as [k|]; [|exact Hno].
  unfold wsClose. repeat case_match; exact Hno.
Qed.

Lemma autoConnectCleanup_singleTimer s :
  singleTimer s -> singleTimer (autoConnectCleanup s).
Proof.
  intros Hs. unfold autoConnectCleanup.
  destruct (autoConnect (host s)) as [c|]; [|exact Hs].
  apply noTimer_singleTimer, disconnect_noTimer.
  destruct c as [t|]; [|exact Hs].
  eapply shrink_singleTimer; [apply clearTimeout_timers | reflexivity | exact Hs].
Qed.

Lemma cleanupEffect_singleTimer s : singleTimer s -> singleTimer (cleanupEffect s).
Proof.
  intros Hs. unfold cleanupEffect.
  match goal with |- context [socketRef (refs ?s0)] =>
    assert (singleTimer s0) as Hs0 end.
  { destruct (reconnectTimeoutRef (refs s)) as [t|]; [|exact Hs].
    eapply shrink_singleTimer; [apply clearTimeout_timers | reflexivity | exact Hs]. }
  destruct (socketRef _) as [k|]; [|exact Hs0].
  eapply quiet_singleTimer; [apply wsClose_quiet | exact Hs0].
Qed.

Lemma step_singleTimer e s : singleTimer s -> singleTimer (step e s).
Proof.
  intros Hs. destruct e; cbn [WebSocketHook.step].
  - eapply quiet_singleTimer; [apply connect_quiet | exact Hs].
  - apply noTimer_singleTimer, disconnect_noTimer, Hs.
  - eapply quiet_singleTimer; [apply sendMessage_quiet | exact Hs].
  - exact Hs.
  - unfold removeEventListener. repeat case_match; exact Hs.
  - destruct (readyStateOf s k) as [[]|]; try exact Hs.
    eapply quiet_singleTimer; [apply onopen_quiet | exact Hs].
  - destruct (readyStateOf s k) as [[]|]; try exact Hs.
    destruct (onmessage_frame config JSON_parse JSON_stringify behaviour registryCalls
                data now s) as (_&Hr&_&_&_&_&Ht&_).
    eapply shrink_singleTimer; [|exact Hr|exact Hs]. intros t. now rewrite Ht.
  - destruct (readyStateOf s k); [|exact Hs].
    eapply quiet_singleTimer; [apply onerror_quiet | exact Hs].
  - destruct (readyStateOf s k) as [[]|]; try exact Hs;
      apply onclose_singleTimer; exact Hs.
  - assert (singleTimer (clearTimeout t s)) as Hc
      by (eapply shrink_singleTimer; [apply clearTimeout_timers | reflexivity | exact Hs]).
    destruct (timers (host s) !! t) as [[d r]|] eqn:Et;
      [eapply quiet_singleTimer; [apply connect_quiet | exact Hc]|].
    destruct (connectTimers (host s) !! t) as [[d r]|];
      [eapply quiet_singleTimer; [apply connect_quiet | exact Hc] | exact Hs].
  - apply noTimer_singleTimer. intros t. apply (disconnect_noTimer s Hs t).
  - pose proof (autoConnectCleanup_singleTimer s Hs) as Hc.
    unfold WebSocketHook.autoConnectEffect. destruct (_ && _); exact Hc.
  - apply cleanupEffect_singleTimer. exact (autoConnectCleanup_singleTimer s Hs).
Qed.

Lemma reachable_singleTimer s : reachable s -> singleTimer s.
Proof.
  induction 1 as [|e s _ IH].
  - intros t. cbn. rewrite lookup_empty. intros [? ?]; discriminate.
  - now apply step_singleTimer.
Qed.

(** *** The timers of [reconnect] and of the auto-connect effect *)

(** The hook's ref never names a timer that [reconnect] or the effect
    armed: timer names are given out once. *)
Definition wellTimed (s : State) : Prop :=
  (forall t, reconnectTimeoutRef (refs s) = Some t -> t < nextTimer (host s)) /\
  (forall t, is_Some (connectTimers (host s) !! t) ->
     t < nextTimer (host s) /\ reconnectTimeoutRef (refs s) <> Some t).

Lemma shrink_wellTimed s s' :
  nextTimer (host s) <= nextTimer (host s') ->
  (reconnectTimeoutRef (refs s') = reconnectTimeoutRef (refs s) \/
   reconnectTimeoutRef (refs s') = None) ->
  (forall t, is_Some (connectTimers (host s') !! t) ->
             is_Some (connectTimers (host s) !! t)) ->
  wellTimed s -> wellTimed s'.
Proof.
  intros Hn Hr Hc [H1 H2]. split.
  - intros t Ht. destruct Hr as [Hr|Hr]; rewrite Hr in Ht; [|discriminate].
    specialize (H1 t Ht). lia.
  - intros t Ht. destruct (H2 t (Hc t Ht)) as [Hlt Hne]. split; [lia|].
    destruct Hr as [Hr|Hr]; rewrite Hr; [exact Hne | discriminate].
Qed.

Lemma quiet_wellTimed s s' : quiet s s' -> wellTimed s -> wellTimed s'.
Proof.
  intros (_ & Hc & Hn & Hr & _). apply shrink_wellTimed; [lia | now left |].
  intros t. now rewrite Hc.
Qed.

Lemma setConnectTimeout_wellTimed delay r s :
  wellTimed s -> wellTimed (snd (setConnectTimeout delay r s)).
Proof.
  intros [H1 H2]. split; cbn.
  - intros t Ht. specialize (H1 t Ht). lia.
  - intros t Ht. destruct (decide (nextTimer (host s) = t)) as [<-|Hne].
    + split; [lia|]. intros E. specialize (H1 _ E). lia.
    + rewrite lookup_insert_ne in Ht by exact Hne.
      destruct (H2 t Ht). split; [lia | assumption].
Qed.

Lemma cancelReconnect_wellTimed s : wellTimed s -> wellTimed (cancelReconnect s).
Proof.
  intros Hs. unfold cancelReconnect.
  destruct (reconnectTimeoutRef (refs s)) as [t|]; [|exact Hs].
  eapply shrink_wellTimed; [| |apply clearTimeout_connectTimers|exact Hs]; cbn; auto.
Qed.

Lemma disconnect_wellTimed s : wellTimed s -> wellTimed (disconnect s).
Proof.
  intros Hs. pose proof (cancelReconnect_wellTimed s Hs) as Hc.
  unfold disconnect. fold (cancelReconnect s). set (s1 := cancelReconnect s) in *.
  eapply shrink_wellTimed; [| | |exact Hc].
  - destruct (socketRef (refs s1)); [|cbn; lia].
    cbn. destruct (wsClose_quiet n s1) as [(_&_&Hn&_) _]. rewrite Hn. lia.
  - destruct (socketRef (refs s1)); [|now left].
    cbn. destruct (wsClose_quiet n s1) as [(_&_&_&Hr&_) _]. now left.
  - intros t. destruct (socketRef (refs s1)); [|auto].
    cbn. destruct (wsClose_quiet n s1) as [(_&Hct&_) _]. now rewrite Hct.
Qed.

Lemma onclose_wellTimed k wasClean s :
  wellTimed s -> wellTimed (stateOf (onclose k wasClean s)).
Proof.
  intros Hs. unfold WebSocketHook.onclose.
  destruct (sockets (host s) !! k) as [w|]; [|exact Hs].
  match goal with |- context [WebSocketHook.callIfSet _ ?f ?arg ?s0] =>
    pose proof (callIfSet_quiet f arg s0) as Hc;
    assert (quiet s s0) as H0 by (unfold quiet; cbn; auto);
    destruct (callIfSet f arg s0) as [s1|e s1] end; cbn [andThen stateOf] in *.
  2:{ eapply quiet_wellTimed; [|exact Hs]. eapply quiet_trans; eauto. }
  assert (wellTimed s1) as Hs1
    by (eapply quiet_wellTimed; [|exact Hs]; eapply quiet_trans; eauto).
  fold (cancelReconnect s1).
  pose proof (cancelReconnect_wellTimed s1 Hs1) as [H1 H2].
  set (s2 := cancelReconnect s1) in *. clearbody s2.
  destruct (enableReconnect config && _ && negb wasClean).
  - split; cbn.
    + intros t [= <-]. lia.
    + intros t Ht. destruct (H2 t Ht) as [Hlt _]. split; [lia|]. intros [= E]. lia.
  - destruct (maxReconnectAttempts config <=? _)%Z; cbn [stateOf]; split; auto.
Qed.

Lemma autoConnectCleanup_wellTimed s : wellTimed s -> wellTimed (autoConnectCleanup s).
Proof.
  intros Hs. unfold autoConnectCleanup.
  destruct (autoConnect (host s)) as [c|]; [|exact Hs].
  apply disconnect_wellTimed. destruct c as [t|]; [|exact Hs].
  eapply shrink_wellTimed; [| |apply clearTimeout_connectTimers|exact Hs]; cbn; auto.
Qed.

Lemma step_wellTimed e s : wellTimed s -> wellTimed (step e s).
Proof.
  intros Hs. destruct e; cbn [WebSocketHook.step].
  - eapply quiet_wellTimed; [apply connect_quiet | exact Hs].
  - apply disconnect_wellTimed, Hs.
  - eapply quiet_wellTimed; [apply sendMessage_quiet | exact Hs].
  - exact Hs.
  - unfold removeEventListener. repeat case_match; exact Hs.
  - destruct (readyStateOf s k) as [[]|]; try exact Hs.
    eapply quiet_wellTimed; [apply onopen_quiet | exact Hs].
  - destruct (readyStateOf s k) as [[]|]; try exact Hs.
    destruct (onmessage_frame config JSON_parse JSON_stringify behaviour registryCalls
                data now s) as (_&Hr&_&_&_&_&_&Hc&Hn&_).
    eapply shrink_wellTimed; [| | |exact Hs]; [lia | now left |].
    intros t. now rewrite Hc.
  - destruct (readyStateOf s k); [|exact Hs].
    eapply quiet_wellTimed; [apply onerror_quiet | exact Hs].
  - destruct (readyStateOf s k) as [[]|]; try exact Hs;
      apply onclose_wellTimed; exact Hs.
  - assert (wellTimed (clearTimeout t s)) as Hc
      by (eapply shrink_wellTimed; [| |apply clearTimeout_connectTimers|exact Hs];
          cbn; auto).
    destruct (timers (host s) !! t) as [[d r]|] eqn:Et;
      [eapply quiet_wellTimed; [apply connect_quiet | exact Hc]|].
    destruct (connectTimers (host s) !! t) as [[d r]|];
      [eapply quiet_wellTimed; [apply connect_quiet | exact Hc] | exact Hs].
  - apply setConnectTimeout_wellTimed, disconnect_wellTimed, Hs.
  - pose proof (autoConnectCleanup_wellTimed s Hs) as Hc.
    unfold WebSocketHook.autoConnectEffect. destruct (_ && _); [|exact Hc].
    apply (setConnectTimeout_wellTimed 100 _ _ Hc).
  - pose proof (autoConnectCleanup_wellTimed s Hs) as Hc.
    unfold cleanupEffect.
    match goal with |- context [socketRef (refs ?s0)] =>
      assert (wellTimed s0) as Hs0 end.
    { destruct (reconnectTimeoutRef _) as [t|]; [|exact Hc].
      eapply shrink_wellTimed; [| |apply clearTimeout_connectTimers|exact Hc]; cbn; auto. }
    destruct (socketRef _) as [k|]; [|exact Hs0].
    eapply quiet_wellTimed; [apply wsClose_quiet | exact Hs0].
Qed.

Lemma reachable_wellTimed s : reachable s -> wellTimed s.
Proof.
  induction 1 as [|e s _ IH].
  - split; cbn; [discriminate|]. intros t. rewrite lookup_empty. intros [? ?]; discriminate.
  - now apply step_wellTimed.
Qed.

(** X1.  At most one timer armed by a close event is pending at any time; it
    is the one [reconnectTimeoutRef] holds, and it is none of the timers
    that [reconnect] and the auto-connect effect arm, which the ref never
    holds. *)
Theorem one_reconnect_timer (s : State) (t1 t2 : nat) :
  reachable s ->
  is_Some (timers (host s) !! t1) -> is_Some (timers (host s) !! t2) ->
  t1 = t2 /\ reconnectTimeoutRef (refs s) = Some t1 /\
  connectTimers (host s) !! t1 = None /\
  (forall t, is_Some (connectTimers (host s) !! t) ->
     reconnectTimeoutRef (refs s) <> Some t).
Proof.
  intros Hr H1 H2.
  pose proof (reachable_singleTimer s Hr) as Hs.
  pose proof (reachable_wellTimed s Hr) as [_ Hw].
  pose proof (Hs t1 H1) as E1. pose proof (Hs t2 H2).
  split; [congruence|]. split; [exact E1|]. split.
  - destruct (connectTimers (host s) !! t1) eqn:Ec; [|reflexivity].
    destruct (Hw t1) as [_ Hne]; [rewrite Ec; eauto | contradiction].
  - intros t Ht. apply (Hw t Ht).
Qed.

Lemma wsClose_readyState k s rs :
  readyStateOf s k = Some rs ->
  readyStateOf (wsClose k s) k
  = Some (match rs with CONNECTING | OPEN => CLOSING | _ => rs end).
Proof.
  intros H. unfold wsClose. rewrite H.
  destruct rs; try exact H; unfold readyStateOf in *; cbn;
    rewrite list_lookup_alter_eq; destruct (sockets (host s) !! k); cbn in *; congruence.
Qed.

(** X2.  [disconnect] leaves no timer of a close event pending, drops the
    queue, resets the attempt counter and forgets the socket.  It cancels
    none of the timers that [reconnect] and the auto-connect effect armed:
    they stay pending, and each calls [connect] when it fires. *)
Theorem disconnect_leaves_nothing_pending (s : State) :
  reachable s ->
  timers (host (disconnect s)) = ∅ /\
  reconnectTimeoutRef (refs (disconnect s)) = None /\
  messageQueueRef (refs (disconnect s)) = [] /\
  reconnectAttemptsRef (refs (disconnect s)) = 0 /\
  socketRef (refs (disconnect s)) = None /\
  connected (ui (disconnect s)) = false /\
  (forall k rs, socketRef (refs s) = Some k -> readyStateOf s k = Some rs ->
     readyStateOf (disconnect s) k
     = Some (match rs with CONNECTING | OPEN => CLOSING | _ => rs end)) /\
  connectTimers (host (disconnect s)) = connectTimers (host s) /\
  (forall t delay r a, connectTimers (host s) !! t = Some (delay, r) ->
     step (TimerFires t a) (disconnect s) = connect r a (clearTimeout t (disconnect s))).
Proof.
  intros Hr.
  pose proof (reachable_singleTimer s Hr) as Hs.
  pose proof (reachable_wellTimed s Hr) as [_ Hw].
  assert (connectTimers (host (disconnect s)) = connectTimers (host s)) as Hct.
  { unfold disconnect. fold (cancelReconnect s).
    assert (connectTimers (host (cancelReconnect s)) = connectTimers (host s)) as Hc.
    { unfold cancelReconnect. destruct (reconnectTimeoutRef (refs s)) as [t|] eqn:E;
        [|reflexivity].
      cbn. apply delete_id.
      destruct (connectTimers (host s) !! t) eqn:Ec; [|reflexivity].
      destruct (Hw t) as [_ Hne]; [rewrite Ec; eauto | contradiction]. }
    set (s1 := cancelReconnect s) in *.
    destruct (socketRef (refs s1)) as [k|]; [|exact Hc].
    cbn. destruct (wsClose_quiet k s1) as [(_&Hq&_) _]. now rewrite Hq. }
  assert (timers (host (disconnect s)) = ∅) as Hti.
  { apply map_eq. intros t. rewrite lookup_empty. now apply disconnect_noTimer. }
  split; [exact Hti|].
  assert (reconnectTimeoutRef (refs (disconnect s)) = None /\
          messageQueueRef (refs (disconnect s)) = [] /\
          reconnectAttemptsRef (refs (disconnect s)) = 0 /\
          socketRef (refs (disconnect s)) = None /\
          connected (ui (disconnect s)) = false /\
          (forall k rs, socketRef (refs s) = Some k -> readyStateOf s k = Some rs ->
             readyStateOf (disconnect s) k
             = Some (match rs with CONNECTING | OPEN => CLOSING | _ => rs end))) as H.
  { unfold disconnect. fold (cancelReconnect s).
    assert (reconnectTimeoutRef (refs (cancelReconnect s)) = None /\
            socketRef (refs (cancelReconnect s)) = socketRef (refs s) /\
            sockets (host (cancelReconnect s)) = sockets (host s)) as (Hc & Hk & Hso)
      by (unfold cancelReconnect; destruct (reconnectTimeoutRef (refs s)) eqn:E; cbn; auto).
    set (s1 := cancelReconnect s) in *.
    destruct (socketRef (refs s1)) as [k|] eqn:Ek.
    - cbn. split; [unfold wsClose; repeat case_match; exact Hc|].
      do 4 (split; [reflexivity|]).
      intros k' rs Hk' Hrs. rewrite <- Hk in Hk'. inversion Hk'; subst k'.
      change (readyStateOf (wsClose k s1) k
              = Some (match rs with CONNECTING | OPEN => CLOSING | _ => rs end)).
      apply wsClose_readyState. unfold readyStateOf in *. now rewrite Hso.
    - cbn. do 4 (split; [auto|]). split; [reflexivity|]. intros k rs Hk'. congruence. }
  destruct H as (H1 & H2 & H3 & H4 & H5 & H6).
  do 6 (split; [assumption|]). split; [exact Hct|].
  intros t delay r a Ht. cbn [WebSocketHook.step]. rewrite Hti, lookup_empty, Hct, Ht.
  reflexivity.
Qed.

(** *** The listener registry *)

(** Runs that touch neither the queue nor the registry. *)
Definition keeps (s s' : State) : Prop :=
  messageQueueRef (refs s') = messageQueueRef (refs s) /\
  eventListenersRef (refs s') = eventListenersRef (refs s).

Lemma keeps_trans s1 s2 s3 : keeps s1 s2 -> keeps s2 s3 -> keeps s1 s3.
Proof. unfold keeps. intros [? ?] [? ?]. split; congruence. Qed.

Lemma callIfSet_keeps f arg s : keeps s (stateOf (callIfSet f arg s)).
Proof.
  destruct (callIfSet_frame behaviour f arg s) as (_ & Hr & _).
  unfold keeps. now rewrite Hr.
Qed.

Lemma connect_keeps r a s : keeps s (connect r a s).
Proof. unfold WebSocketHook.connect. repeat case_match; unfold keeps; cbn; auto. Qed.

Lemma onerror_keeps s : keeps s (stateOf (onerror s)).
Proof.
  unfold WebSocketHook.onerror.
  eapply keeps_trans; [|apply callIfSet_keeps]. unfold keeps. cbn. auto.
Qed.

Lemma onclose_keeps k wasClean s : keeps s (stateOf (onclose k wasClean s)).
Proof.
  unfold WebSocketHook.onclose.
  destruct (sockets (host s) !! k) as [w|]; [|unfold keeps; auto].
  match goal with |- context [WebSocketHook.callIfSet _ ?f ?arg ?s0] =>
    pose proof (callIfSet_keeps f arg s0) as Hc;
    assert (keeps s s0) as H0 by (unfold keeps; cbn; auto);
    destruct (callIfSet f arg s0) as [s1|e s1] end; cbn [andThen stateOf] in *;
    [|eapply keeps_trans; eauto].
  assert (keeps s s1) as H1 by (eapply keeps_trans; eauto).
  fold (cancelReconnect s1).
  assert (keeps s (cancelReconnect s1)) as H2.
  { eapply keeps_trans; [exact H1|]. unfold cancelReconnect, keeps.
    destruct (reconnectTimeoutRef (refs s1)); cbn; auto. }
  set (s2 := cancelReconnect s1) in *.
  destruct (enableReconnect config && _ && negb wasClean).
  - eapply keeps_trans; [exact H2|]. unfold keeps. cbn. auto.
  - destruct (maxReconnectAttempts config <=? _)%Z; cbn [stateOf]; [|exact H2].
    eapply keeps_trans; [exact H2|]. unfold keeps. cbn. auto.
Qed.

Lemma disconnect_registry s :
  eventListenersRef (refs (disconnect s)) = eventListenersRef (refs s).
Proof. unfold disconnect, wsClose. cbn. repeat case_match; reflexivity. Qed.

Lemma autoConnectCleanup_registry s :
  eventListenersRef (refs (autoConnectCleanup s)) = eventListenersRef (refs s).
Proof.
  unfold autoConnectCleanup. destruct (autoConnect (host s)) as [[t|]|];
    rewrite ?disconnect_registry; reflexivity.
Qed.

Lemma cleanupEffect_registry s :
  eventListenersRef (refs (cleanupEffect s)) = eventListenersRef (refs s).
Proof. unfold cleanupEffect, wsClose. repeat case_match; reflexivity. Qed.

(** No type is registered with an empty list of handlers. *)
Definition noEmptyEntry (s : State) : Prop :=
  forall eventType, eventListenersRef (refs s) !! eventType <> Some [].

Lemma spliceFirst_last (h : fn) (l : list fn) : h ∉ l -> spliceFirst h (l ++ [h]) = l.
Proof.
  induction l as [|x l IH]; intros Hn; cbn.
  - now rewrite bool_decide_eq_true_2.
  - rewrite bool_decide_eq_false_2.
    + rewrite IH; [reflexivity|]. intros Hin. apply Hn. now apply list_elem_of_further.
    + intros ->. apply Hn. apply list_elem_of_here.
Qed.

Lemma sameRegistry_noEmptyEntry s s' :
  eventListenersRef (refs s') = eventListenersRef (refs s) ->
  noEmptyEntry s -> noEmptyEntry s'.
Proof. intros E Hs ty. rewrite E. apply Hs. Qed.

Lemma addEventListener_noEmptyEntry eventType listener s :
  noEmptyEntry s -> noEmptyEntry (addEventListener eventType listener s).
Proof.
  intros Hs ty. unfold addEventListener. cbn.
  destruct (decide (eventType = ty)) as [->|Hne].
  - rewrite lookup_insert_eq. intros [= E]. now destruct (default [] _).
  - rewrite lookup_insert_ne by exact Hne.
    destruct (eventListenersRef (refs s) !! eventType); [apply Hs|].
    rewrite lookup_insert_ne by exact Hne. apply Hs.
Qed.

Lemma removeEventListener_noEmptyEntry eventType listener s :
  noEmptyEntry s -> noEmptyEntry (removeEventListener eventType listener s).
Proof.
  intros Hs ty. unfold removeEventListener.
  destruct (eventListenersRef (refs s) !! eventType) as [l|] eqn:El; [|apply Hs].
  destruct (spliceFirst listener l) as [|x l'] eqn:Es; cbn.
  - destruct (decide (eventType = ty)) as [->|Hne].
    + rewrite lookup_delete_eq. discriminate.
    + rewrite lookup_delete_ne by exact Hne. apply Hs.
  - destruct (decide (eventType = ty)) as [->|Hne].
    + rewrite lookup_insert_eq. discriminate.
    + rewrite lookup_insert_ne by exact Hne. apply Hs.
Qed.

Lemma registryCalls_noEmptyEntry cs s :
  noEmptyEntry s -> noEmptyEntry (fold_left (fun s c => registryCall c s) cs s).
Proof.
  revert s. induction cs as [|c cs IH]; intros s Hs; cbn [fold_left]; [exact Hs|].
  apply IH. destruct c; cbn [registryCall];
    [now apply addEventListener_noEmptyEntry | now apply removeEventListener_noEmptyEntry].
Qed.

Lemma callListener_noEmptyEntry f arg s :
  noEmptyEntry s -> noEmptyEntry (stateOf (callListener f arg s)).
Proof.
  intros Hs. unfold WebSocketHook.callListener.
  match goal with |- context [fold_left _ ?cs ?s0] =>
    pose proof (registryCalls_noEmptyEntry cs s0 Hs) as H end.
  destruct (behaviour f arg); exact H.
Qed.

Lemma forEachLive_noEmptyEntry ty arg k n l s :
  noEmptyEntry s -> noEmptyEntry (stateOf (forEachLive ty arg k n l s)).
Proof.
  revert k l s. induction n as [|n IH]; intros k l s Hs; cbn [WebSocketHook.forEachLive];
    [exact Hs|].
  destruct (default [] l !! k) as [h|]; [|now apply IH].
  pose proof (callListener_noEmptyEntry h arg s Hs) as Hc.
  destruct (callListener h arg s) as [s'|e s']; cbn [andThen stateOf] in *; [|exact Hc].
  now apply IH.
Qed.

Lemma dispatch_noEmptyEntry ty arg s :
  noEmptyEntry s -> noEmptyEntry (stateOf (dispatch ty arg s)).
Proof.
  intros Hs. unfold WebSocketHook.dispatch. destruct ty; try exact Hs.
  destruct (eventListenersRef (refs s) !! _) as [[|h hs]|]; try exact Hs.
  now apply forEachLive_noEmptyEntry.
Qed.

Lemma onmessage_noEmptyEntry data now s :
  noEmptyEntry s -> noEmptyEntry (stateOf (onmessage data now s)).
Proof.
  intros Hs. unfold WebSocketHook.onmessage.
  match goal with |- context [WebSocketHook.callIfSet _ ?f ?arg ?s0] =>
    pose proof (callIfSet_frame behaviour f arg s0) as (_ & Hr & _);
    assert (eventListenersRef (refs s0) = eventListenersRef (refs s)) as H0
      by (destruct (enableMessageHistory config); reflexivity);
    destruct (callIfSet f arg s0) as [s1|e s1] end; cbn [andThen stateOf] in *.
  2:{ eapply sameRegistry_noEmptyEntry; [|exact Hs]. now rewrite Hr. }
  assert (noEmptyEntry s1) as H1
    by (eapply sameRegistry_noEmptyEntry; [|exact Hs]; now rewrite Hr).
  destruct (getProp _ "type") as [ty|]; cbn [stateOf]; [|exact H1].
  match goal with |- context [andThen ?r _] =>
    assert (noEmptyEntry (stateOf r)) as Ha;
    [|destruct r as [s2|e s2]; cbn [andThen stateOf] in *; [|exact Ha]] end.
  { destruct (isString "ping" ty); [|exact H1].
    match goal with |- context [WebSocketHook.send _ ?m s1] =>
      destruct (send_frame JSON_stringify m s1) as (_ & Hr2 & _) end.
    eapply sameRegistry_noEmptyEntry; [|exact H1]. now rewrite Hr2. }
  now apply dispatch_noEmptyEntry.
Qed.

Lemma step_noEmptyEntry e s : noEmptyEntry s -> noEmptyEntry (step e s).
Proof.
  intros Hs.
  assert (forall s', eventListenersRef (refs s') = eventListenersRef (refs s) ->
                     noEmptyEntry s') as Hsame
    by (intros s' E; now apply (sameRegistry_noEmptyEntry s s')).
  destruct e; cbn [WebSocketHook.step].
  - apply Hsame, connect_keeps.
  - apply Hsame, disconnect_registry.
  - apply Hsame, sendMessage_quiet.
  - now apply addEventListener_noEmptyEntry.
  - now apply removeEventListener_noEmptyEntry.
  - destruct (readyStateOf s k) as [[]|]; try exact Hs.
    apply Hsame. apply (onopen_quiet k token (setReadyState k OPEN s)).
  - destruct (readyStateOf s k) as [[]|]; try exact Hs. now apply onmessage_noEmptyEntry.
  - destruct (readyStateOf s k); [|exact Hs]. apply Hsame, onerror_keeps.
  - destruct (readyStateOf s k) as [[]|]; try exact Hs;
      apply Hsame; apply (onclose_keeps k wasClean (setReadyState k CLOSED s)).
  - destruct (timers (host s) !! t) as [[d r]|];
      [apply Hsame; apply (connect_keeps r a (clearTimeout t s))|].
    destruct (connectTimers (host s) !! t) as [[d r]|]; [|exact Hs].
    apply Hsame. apply (connect_keeps r a (clearTimeout t s)).
  - apply Hsame. unfold reconnect, setConnectTimeout. cbn. apply disconnect_registry.
  - apply Hsame. unfold WebSocketHook.autoConnectEffect, setConnectTimeout.
    destruct (_ && _); cbn; apply autoConnectCleanup_registry.
  - apply Hsame. rewrite cleanupEffect_registry. cbn. apply autoConnectCleanup_registry.
Qed.

Lemma reachable_noEmptyEntry s : reachable s -> noEmptyEntry s.
Proof.
  induction 1 as [|e s _ IH].
  - intros ty. cbn. rewrite lookup_empty. discriminate.
  - now apply step_noEmptyEntry.
Qed.

(** X3.  The registry never keeps a type with no handler: every entry of every
    reachable state has at least one handler, and removing the only handler
    of a type removes the type. *)
Theorem registry_has_no_empty_entry (s : State) (eventType : string) (h : fn) :
  reachable s ->
  eventListenersRef (refs s) !! eventType <> Some [] /\
  (eventListenersRef (refs s) !! eventType = Some [h] ->
   eventListenersRef (refs (removeEventListener eventType h s)) !! eventType = None).
Proof.
  intros Hr. split; [now apply reachable_noEmptyEntry|].
  intros E. unfold removeEventListener. rewrite E. cbn.
  rewrite bool_decide_eq_true_2 by reflexivity. cbn. apply lookup_delete_eq.
Qed.

(** X4.  Registering a handler and then calling the unregister function that
    [addEventListener] returned leaves the registry as it was, when the
    handler was not already registered under that type; for a type with no
    handlers this leaves no entry behind. *)
Theorem register_then_unregister (s : State) (eventType : string) (h : fn) :
  reachable s ->
  h ∉ default [] (eventListenersRef (refs s) !! eventType) ->
  eventListenersRef (refs (removeEventListener eventType h (addEventListener eventType h s)))
  = eventListenersRef (refs s).
Proof.
  intros Hr Hn. pose proof (reachable_noEmptyEntry s Hr eventType) as Hne.
  unfold removeEventListener, addEventListener. cbn.
  rewrite lookup_insert_eq.
  destruct (eventListenersRef (refs s) !! eventType) as [l|] eqn:El; cbn in *.
  - rewrite El. cbn. rewrite (spliceFirst_last h l Hn).
    destruct l as [|x l]; [congruence|].
    rewrite insert_insert_eq. now apply insert_id.
  - rewrite lookup_insert_eq. cbn. rewrite bool_decide_eq_true_2 by reflexivity.
    rewrite !delete_insert_eq. now apply delete_id.
Qed.

(** *** The queue between opens *)

(** X5.  Queued messages wait for an open: no event other than the open of a
    socket and a call of [disconnect] (by the application, by [reconnect],
    or by the cleanup of the auto-connect effect once that effect has run)
    takes a message out of the queue or reorders it; the queue after the
    event is the queue before it, followed by what the event queued. *)
Theorem queue_survives (e : Event) (s : State) :
  (forall k token, e <> SocketOpens k token) -> disconnects e s = false ->
  exists queued,
    messageQueueRef (refs (step e s)) = messageQueueRef (refs s) ++ queued.
Proof.
  intros Hopen Hdisc.
  assert (forall s', keeps s s' ->
            exists queued, messageQueueRef (refs s') = messageQueueRef (refs s) ++ queued)
    as Hk by (intros s' [E _]; exists []; now rewrite app_nil_r).
  assert (autoConnect (host s) = None ->
          messageQueueRef (refs (autoConnectCleanup s)) = messageQueueRef (refs s)) as Hclean
    by (intros E; unfold autoConnectCleanup; now rewrite E).
  destruct e; try discriminate; cbn [WebSocketHook.step].
  - apply Hk, connect_keeps.
  - destruct (currentOpen s) as [k|] eqn:Eo.
    + destruct (send_while_open config JSON_parse JSON_stringify encodeURIComponent
                  behaviour registryCalls (SendMessage authenticated a message) k s
                  eq_refl Eo) as (_ & Hq & _).
      exists []. rewrite app_nil_r. exact Hq.
    + destruct (step_waits config JSON_parse JSON_stringify encodeURIComponent
                  behaviour registryCalls (SendMessage authenticated a message) s
                  eq_refl Eo) as (Hq & _).
      eexists. exact Hq.
  - exists []. now rewrite app_nil_r.
  - exists []. rewrite app_nil_r. unfold removeEventListener. repeat case_match; reflexivity.
  - exfalso. eapply Hopen. reflexivity.
  - destruct (readyStateOf s k) as [[]|]; try (exists []; now rewrite app_nil_r).
    exists []. rewrite app_nil_r.
    apply (onmessage_frame config JSON_parse JSON_stringify behaviour registryCalls
             data now s).
  - destruct (readyStateOf s k); [|exists []; now rewrite app_nil_r].
    apply Hk, onerror_keeps.
  - destruct (readyStateOf s k) as [[]|]; try (exists []; now rewrite app_nil_r);
      apply Hk; apply (onclose_keeps k wasClean (setReadyState k CLOSED s)).
  - destruct (timers (host s) !! t) as [[d r]|];
      [apply Hk; apply (connect_keeps r a (clearTimeout t s))|].
    destruct (connectTimers (host s) !! t) as [[d r]|]; [|exists []; now rewrite app_nil_r].
    apply Hk. apply (connect_keeps r a (clearTimeout t s)).
  - cbn in Hdisc. apply bool_decide_eq_false in Hdisc.
    assert (autoConnect (host s) = None) as E
      by (destruct (autoConnect (host s)); [exfalso; apply Hdisc; eauto | reflexivity]).
    exists []. rewrite app_nil_r, <- (Hclean E).
    unfold WebSocketHook.autoConnectEffect, setConnectTimeout.
    destruct (_ && _); reflexivity.
  - cbn in Hdisc. apply bool_decide_eq_false in Hdisc.
    assert (autoConnect (host s) = None) as E
      by (destruct (autoConnect (host s)); [exfalso; apply Hdisc; eauto | reflexivity]).
    exists []. rewrite app_nil_r, <- (Hclean E).
    apply (cleanupEffect_line (setAutoConnect None (autoConnectCleanup s))).
Qed.

(** X6.  [sendMessage] throws only at the serialisation of line 692, and then
    before it has queued or sent anything: for a message that
    [JSON.stringify] rejects it throws and leaves the state as it was; for
    any other message it returns, handing a frame to the socket only when
    the socket is open, and when no socket is open it puts nothing on the
    wire ([connect] keeps its failures to itself). *)
Theorem sendMessage_throws_only_at_stringify
    (r : Render) (a : Ambient) (m : Message) (s : State) :
  (messageData m = None -> sendMessage r a m s = Threw "TypeError" s) /\
  (messageData m <> None -> returned (sendMessage r a m s) = true) /\
  (currentOpen s = None -> wire (host (stateOf (sendMessage r a m s))) = wire (host s)).
Proof.
  unfold WebSocketHook.sendMessage.
  destruct (messageData m) as [d|]; [|cbn; split; [auto | split; [congruence | auto]]].
  split; [discriminate|].
  destruct (currentOpen s) as [k|] eqn:Eo.
  - split; [|discriminate]. intros _. unfold wsSend.
    assert (readyStateOf s k = Some OPEN) as ->.
    { unfold currentOpen in Eo. destruct (socketRef (refs s)); [|discriminate].
      case_bool_decide; [|discriminate]. congruence. }
    reflexivity.
  - split; [destruct (negb _ && negb _); reflexivity|]. intros _.
    destruct (negb _ && negb _); cbn [stateOf]; [|reflexivity].
    match goal with |- context [WebSocketHook.connect _ _ r a ?s0] =>
      destruct (connect_queue config encodeURIComponent r a s0 Eo) as (_ & Hw & _) end.
    exact Hw.
Qed.

(** *** Closing *)

(** X7.  A close event that arrives after [disconnect] and is reported unclean
    (the socket was closed before its handshake ended, say) arms a
    reconnect: [disconnect] has reset the counter and the handler has no
    record that the close was asked for. *)
Theorem unclean_close_after_disconnect_reconnects (s : State) (k : nat) (w : WebSocket) :
  socketRef (refs s) = Some k ->
  sockets (host s) !! k = Some w ->
  readyState w = CONNECTING \/ readyState w = OPEN ->
  enableReconnect config = true ->
  (0 < maxReconnectAttempts config)%Z ->
  (forall f, onClose config = Some f -> behaviour f (closeEvent false) = None) ->
  let s' := step (SocketCloses k false) (disconnect s) in
  reconnectAttemptsRef (refs s') = 1 /\
  reconnectTimeoutRef (refs s') = Some (nextTimer (host s)) /\
  timers (host s') !! nextTimer (host s) = Some (reconnectInterval config, wsRender w).
Proof.
  intros Hk Hw Hrs Her Hmax Hcb.
  assert (readyStateOf s k = Some (readyState w)) as Hr0
    by (unfold readyStateOf; now rewrite Hw).
  assert (readyStateOf (disconnect s) k = Some CLOSING) as Hr.
  { assert (exists s1, disconnect s = setMessageQueueRef [] (setReconnectAttemptsRef 0
              (setIsConnectingRef false (setConnecting false (setConnected false
                (setSocket None (setSocketRef None (wsClose k s1)))))))
              /\ sockets (host s1) = sockets (host s)) as (s1 & E & Hs1).
    { unfold disconnect. fold (cancelReconnect s).
      assert (socketRef (refs (cancelReconnect s)) = Some k /\
              sockets (host (cancelReconnect s)) = sockets (host s)) as [-> ?]
        by (unfold cancelReconnect; destruct (reconnectTimeoutRef (refs s)); cbn; auto).
      eexists; split; [reflexivity | auto]. }
    rewrite E.
    change (readyStateOf (wsClose k s1) k = Some CLOSING).
    rewrite (wsClose_readyState k s1 (readyState w))
      by (unfold readyStateOf; now rewrite Hs1, Hw).
    destruct Hrs as [-> | ->]; reflexivity. }
  assert (nextTimer (host (disconnect s)) = nextTimer (host s) /\
          exists w', sockets (host (disconnect s)) !! k = Some w' /\ wsRender w' = wsRender w)
    as (Hn & w' & Hw' & Hrender).
  { unfold disconnect, cancelReconnect, wsClose.
    destruct (reconnectTimeoutRef (refs s)); cbn; rewrite Hk; cbn;
      unfold readyStateOf; cbn; rewrite Hw; cbn;
      destruct Hrs as [-> | ->]; cbn; (split; [reflexivity|]);
      rewrite list_lookup_alter_eq, Hw; cbn; eauto. }
  intros s'. unfold s'. cbn [WebSocketHook.step]. rewrite Hr.
  assert (sockets (host (setReadyState k CLOSED (disconnect s))) !! k
          = Some {| wsUrl := wsUrl w'; readyState := CLOSED; wsRender := wsRender w' |}) as Hw2
    by (apply setReadyState_lookup; exact Hw').
  destruct (onclose_schedules config behaviour k _ (setReadyState k CLOSED (disconnect s))
              Hw2 Her)
    as (H1 & H2 & H3); auto.
  assert (nextTimer (host (setReadyState k CLOSED (disconnect s))) = nextTimer (host s))
    as Hn' by exact Hn.
  rewrite Hn' in H2, H3. cbn [wsRender] in H3. rewrite Hrender in H3.
  split; [exact H1|]. split; [exact H2 | exact H3].
Qed.

(** *** Payloads *)

(** X8.  A payload that is not JSON is not dropped: it is wrapped as
    [{ type: 'raw', data }] and handed to the [forEach] over the handlers
    registered under ['raw'], which calls them in order up to the first
    that throws when none of them registers or unregisters a ['raw']
    listener meanwhile; no heartbeat reply is sent for it. *)
Theorem malformed_payload_is_dispatched_raw
    (data now : string) (s : State) (hs : list fn) :
  JSON_parse data = None ->
  (forall f, onMessage config = Some f -> behaviour f (messageEvent data) = None) ->
  eventListenersRef (refs s) !! "raw" = Some hs ->
  let raw := JObj [("type", JStr "raw"); ("data", JStr data)] in
  calls (host (stateOf (onmessage data now s)))
  = calls (host s) ++ onMessageCall config data
      ++ map (fun h => (h, raw)) (dispatched behaviour registryCalls "raw" raw hs) /\
  wire (host (stateOf (onmessage data now s))) = wire (host s) /\
  ((forall h, h ∈ hs -> leavesAlone registryCalls "raw" h raw = true) ->
   dispatched behaviour registryCalls "raw" raw hs = reached behaviour raw hs).
Proof.
  intros Hp Hcb Hl raw.
  assert (parsed JSON_parse data = raw) as Hraw by (unfold parsed; now rewrite Hp).
  destruct (onmessage_dispatch config JSON_parse JSON_stringify
              behaviour registryCalls data now (JStr "raw") s) as [Hw Hc]; auto.
  { rewrite Hraw. reflexivity. }
  rewrite Hw, Hc, Hraw. cbn [isString dispatchedFor]. rewrite Hl.
  rewrite bool_decide_eq_false_2 by discriminate. rewrite app_nil_r.
  split; [reflexivity|]. split; [reflexivity|]. apply dispatched_alone.
Qed.

(** X9.  A payload that parses to [null] makes the message handler throw a
    TypeError at [parsed.type]: the message is recorded and [onMessage] is
    called, but no reply is sent and no handler runs. *)
Theorem null_payload_throws (data now : string) (s : State) :
  JSON_parse data = Some JNull ->
  (forall f, onMessage config = Some f -> behaviour f (messageEvent data) = None) ->
  exists s', onmessage data now s = Threw "TypeError" s' /\
    lastMessage (ui s') = Some data /\
    calls (host s') = calls (host s) ++ onMessageCall config data /\
    wire (host s') = wire (host s).
Proof.
  intros Hp Hcb. unfold WebSocketHook.onmessage. rewrite Hp. cbn [getProp].
  unfold onMessageCall.
  destruct (onMessage config) as [f|] eqn:Ef; cbn [WebSocketHook.callIfSet].
  - unfold WebSocketHook.call. rewrite (Hcb f eq_refl). cbn [andThen].
    eexists. split; [reflexivity|].
    destruct (enableMessageHistory config); cbn; auto.
  - cbn [andThen]. eexists. split; [reflexivity|].
    destruct (enableMessageHistory config); cbn; rewrite app_nil_r; auto.
Qed.

(** *** The credential on the channel *)

Lemma substring_all (t : string) : String.substring 0 (String.length t) t = t.
Proof. induction t as [|c t IH]; cbn; [reflexivity | now rewrite IH]. Qed.

(** [cleanToken] takes one ['Bearer '] prefix off a token and leaves a
    token without the prefix as it is. *)
Theorem cleanToken_strips_prefix (t : string) :
  cleanToken ("Bearer " +:+ t) = t /\
  (String.prefix "Bearer " t = false -> cleanToken t = t).
Proof.
  split.
  - unfold cleanToken.
    assert (String.prefix "Bearer " ("Bearer " +:+ t) = true) as ->
      by (destruct t; reflexivity).
    cbv [append]. simpl. rewrite Nat.sub_0_r. apply substring_all.
  - intros H. unfold cleanToken. now rewrite H.
Qed.

(** X10.  The credential travels one way only: when [connect] put a token in
    the address of the socket it created, the open of that socket sends no
    authentication frame, and when an authentication frame is due the
    address is the configured one. *)
Theorem credential_in_address_or_frame
    (r : Render) (a : Ambient) (s : State) (token : option string) :
  let s' := connect r a s in
  let k := length (sockets (host s)) in
  forall w, sockets (host s') !! k = Some w ->
    (wsUrl w <> url config -> authFrames config JSON_stringify k token s' = []) /\
    (authFrames config JSON_stringify k token s' <> [] -> wsUrl w = url config).
Proof.
  intros s' k w Hw.
  assert (wsUrl w <> url config -> authMethod config = "url") as Hurl.
  { unfold s', WebSocketHook.connect in Hw. revert Hw.
    repeat case_match; cbn; intros Hw.
    all: try (apply lookup_lt_Some in Hw; unfold k in Hw; lia).
    all: try (rewrite lookup_app_r in Hw by (unfold k; lia);
              unfold k in Hw; rewrite Nat.sub_diag in Hw; inversion Hw; subst w; cbn;
              try congruence).
    all: intros _; repeat match goal with
         | H : _ && _ = true |- _ => apply andb_prop in H; destruct H
         | H : bool_decide _ = true |- _ => apply bool_decide_eq_true in H
         end; assumption. }
  assert (authFrames config JSON_stringify k token s' <> [] -> authMethod config = "message")
    as Hframe.
  { unfold authFrames. rewrite Hw. destruct (enableAuth config && _); cbn [andb]; [|congruence].
    case_bool_decide; congruence. }
  split.
  - intros Hne. specialize (Hurl Hne).
    unfold authFrames. rewrite Hw, Hurl.
    rewrite (bool_decide_eq_false_2 ("url" = "message")) by discriminate.
    now rewrite andb_false_r.
  - intros Hf. specialize (Hframe Hf).
    destruct (decide (wsUrl w = url config)) as [E|Hne]; [exact E|].
    specialize (Hurl Hne). congruence.
Qed.

End Hook.

(** *** On the concrete connection *)

Abbreviation reachableHere := (reachable channel parse print id handlers oneShot).
Abbreviation stepHere := (step channel parse print id handlers oneShot).

Lemma initial_reachable : reachableHere initialState.
Proof. constructor. Qed.

(** The hook after [connect()] and an unclean close of its socket: the
    reconnect timer (timer 0) is pending. *)
Definition waiting : State :=
  go [Connect true nothing; SocketCloses 0 false] initialState.

Lemma waiting_reachable : reachableHere waiting.
Proof. apply run_reachable, initial_reachable. Qed.

Lemma one_reconnect_timer_witness :
  is_Some (timers (host waiting) !! 0) /\
  (0 = 0 /\ reconnectTimeoutRef (refs waiting) = Some 0 /\
   connectTimers (host waiting) !! 0 = None /\
   (forall t, is_Some (connectTimers (host waiting) !! t) ->
      reconnectTimeoutRef (refs waiting) <> Some t)).
Proof.
  assert (is_Some (timers (host waiting) !! 0)) as H
    by (vm_compute; eexists; reflexivity).
  exact (conj H (one_reconnect_timer channel parse print id handlers oneShot waiting 0 0
                   waiting_reachable H H)).
Defined.

(** Two calls of [reconnect] in a row leave two timers pending, neither
    held by the ref and neither cancelled by the [disconnect] of the second
    call; when they fire, the first connects and the second finds the
    connection under way. *)
Example reconnect_timers_are_not_held :
  connectTimers (host (go [Reconnect true; Reconnect true] initialState))
  = {[ 0 := (100%Z, latest true initialState); 1 := (100%Z, latest true initialState) ]} /\
  reconnectTimeoutRef (refs (go [Reconnect true; Reconnect true] initialState)) = None /\
  length (sockets (host (go [Reconnect true; Reconnect true; TimerFires 0 nothing;
                             TimerFires 1 nothing] initialState))) = 1.
Proof. vm_compute. repeat split; reflexivity. Qed.

(** The hook after a call of [reconnect] and an unclean close of the
    socket it had: one timer of each kind is pending. *)
Definition waitingTwice : State :=
  go [Connect true nothing; SocketOpens 0 None; Reconnect true; SocketCloses 0 false]
     initialState.

Lemma disconnect_leaves_nothing_pending_witness :
  is_Some (timers (host waiting) !! 0) /\
  timers (host (disconnect waiting)) = ∅ /\
  reconnectAttemptsRef (refs waiting) = 1 /\
  reconnectAttemptsRef (refs (disconnect waiting)) = 0 /\
  connectTimers (host (disconnect waiting)) = connectTimers (host waiting).
Proof.
  destruct (disconnect_leaves_nothing_pending channel parse print id handlers oneShot waiting
              waiting_reachable) as (H1 & _ & _ & H4 & _ & _ & _ & H8 & _).
  assert (is_Some (timers (host waiting) !! 0)) as H
    by (vm_compute; eexists; reflexivity).
  assert (reconnectAttemptsRef (refs waiting) = 1) as Ha by (vm_compute; reflexivity).
  exact (conj H (conj H1 (conj Ha (conj H4 H8)))).
Defined.

Example disconnect_keeps_connect_timer :
  is_Some (timers (host waitingTwice) !! 1) /\
  is_Some (connectTimers (host waitingTwice) !! 0) /\
  timers (host (disconnect waitingTwice)) !! 1 = None /\
  is_Some (connectTimers (host (disconnect waitingTwice)) !! 0) /\
  length (sockets (host (go [Disconnect; TimerFires 0 nothing] waitingTwice))) = 2.
Proof. vm_compute. repeat split; eexists; reflexivity. Qed.

Lemma listeningForPing_reachable : reachableHere listeningForPing.
Proof. apply run_reachable, run_reachable, initial_reachable. Qed.

Lemma registry_has_no_empty_entry_witness :
  eventListenersRef (refs listeningForPing) !! "ping" = Some [7] /\
  eventListenersRef (refs (removeEventListener "ping" 7 listeningForPing)) !! "ping" = None.
Proof.
  assert (eventListenersRef (refs listeningForPing) !! "ping" = Some [7]) as H
    by (vm_compute; reflexivity).
  destruct (registry_has_no_empty_entry channel parse print id handlers oneShot
              listeningForPing "ping" 7 listeningForPing_reachable) as [_ H2].
  exact (conj H (H2 H)).
Defined.

Lemma register_then_unregister_witness :
  eventListenersRef (refs listeningForPing) !! "chat" = None /\
  eventListenersRef (refs (removeEventListener "chat" 3
                             (addEventListener "chat" 3 listeningForPing)))
  = eventListenersRef (refs listeningForPing).
Proof.
  assert (eventListenersRef (refs listeningForPing) !! "chat" = None) as H
    by (vm_compute; reflexivity).
  refine (conj H (register_then_unregister channel parse print id handlers oneShot
                    listeningForPing "chat" 3 listeningForPing_reachable _)).
  rewrite H. cbn. apply not_elem_of_nil.
Defined.

(** A message queued before the connection was lost stays queued through
    the close and the reconnect. *)
Definition queuedThenClosed : State :=
  go [SendMessage true nothing (Text "a")] initialState.

Lemma queue_survives_witness :
  messageQueueRef (refs queuedThenClosed) = ["a"] /\
  exists queued,
    messageQueueRef (refs (stepHere (SocketCloses 0 false) queuedThenClosed))
    = messageQueueRef (refs queuedThenClosed) ++ queued.
Proof.
  split; [vm_compute; reflexivity|].
  apply (queue_survives channel parse print id handlers oneShot);
    [discriminate | reflexivity].
Defined.

(** The hook right after [connect()]: socket 0 is connecting. *)
Definition connectingNow : State := go [Connect true nothing] initialState.

Lemma unclean_close_after_disconnect_reconnects_witness :
  socketRef (refs connectingNow) = Some 0 /\
  readyStateOf connectingNow 0 = Some CONNECTING /\
  reconnectAttemptsRef (refs (stepHere (SocketCloses 0 false) (disconnect connectingNow))) = 1 /\
  reconnectTimeoutRef (refs (stepHere (SocketCloses 0 false) (disconnect connectingNow)))
  = Some (nextTimer (host connectingNow)).
Proof.
  assert (socketRef (refs connectingNow) = Some 0) as Hk by (vm_compute; reflexivity).
  assert (readyStateOf connectingNow 0 = Some CONNECTING) as Hr by (vm_compute; reflexivity).
  destruct (unclean_close_after_disconnect_reconnects channel parse print id handlers oneShot
              connectingNow 0
              {| wsUrl := "ws://host/ws"; readyState := CONNECTING;
                 wsRender := {| r_authenticated := true; r_connecting := false;
                                r_connected := false |} |}
              Hk) as (H1 & H2 & _).
  - vm_compute. reflexivity.
  - left. reflexivity.
  - reflexivity.
  - reflexivity.
  - intros f Hf. discriminate Hf.
  - exact (conj Hk (conj Hr (conj H1 H2))).
Defined.

(** The open hook with handler 6 registered under ['raw']. *)
Definition listeningForRaw : State := go [AddEventListener "raw" 6] opened.

Lemma malformed_payload_is_dispatched_raw_witness :
  parse "<html>" = None /\
  calls (host (stateOf (receive "<html>" "now" listeningForRaw)))
  = calls (host listeningForRaw) ++ onMessageCall channel "<html>"
      ++ map (fun h => (h, JObj [("type", JStr "raw"); ("data", JStr "<html>")]))
           (dispatched handlers oneShot "raw"
              (JObj [("type", JStr "raw"); ("data", JStr "<html>")]) [6]) /\
  wire (host (stateOf (receive "<html>" "now" listeningForRaw)))
  = wire (host listeningForRaw) /\
  ((forall h, h ∈ [6] ->
      leavesAlone oneShot "raw" h (JObj [("type", JStr "raw"); ("data", JStr "<html>")])
      = true) ->
   dispatched handlers oneShot "raw"
     (JObj [("type", JStr "raw"); ("data", JStr "<html>")]) [6]
   = reached handlers (JObj [("type", JStr "raw"); ("data", JStr "<html>")]) [6]).
Proof.
  refine (conj eq_refl
            (malformed_payload_is_dispatched_raw channel parse print handlers oneShot
               "<html>" "now" listeningForRaw [6] _ _ _)).
  - vm_compute. reflexivity.
  - intros f Hf. injection Hf as <-. vm_compute. reflexivity.
  - vm_compute. reflexivity.
Defined.

(** A parser that also knows the JSON text [null]. *)
Definition parseNull (data : string) : option JsVal :=
  if bool_decide (data = "null") then Some JNull else parse data.

Lemma null_payload_throws_witness :
  parseNull "null" = Some JNull /\
  exists s', onmessage channel parseNull print handlers oneShot "null" "now" listeningForPing
             = Threw "TypeError" s' /\
    lastMessage (ui s') = Some "null" /\
    calls (host s') = calls (host listeningForPing) ++ onMessageCall channel "null" /\
    wire (host s') = wire (host listeningForPing).
Proof.
  refine (conj eq_refl
            (null_payload_throws channel parseNull print handlers oneShot
               "null" "now" listeningForPing _ _)).
  - vm_compute. reflexivity.
  - intros f Hf. injection Hf as <-. vm_compute. reflexivity.
Defined.

(** A channel that authenticates in the address. *)
Definition withUrlAuth : Config :=
  {| url := "ws://host/ws"; reconnectInterval := 100; maxReconnectAttempts := 3;
     enableReconnect := true; enableMessageHistory := true; enableAuth := true;
     protocols := []; authMethod := "url";
     onOpen := None; onMessage := None; onError := None; onClose := None |}.

Definition signedInRender : Render :=
  {| r_authenticated := true; r_connecting := false; r_connected := false |}.

Definition bearer : Ambient :=
  {| tokenNow := Some "Bearer abc"; webSocketThrows := None |}.

Lemma credential_in_address_or_frame_witness :
  sockets (host (connect withUrlAuth id signedInRender bearer initialState)) !! 0
  = Some {| wsUrl := "ws://host/ws?token=abc"; readyState := CONNECTING;
            wsRender := signedInRender |} /\
  authFrames withUrlAuth print 0 (Some "Bearer abc")
    (connect withUrlAuth id signedInRender bearer initialState) = [].
Proof.
  assert (sockets (host (connect withUrlAuth id signedInRender bearer initialState)) !! 0
          = Some {| wsUrl := "ws://host/ws?token=abc"; readyState := CONNECTING;
                    wsRender := signedInRender |}) as H by (vm_compute; reflexivity).
  destruct (credential_in_address_or_frame withUrlAuth print id signedInRender bearer
              initialState (Some "Bearer abc") _ H) as [H1 _].
  refine (conj H (H1 _)). discriminate.
Defined.

End WebSocketInvariants.

(** ** More on the gateway interceptor *)
Module ApiMore.
Import ErrorService ApiService ApiProofs.

Section Interceptor.

Variable getErrorMessage : string -> string.

Abbreviation onRejected := (onRejected getErrorMessage).
Abbreviation afterRefresh := (afterRefresh getErrorMessage).
Abbreviation afterRetry := (afterRetry getErrorMessage).
Abbreviation handleApiError := (handleApiError getErrorMessage).

(** *** Toasts *)

Lemma displayToast_cases error kind m :
  displayToast error kind m
  = if bool_decide (showErrorToast (config error) = Some true) then Some (kind, m) else None.
Proof. reflexivity. Qed.

Lemma quiet_request_has_no_toast error :
  showErrorToast (config error) <> Some true -> snd (handleApiError error) = None.
Proof.
  intros Hne. unfold ErrorService.handleApiError.
  remember (effectiveStatus error) as st eqn:Est.
  repeat case_match; cbn [snd]; rewrite displayToast_cases;
    rewrite bool_decide_eq_false_2 by exact Hne; reflexivity.
Qed.

(** X11.  [handleApiError] shows a toast only for a request whose config has
    [showErrorToast === true]; the toast is a warning for status 429 and
    an error for every other status. *)
Theorem toast_only_when_asked (error : AxiosError) :
  (showErrorToast (config error) <> Some true -> snd (handleApiError error) = None) /\
  (forall kind m, snd (handleApiError error) = Some (kind, m) ->
     showErrorToast (config error) = Some true /\
     (kind = toast_warning <-> effectiveStatus error = Code 429)).
Proof.
  split; [apply quiet_request_has_no_toast|].
  unfold ErrorService.handleApiError.
  remember (effectiveStatus error) as st eqn:Est.
  - intros kind m.
    repeat case_match; cbn [snd]; rewrite displayToast_cases; case_bool_decide;
      intros [= <- <-]; (split; [assumption|]);
      split; intros; try reflexivity; try discriminate; try congruence.
Qed.

(** *** The end of a refresh *)

(** The credential a refresh ended with, if it succeeded: the refresh
    resolved with [true] and [getTokenFunction()] then gave a token. *)
Definition refreshedToken (refreshed : answer bool) (tokenNow : answer (option string))
    (s : State) : option string :=
  match refreshed, getTokenFunction s, tokenNow with
  | Gives true, Some _, Gives newToken => truthy newToken
  | _, _, _ => None
  end.

(** X12.  A refresh that did not end with a new credential, whether it failed,
    reported that nothing was refreshed, or left no token, ends in one call
    of logout and in the rejection of the request without a toast; a
    refresh that ended with a credential makes no logout call and sends
    the request again with it.  Either way no second refresh is made. *)
Theorem refresh_ends_in_retry_or_logout
    (refreshed : answer bool) (tokenNow : answer (option string))
    (error : AxiosError) (s : State) :
  is_Some (logoutFunction s) ->
  match refreshedToken refreshed tokenNow s with
  | None =>
      let quiet := withConfig (setShowErrorToast (Some false)) error in
      afterRefresh refreshed tokenNow error s
      = (emit (Handled quiet (fst (handleApiError quiet)) None)
           (setIsRefreshingToken false (emit CalledLogout s)),
         Rejected quiet)
  | Some t =>
      let again := withConfig (setAuthorization (Some ("Bearer " +:+ t))) error in
      afterRefresh refreshed tokenNow error s
      = (emit (Resent (config again)) s, AwaitingRetry again)
  end.
Proof.
  intros [f Hf].
  assert (refreshFailed getErrorMessage error s
          = (emit (Handled (withConfig (setShowErrorToast (Some false)) error)
                     (fst (handleApiError (withConfig (setShowErrorToast (Some false)) error)))
                     None)
               (setIsRefreshingToken false (emit CalledLogout s)),
             Rejected (withConfig (setShowErrorToast (Some false)) error))) as Hfail.
  { unfold refreshFailed, logoutQuietly. rewrite Hf. unfold surface.
    pose proof (quiet_request_has_no_toast
                  (withConfig (setShowErrorToast (Some false)) error)) as Hno.
    destruct (ErrorService.handleApiError getErrorMessage
                (withConfig (setShowErrorToast (Some false)) error)) as [l t] eqn:E.
    cbn [fst snd] in *. rewrite Hno by discriminate. reflexivity. }
  unfold refreshedToken, ApiService.afterRefresh.
  destruct refreshed as [[]|]; try exact Hfail.
  destruct (getTokenFunction s); try exact Hfail.
  destruct tokenNow as [newToken|]; try exact Hfail.
  destruct (truthy newToken); [reflexivity | exact Hfail].
Qed.

(** X13.  Once a refresh has been started, whatever the provider and the
    backend then answer, the run ends with the in-flight flag cleared. *)
Theorem refresh_flag_is_released
    (refreshed : answer bool) (tokenNow : answer (option string))
    (answer : JsVal + AxiosError) (error : AxiosError) (s : State) :
  let '(s1, o1) := afterRefresh refreshed tokenNow error s in
  match o1 with
  | AwaitingRetry again => isRefreshingToken (fst (afterRetry answer again s1)) = false
  | _ => isRefreshingToken s1 = false
  end.
Proof.
  assert (forall e s0, isRefreshingToken (fst (refreshFailed getErrorMessage e s0)) = false
                       /\ exists e', snd (refreshFailed getErrorMessage e s0) = Rejected e')
    as Hfail.
  { intros e s0. unfold refreshFailed, logoutQuietly, surface.
    destruct (logoutFunction s0);
      destruct (ErrorService.handleApiError _ _); cbn; eauto. }
  assert (forall e s0, let '(s1, o1) := refreshFailed getErrorMessage e s0 in
            match o1 with
            | AwaitingRetry again => isRefreshingToken (fst (afterRetry answer again s1)) = false
            | _ => isRefreshingToken s1 = false
            end) as Hcase.
  { intros e s0. destruct (Hfail e s0) as [H1 [e' H2]].
    destruct (refreshFailed getErrorMessage e s0) as [s1 o1]. cbn in *. now subst o1. }
  unfold ApiService.afterRefresh.
  destruct refreshed as [[]|]; try apply Hcase.
  destruct (getTokenFunction s); try apply Hcase.
  destruct tokenNow as [newToken|]; try apply Hcase.
  destruct (truthy newToken); try apply Hcase.
  unfold ApiService.afterRetry. destruct answer as [v|e]; [reflexivity|].
  apply Hfail.
Qed.

(** *** When a refresh is started *)

(** X14.  A run of the rejected branch starts a refresh exactly when the
    response is a 401 without a password message, on a request that is
    neither credential-exempt nor a retry, no refresh is in flight and a
    refresh function is configured; every other run ends at once in a
    rejection, having called no refresh. *)
Theorem refresh_only_for_expired_credential (error : AxiosError) (s : State) :
  ((exists e, snd (onRejected error s) = AwaitingRefresh e) <->
   expired error /\ isRefreshingToken s = false /\ is_Some (updateTokenFunction s)) /\
  ((forall e, snd (onRejected error s) <> AwaitingRefresh e) ->
   (exists e, snd (onRejected error s) = Rejected e) /\
   List.filter (fun x => match x with CalledUpdateToken _ => true | _ => false end)
     (effects (fst (onRejected error s)))
   = List.filter (fun x => match x with CalledUpdateToken _ => true | _ => false end)
       (effects s)).
Proof.
  assert (forall e s0, (exists e', snd (surface getErrorMessage e s0) = Rejected e') /\
            (forall e', snd (surface getErrorMessage e s0) <> AwaitingRefresh e') /\
            effects (fst (surface getErrorMessage e s0))
            = effects s0 ++ [Handled e (fst (handleApiError e)) (snd (handleApiError e))])
    as Hsurf.
  { intros e s0. unfold surface. destruct (ErrorService.handleApiError _ _); cbn.
    split; [eauto|]. split; [discriminate | reflexivity]. }
  assert (forall l e l' t, List.filter
            (fun x => match x with CalledUpdateToken _ => true | _ => false end)
            (l ++ [Handled e l' t])
          = List.filter (fun x => match x with CalledUpdateToken _ => true | _ => false end) l)
    as Hfilter by (intros; rewrite List.filter_app; cbn; apply app_nil_r).
  unfold ApiService.onRejected, expired. fold (bodyMessage error).
  destruct (bool_decide (status <$> response error = Some 401%Z)) eqn:E401;
    [apply bool_decide_eq_true in E401 | apply bool_decide_eq_false in E401].
  2:{ cbn [andb]. destruct (Hsurf error s) as (Hr & Hn & He). split.
      - split; [intros [e He']; exfalso; eapply Hn; eauto | intros (H & _); tauto].
      - intros _. split; [exact Hr|]. rewrite He. apply Hfilter. }
  destruct (noToken (config error)) eqn:Ent; cbn [negb andb].
  { destruct (Hsurf error s) as (Hr & Hn & He). split.
    - split; [intros [e He']; exfalso; eapply Hn; eauto | intros ((_ & H & _) & _); discriminate].
    - intros _. split; [exact Hr|]. rewrite He. apply Hfilter. }
  destruct (isRefreshingToken s) eqn:Erf; cbn [negb].
  { destruct (Hsurf error s) as (Hr & Hn & He). split.
    - split; [intros [e He']; exfalso; eapply Hn; eauto | intros (_ & H & _); discriminate].
    - intros _. split; [exact Hr|]. rewrite He. apply Hfilter. }
  destruct (isPasswordError (bodyMessage error)) eqn:Epw.
  { destruct (Hsurf (setCustomStatus (Some "incorrect") error) s) as (Hr & Hn & He). split.
    - split; [intros [e He']; exfalso; eapply Hn; eauto
             | intros ((_ & _ & _ & H) & _); discriminate].
    - intros _. split; [exact Hr|]. rewrite He. apply Hfilter. }
  destruct (_retry (config error)) eqn:Ert; cbn [negb andb].
  { unfold logoutQuietly. destruct (logoutFunction s).
    - match goal with |- context [surface _ ?e ?s0] =>
        destruct (Hsurf e s0) as (Hr & Hn & He) end. split.
      + split; [intros [e He']; exfalso; eapply Hn; eauto
               | intros ((_ & _ & H & _) & _); discriminate].
      + intros _. split; [exact Hr|]. rewrite He, Hfilter. cbn.
        rewrite List.filter_app. cbn. apply app_nil_r.
    - destruct (Hsurf error s) as (Hr & Hn & He). split.
      + split; [intros [e He']; exfalso; eapply Hn; eauto
               | intros ((_ & _ & H & _) & _); discriminate].
      + intros _. split; [exact Hr|]. rewrite He. apply Hfilter. }
  destruct (updateTokenFunction s) as [u|] eqn:Eu.
  - rewrite bool_decide_eq_true_2 by eauto. cbn [snd fst]. split.
    + split; [intros _; repeat split; eauto | eauto].
    + intros Hn. exfalso. eapply Hn. reflexivity.
  - rewrite bool_decide_eq_false_2 by (intros [? ?]; discriminate).
    unfold logoutQuietly. destruct (logoutFunction s).
    + match goal with |- context [surface _ ?e ?s0] =>
        destruct (Hsurf e s0) as (Hr & Hn & He) end. split.
      * split; [intros [e He']; exfalso; eapply Hn; eauto
               | intros (_ & _ & [? H]); discriminate].
      * intros _. split; [exact Hr|]. rewrite He, Hfilter. cbn.
        rewrite List.filter_app. cbn. apply app_nil_r.
    + destruct (Hsurf error s) as (Hr & Hn & He). split.
      * split; [intros [e He']; exfalso; eapply Hn; eauto
               | intros (_ & _ & [? H]); discriminate].
      * intros _. split; [exact Hr|]. rewrite He. apply Hfilter.
Qed.

(** *** The request that is sent again *)

(** X15.  The request sent again after a refresh passes the request interceptor
    unchanged, whatever [getTokenFunction()] gives at that moment: it keeps
    the credential the refresh gave it. *)
Theorem resent_request_keeps_new_credential
    (t : string) (later : answer (option string)) (error : AxiosError) (s' : State) :
  noToken (config error) = false ->
  let again := withConfig (setAuthorization (Some ("Bearer " +:+ t))) error in
  onRequest later (config again) s' = config again /\
  authorization (onRequest later (config again) s') = Some ("Bearer " +:+ t).
Proof.
  intros Hn again. unfold onRequest. cbn [config again withConfig noToken setAuthorization].
  rewrite Hn.
  assert (truthy (authorization (setAuthorization (Some ("Bearer " +:+ t)) (config error)))
          = Some ("Bearer " +:+ t)) as ->
    by (cbn; rewrite bool_decide_eq_false_2 by discriminate; reflexivity).
  rewrite bool_decide_eq_true_2 by eauto. auto.
Qed.

End Interceptor.

(** *** On the concrete requests *)

(** The provider reported that the token is still valid: the request is
    rejected, and the user is logged out. *)
Lemma refresh_ends_in_retry_or_logout_witness :
  is_Some (logoutFunction wired) /\
  refreshedToken (Gives false) (Gives (Some "t")) wired = None /\
  afterRefresh defaults (Gives false) (Gives (Some "t")) expiredA wired
  = (emit (Handled (withConfig (setShowErrorToast (Some false)) expiredA)
             (fst (handleApiError defaults (withConfig (setShowErrorToast (Some false)) expiredA)))
             None)
       (setIsRefreshingToken false (emit CalledLogout wired)),
     Rejected (withConfig (setShowErrorToast (Some false)) expiredA)).
Proof.
  assert (is_Some (logoutFunction wired)) as H by (eexists; reflexivity).
  exact (conj H (conj eq_refl
           (refresh_ends_in_retry_or_logout defaults (Gives false) (Gives (Some "t"))
              expiredA wired H))).
Defined.

Lemma resent_request_keeps_new_credential_witness :
  noToken (config expiredA) = false /\
  authorization
    (onRequest (Gives (Some "other"))
       (config (withConfig (setAuthorization (Some ("Bearer " +:+ "new"))) expiredA)) wired)
  = Some ("Bearer " +:+ "new").
Proof.
  destruct (resent_request_keeps_new_credential "new" (Gives (Some "other")) expiredA
              wired eq_refl) as [_ H].
  exact (conj eq_refl H).
Defined.

End ApiMore.

(** ** The fulfilled branch of the response interceptor *)
Module ResponseProofs.
Import ErrorService ApiResponses.

(** X16.  The fulfilled branch takes one envelope off: a body with a [data]
    field that is not [undefined] resolves to that field, [null] included;
    any other body, falsy ones included, resolves to itself. *)
Theorem envelope_is_unwrapped_once (response : Response) :
  (forall props v,
     data response = JObj props -> assoc "data" props = Some v -> v <> JUndefined ->
     snd (onFulfilled response) = v) /\
  ((forall props, data response = JObj props ->
      assoc "data" props = None \/ assoc "data" props = Some JUndefined) ->
   snd (onFulfilled response) = data response).
Proof.
  unfold onFulfilled. cbn [snd]. split.
  - intros props v -> Ha Hv. cbn. rewrite Ha. cbn. destruct v; [congruence | reflexivity ..].
  - intros H. destruct (data response) as [| |b|n|t|props] eqn:E; cbn;
      try reflexivity; try (now rewrite andb_false_r);
      try (destruct (negb _); reflexivity); try (destruct b; reflexivity).
    destruct (H props eq_refl) as [-> | ->]; reflexivity.
Qed.

(** X17.  The success toast is shown only for a request whose config has
    [showSuccessToast === true], and then only when a success message is
    there: [successMessage], or else [messageMap.success]. *)
Theorem success_toast_only_when_asked (response : Response) (m : string) :
  fst (onFulfilled response) = Some m ->
  showSuccessToast response = Some true /\ m <> "" /\
  (successMessage response = Some m \/
   truthy (successMessage response) = None /\
   (messageMap response ≫= fun t => t !! Tag "success") = Some m).
Proof.
  unfold onFulfilled. cbn [fst].
  assert (forall o x, truthy o = Some x -> o = Some x /\ x <> "") as Ht.
  { intros [y|] x; cbn; [|discriminate]. case_bool_decide; [discriminate|].
    intros [= ->]. auto. }
  destruct (truthy (successMessage response)) as [x|] eqn:E1.
  - case_bool_decide; [|discriminate]. intros [= ->].
    destruct (Ht _ _ E1). auto.
  - destruct (truthy (messageMap response ≫= _)) as [x|] eqn:E2; [|discriminate].
    case_bool_decide; [|discriminate]. intros [= ->].
    destruct (Ht _ _ E2). auto.
Qed.

(** A response whose config asks for the success toast and brings the
    message in its table. *)
Definition saved : Response :=
  {| data := JObj [("code", JNum 200); ("data", JObj [("id", JNum 7)])];
     showSuccessToast := Some true; successMessage := None;
     messageMap := Some {[ Tag "success" := "Saved" ]} |}.

Lemma success_toast_only_when_asked_witness :
  fst (onFulfilled saved) = Some "Saved" /\
  showSuccessToast saved = Some true /\
  snd (onFulfilled saved) = JObj [("id", JNum 7)].
Proof.
  assert (fst (onFulfilled saved) = Some "Saved") as H by (vm_compute; reflexivity).
  destruct (success_toast_only_when_asked saved "Saved" H) as (H1 & _).
  exact (conj H (conj H1 eq_refl)).
Defined.

End ResponseProofs.

(** ** The user service behind the interceptor *)
Module ServiceProofs.
Import ErrorService ApiService UserService.

Section Service.

Variable translate : string -> string -> string.
Variable DEBUG : bool.
Variable getErrorMessage : string -> string.

Abbreviation changePassword := (changePassword translate).
Abbreviation update := (update translate).

(** The error axios raises for a request and the response that rejects it. *)
Definition rejectedWith (request : RequestConfig) (code : Z) (body : option string)
  : AxiosError :=
  {| config := request;
     response := Some {| status := code; dataMessage := body |};
     customStatus := None; message := None |}.

Lemma handleApiError_incorrect error :
  effectiveStatus error = Tag "incorrect" ->
  handleApiError getErrorMessage error
  = (LogError "Incorrect data error",
     displayToast error toast_error
       (getCustomMessage getErrorMessage error (Tag "incorrect") "incorrect")).
Proof. unfold handleApiError. intros ->. reflexivity. Qed.

(** X18.  A caller-supplied [messageMap] replaces the message table of the
    service function as a whole: the service's own entries are used only
    when the caller passes none. *)
Theorem caller_messageMap_replaces_table (c : CallerConfig) :
  messageMap (changePassword c)
  = Some (default
            (<[ Tag "success" := translate "user.changePassword.messages.success"
                                   "Password changed successfully" ]>
               {[ Tag "incorrect" := translate "user.changePassword.messages.incorrect"
                                       "Current password is incorrect" ]})
            (c_messageMap c)) /\
  (forall m, c_messageMap c = Some m -> m !! Tag "incorrect" = None ->
     messageMap (changePassword c) ≫= (fun t => t !! Tag "incorrect") = None).
Proof.
  split.
  - unfold UserService.changePassword, serviceConfig. cbn [messageMap].
    destruct (c_messageMap c); cbn; [reflexivity|]. now rewrite (left_id ∅ (∪)).
  - intros m Hm Hi. unfold UserService.changePassword, serviceConfig. cbn [messageMap].
    rewrite Hm. cbn. exact Hi.
Qed.

Lemma onRequest_keeps tokenNow c s :
  noToken (onRequest tokenNow c s) = noToken c /\
  _retry (onRequest tokenNow c s) = _retry c /\
  showErrorToast (onRequest tokenNow c s) = showErrorToast c /\
  messageMap (onRequest tokenNow c s) = messageMap c.
Proof. unfold onRequest. repeat case_match; cbn; auto. Qed.

(** X19.  A wrong current password on [changePassword], called without
    overrides while no refresh is in flight.  The request goes out through
    the request interceptor and comes back with a 401 whose message names
    the password: the rejected branch neither refreshes the token nor logs
    the user out, and the toast shown is the service's own
    incorrect-password message (when the translation is not empty). *)
Theorem wrong_password_shows_service_message
    (tokenNow : answer (option string)) (body : string) (s0 s : State) :
  isPasswordError body = true -> body <> "" ->
  isRefreshingToken s = false ->
  translate "user.changePassword.messages.incorrect" "Current password is incorrect" <> "" ->
  let sent := onRequest tokenNow (changePassword noOverrides) s0 in
  let error := rejectedWith sent 401 (Some body) in
  let tagged := setCustomStatus (Some "incorrect") error in
  onRejected getErrorMessage error s
  = (emit (Handled tagged (LogError "Incorrect data error")
             (Some (toast_error,
                    translate "user.changePassword.messages.incorrect"
                      "Current password is incorrect"))) s,
     Rejected tagged).
Proof.
  intros Hpw Hb Hr Ht sent error tagged.
  destruct (onRequest_keeps tokenNow (changePassword noOverrides) s0)
    as (Hnt & _ & Hst & Hmm).
  fold sent in Hnt, Hst, Hmm. clearbody sent. subst tagged error.
  unfold onRejected, rejectedWith.
  cbn [response fmap option_fmap option_map status].
  rewrite bool_decide_eq_true_2 by reflexivity.
  cbn [config mbind option_bind dataMessage]. rewrite Hnt, Hr.
  cbn [noToken UserService.changePassword serviceConfig noOverrides c_noToken default
         negb andb].
  unfold truthy at 1.
  rewrite bool_decide_eq_false_2 by exact Hb. cbn [default]. unfold id. rewrite Hpw.
  unfold surface. rewrite handleApiError_incorrect by reflexivity.
  unfold displayToast, getCustomMessage, entry.
  cbn [config setCustomStatus]. rewrite Hst, Hmm.
  rewrite bool_decide_eq_true_2 by reflexivity.
  assert (messageMap (changePassword noOverrides) ≫= (fun t => t !! Tag "incorrect")
          = Some (translate "user.changePassword.messages.incorrect"
                    "Current password is incorrect")) as ->.
  { unfold UserService.changePassword, serviceConfig.
    cbn [messageMap noOverrides c_messageMap default mbind option_bind].
    rewrite (left_id ∅ (∪)).
    rewrite lookup_insert_ne by discriminate. apply lookup_singleton_eq. }
  unfold truthy. rewrite bool_decide_eq_false_2 by exact Ht. reflexivity.
Qed.

End Service.

(** No translation is loaded: [i18n.t] gives the default value. *)
Definition untranslated (key defaultValue : string) : string := defaultValue.

Lemma wrong_password_shows_service_message_witness :
  isPasswordError "Current password is incorrect" = true /\
  authorization (onRequest (Gives (Some "t1")) (changePassword untranslated noOverrides)
                   ApiProofs.wired)
  = Some "Bearer t1" /\
  snd (onRejected ApiProofs.defaults
         (rejectedWith
            (onRequest (Gives (Some "t1")) (changePassword untranslated noOverrides)
               ApiProofs.wired)
            401 (Some "Current password is incorrect")) ApiProofs.wired)
  = Rejected (setCustomStatus (Some "incorrect")
                (rejectedWith
                   (onRequest (Gives (Some "t1")) (changePassword untranslated noOverrides)
                      ApiProofs.wired)
                   401 (Some "Current password is incorrect"))).
Proof.
  assert (isPasswordError "Current password is incorrect" = true) as Hpw
    by (vm_compute; reflexivity).
  assert ("Current password is incorrect" <> "") as Hb by discriminate.
  assert (untranslated "user.changePassword.messages.incorrect"
            "Current password is incorrect" <> "") as Ht by discriminate.
  pose proof (wrong_password_shows_service_message untranslated ApiProofs.defaults
                (Gives (Some "t1")) "Current password is incorrect"
                ApiProofs.wired ApiProofs.wired Hpw Hb eq_refl Ht) as H.
  cbv zeta in H.
  refine (conj Hpw (conj _ (f_equal snd H))).
  vm_compute. reflexivity.
Defined.

End ServiceProofs.

(** ** More on the session hook *)
Module KeycloakMore.
Import UseKeycloak KeycloakProofs.

(** *** Who a notification reaches *)

(** A notification changes the cells of no hook that is not subscribed
    and of none that is unmounted. *)
Theorem notification_skips_other_hooks (newState : StateChange) (w : World) (h : nat) :
  h ∉ stateSubscribers (globals w) \/ isMountedRef (hook w h) = false ->
  hook (notify newState w) h = hook w h /\
  hook (resetGlobalState w) h = hook w h.
Proof.
  intros H. split.
  - rewrite notify_fold. now apply deliveries_skip.
  - unfold resetGlobalState. rewrite notify_fold.
    match goal with |- hook (deliveries _ _ ?w0) h = _ =>
      change (hook w h) with (hook w0 h) end.
    now apply deliveries_skip.
Qed.

Section Hook.

Variable clientId : string.
Variable superRole : string.

Abbreviation hasRole := (hasRole clientId superRole).
Abbreviation resume := (resume clientId superRole).

(** X20.  [resetGlobalState] reaches every hook that is subscribed and mounted,
    not only the one whose logout or whose provider event caused it: all
    its session cells are cleared, and [hasRole] is false on it for every
    role. *)
Theorem reset_reaches_every_subscribed_hook (w : World) (h : nat) :
  h ∈ stateSubscribers (globals w) ->
  isMountedRef (hook w h) = true ->
  cleared (hook (resetGlobalState w) h) /\
  isMountedRef (hook (resetGlobalState w) h) = true /\
  forall requiredRole, hasRole h requiredRole (resetGlobalState w) = false.
Proof.
  intros Hin Hm.
  assert (cleared (hook (resetGlobalState w) h) /\
          isMountedRef (hook (resetGlobalState w) h) = true) as [Hc Hm'].
  { unfold resetGlobalState. rewrite notify_fold.
    apply (deliveries_reach (fun x => cleared x /\ isMountedRef x = true));
      [| | exact Hin | exact Hm].
    - intros x [Hc Hx]. unfold handleStateChange, cleared. rewrite Hx. cbn. auto 10.
    - intros x Hx. unfold handleStateChange, cleared. rewrite Hx. cbn. auto 10. }
  split; [exact Hc|]. split; [exact Hm'|].
  intros requiredRole. unfold UseKeycloak.hasRole.
  destruct Hc as (_ & -> & _). reflexivity.
Qed.

(** *** Roles *)

(** The roles of an instance: its realm roles, then its roles on the
    client. *)
Definition rolesOf (i : Keycloak) : list string :=
  default [] (realmRoles i) ++ default [] (resourceAccess i !! clientId).

(** X21.  [hasRole] grants a role exactly when the hook's [authenticated] cell
    is set, the role is not the empty string, the hook holds an instance
    that is itself authenticated, and the user has either the role or the
    super role, among the realm roles or the client roles. *)
Theorem hasRole_characterisation (h : nat) (requiredRole : string) (w : World) :
  hasRole h requiredRole w = true <->
  authenticated (hook w h) = true /\ requiredRole <> "" /\
  exists k, keycloak (hook w h) = Some k /\
    kcAuthenticated (instance w k) = true /\
    (superRole ∈ rolesOf (instance w k) \/ requiredRole ∈ rolesOf (instance w k)).
Proof.
  unfold UseKeycloak.hasRole, held, hasSuperRole, getUserRoles, getClientRoles, rolesOf.
  destruct (authenticated (hook w h)); cbn [negb orb];
    [|split; [discriminate | intros ([=] & _)]].
  case_bool_decide as Hr; [split; [discriminate | intros (_ & Hne & _); contradiction]|].
  destruct (keycloak (hook w h)) as [k|]; cbn [fmap option_fmap option_map].
  2:{ rewrite bool_decide_eq_false_2 by (intros Hin; inversion Hin).
      split; [discriminate | intros (_ & _ & k & [=] & _)]. }
  destruct (kcAuthenticated (instance w k)) eqn:Ea; cbv iota.
  2:{ rewrite bool_decide_eq_false_2 by (intros Hin; inversion Hin).
      split; [discriminate | intros (_ & _ & k' & [= <-] & Ha & _); congruence]. }
  case_bool_decide as Hs.
  - split; [|reflexivity]. intros _. split; [reflexivity|]. split; [exact Hr|].
    exists k. rewrite Ea. auto.
  - rewrite bool_decide_eq_true. split.
    + intros Hin. split; [reflexivity|]. split; [exact Hr|]. exists k.
      rewrite Ea. auto.
    + intros (_ & _ & k' & [= <-] & _ & [Hin|Hin]); [contradiction | exact Hin].
Qed.

(** *** Unmounting *)

(** X22.  Unmounting a hook takes it out of the subscribers, cancels its armed
    refresh timer and leaves the other hooks as they are.  Afterwards no
    notification changes its cells, the timer callback makes no call to the
    provider, and a refresh attempt that was in flight arms no timer and
    changes none of its cells when it is answered. *)
Theorem unmount_detaches_hook (h : nat) (w : World) :
  let w' := unmount h w in
  (h ∉ stateSubscribers (globals w')) /\
  isMountedRef (hook w' h) = false /\
  updateTokenTimeoutRef (hook w' h) = None /\
  (forall t, updateTokenTimeoutRef (hook w h) = Some t -> timers (outside w') !! t = None) /\
  (forall h', h' <> h ->
     hook w' h' = hook w h' /\
     (h' ∈ stateSubscribers (globals w') <-> h' ∈ stateSubscribers (globals w))) /\
  (forall newState, hook (notify newState w') h = hook w' h) /\
  (forall k, updateToken h k w' = w') /\
  (forall k a, outside (updateTokenResumes h k a w') = outside w' /\
               hook (updateTokenResumes h k a w') h = hook w' h).
Proof.
  intros w'.
  set (w1 := withHook h (setIsMountedRef false) (unsubscribe h w)).
  assert (w' = match updateTokenTimeoutRef (hook w h) with
               | Some t => withHook h (setUpdateTokenTimeoutRef None) (clearTimeout t w1)
               | None => w1
               end) as Hw'.
  { unfold w', unmount. fold w1. unfold w1, hook. cbn. now rewrite fn_lookup_insert. }
  assert (stateSubscribers (globals w')
          = filter (fun h' => h' <> h) (stateSubscribers (globals w))) as Hsubs
    by (rewrite Hw'; destruct (updateTokenTimeoutRef (hook w h)); reflexivity).
  assert (isMountedRef (hook w' h) = false /\ updateTokenTimeoutRef (hook w' h) = None)
    as [Hm Ht].
  { rewrite Hw'. destruct (updateTokenTimeoutRef (hook w h)) eqn:E;
      unfold w1, hook in *; cbn; rewrite ?fn_lookup_insert; cbn; auto. }
  split; [rewrite Hsubs, list_elem_of_filter; tauto|].
  split; [exact Hm|]. split; [exact Ht|].
  split.
  { intros t Et. rewrite Hw', Et. cbn. apply lookup_delete_eq. }
  split.
  { intros h' Hne. split.
    - rewrite Hw'. destruct (updateTokenTimeoutRef (hook w h));
        unfold w1, hook; cbn; rewrite ?fn_lookup_insert_ne by congruence; reflexivity.
    - rewrite Hsubs, list_elem_of_filter. tauto. }
  split.
  { intros newState. rewrite notify_fold. apply deliveries_skip. now right. }
  split.
  { intros k. unfold updateToken. now rewrite Hm. }
  intros k [r|e]; unfold updateTokenResumes.
  - destruct r as [t rt|].
    + assert (hook (storeTokens k t rt w') h = hook w' h) as Hh by reflexivity.
      rewrite Hh, Hm. cbn [andb]. rewrite Hh, Hm. auto.
    + rewrite Hm. cbn [andb]. rewrite Hm. auto.
  - rewrite Hm. auto.
Qed.

(** *** When the handshake is answered *)

Lemma init_answer_reaches_every_hook_aux (p k h : nat) (fields : Keycloak) (w : World) :
  promises (objects w) p = Running k ->
  h ∈ stateSubscribers (globals w) ->
  isMountedRef (hook w h) = true ->
  let w' := initAnswers p (Gives fields) w in
  loading (hook w' h) = false /\
  keycloak (hook w' h) = Some k /\
  authenticated (hook w' h) = kcAuthenticated fields /\
  error (hook w' h) = None /\
  initializationState (globals w') = initialized /\
  keycloakSingleton (globals w') = Some k /\
  instance w' k = fields.
Proof.
  intros Hrun Hin Hm w'. unfold w', initAnswers, initSettles. rewrite Hrun.
  match goal with |- context [notify ?n ?w0] =>
    destruct (notify_frame n w0) as (Hg & _ & Hi & _);
    pose proof (deliveries_reach
      (fun x => loading x = false /\ keycloak x = Some k /\
                authenticated x = kcAuthenticated fields /\ error x = None /\
                isMountedRef x = true) n (stateSubscribers (globals w0)) w0 h) as Hreach;
    rewrite <- notify_fold in Hreach;
    set (w1 := notify n w0) in * end.
  cbn in Hg, Hi. destruct Hreach as (H1 & H2 & H3 & H4 & _); [| |exact Hin|exact Hm|].
  - intros x (? & ? & ? & ? & Hx). unfold handleStateChange. rewrite Hx. cbn. auto.
  - intros x Hx. unfold handleStateChange. rewrite Hx. cbn. auto.
  - unfold hook, instance in *. cbn. rewrite Hg, Hi. cbn. rewrite fn_lookup_insert. auto 10.
Qed.

(** X23.  The answer of the provider's [init] reaches every hook that is
    subscribed and mounted, whichever hook started the handshake, when it
    is a success or a rejection that carries an error: on success each hook
    gets the instance and its [authenticated] flag, on such a rejection
    each gets the error, and none is left loading.  A rejection without a
    reason reaches no hook: the [catch] throws at [error.message] before
    it notifies, the module state is failed with no error recorded, and
    every hook is as it was, a loading one still loading. *)
Theorem init_answer_reaches_every_hook
    (p k h : nat) (a : InitAnswer) (w : World) :
  promises (objects w) p = Running k ->
  h ∈ stateSubscribers (globals w) ->
  isMountedRef (hook w h) = true ->
  let w' := initSettles p a w in
  match a with
  | Authenticates fields =>
      loading (hook w' h) = false /\
      keycloak (hook w' h) = Some k /\
      authenticated (hook w' h) = kcAuthenticated fields /\
      error (hook w' h) = None /\
      initializationState (globals w') = initialized /\
      keycloakSingleton (globals w') = Some k /\
      instance w' k = fields
  | RejectsWith e =>
      loading (hook w' h) = false /\
      error (hook w' h)
      = Some (if bool_decide (e = "") then "Keycloak initialization failed" else e) /\
      initializationState (globals w') = failed /\
      globalError (globals w') = Some e
  | RejectsBare =>
      hook w' h = hook w h /\
      initializationState (globals w') = failed /\
      globalError (globals w') = None /\
      promises (objects w') p = RejectedWith "TypeError"
  end.
Proof.
  intros Hrun Hin Hm w'. destruct a as [fields|e|].
  { destruct (init_answer_reaches_every_hook_aux p k h fields w Hrun Hin Hm)
      as (H1 & H2 & H3 & H4 & H5 & H6 & H7).
    exact (conj H1 (conj H2 (conj H3 (conj H4 (conj H5 (conj H6 H7)))))). }
  - unfold w', initSettles. rewrite Hrun.
    match goal with |- context [notify ?n ?w0] =>
      destruct (notify_frame n w0) as (Hg & _);
      pose proof (deliveries_reach
        (fun x => loading x = false /\
                  error x = Some (default "Keycloak initialization failed"
                                    (truthy (Some e))) /\
                  isMountedRef x = true) n (stateSubscribers (globals w0)) w0 h) as Hreach;
      rewrite <- notify_fold in Hreach;
      set (w1 := notify n w0) in * end.
    cbn in Hg. destruct Hreach as (H1 & H2 & _); [| |exact Hin|exact Hm|].
    + intros x (? & ? & Hx). unfold handleStateChange. rewrite Hx. cbn. auto.
    + intros x Hx. unfold handleStateChange. rewrite Hx. cbn. auto.
    + unfold hook in *. cbn. rewrite Hg. cbn. split; [exact H1|]. split; [|auto].
      rewrite H2. unfold truthy. case_bool_decide; reflexivity.
  - unfold w', initSettles. rewrite Hrun. cbn. rewrite fn_lookup_insert. auto.
Qed.

(** Once the handshake has succeeded, a further call of [initKeycloak]
    changes nothing, makes no call to the provider and resolves to the
    instance. *)
Theorem initKeycloak_after_success
    (p k h : nat) (fields : Keycloak) (profile : answer Profile) (w : World) :
  promises (objects w) p = Running k ->
  let w' := initAnswers p (Gives fields) w in
  initKeycloak w' = (w', ReturnsSingleton k) /\
  resume h (ReturnsSingleton k) profile w' = (w', Settled (Resolves (Instance k))).
Proof.
  intros Hrun w'. split; [|reflexivity].
  assert (initializationState (globals w') = initialized /\
          keycloakSingleton (globals w') = Some k) as [Hi Hs].
  { unfold w', initAnswers, initSettles. rewrite Hrun.
    match goal with |- context [notify ?n ?w0] =>
      destruct (notify_frame n w0) as (Hg & _) end.
    cbn. rewrite Hg. cbn. auto. }
  unfold initKeycloak. now rewrite Hi, Hs.
Qed.

(** X24.  After a failed handshake the next call of [initKeycloak] starts over:
    it drops the rejected promise and the error, creates a new instance and
    starts one new handshake on it. *)
Theorem initKeycloak_after_failure_starts_over (w : World) :
  initializationState (globals w) = failed ->
  let p := nextPromise (objects w) in
  let k := nextInstance (objects w) in
  let w' := fst (initKeycloak w) in
  snd (initKeycloak w) = AwaitsInit p /\
  initializationState (globals w') = initializing /\
  globalError (globals w') = None /\
  keycloakSingleton (globals w') = None /\
  keycloakInitPromise (globals w') = Some p /\
  promises (objects w') p = Running k /\
  providerCalls (outside w') = providerCalls (outside w) ++ [Init k].
Proof.
  intros Hf. unfold initKeycloak. rewrite Hf.
  rewrite bool_decide_eq_true_2 by reflexivity. cbv iota.
  destruct (resetGlobalState_frame w) as (R1 & R2 & R3 & R4 & R5 & R6 & R7 & R8 & R9 & R10).
  set (w0 := resetGlobalState w) in *.
  match goal with |- context [notify LOADING ?wx] =>
    destruct (notify_frame LOADING wx) as (Hg & Ho & Hin & Hni & Hpr & Hnp);
    set (w1 := notify LOADING wx) in * end.
  cbn in Hg, Ho, Hin, Hni, Hpr, Hnp.
  rewrite Hg. cbn [keycloakInitPromise]. rewrite R2.
  unfold startInit, allocInstance, allocPromise. cbn.
  rewrite Hnp, Hni, Ho, Hg, R6, R8, R10, R1. cbn. rewrite fn_lookup_insert. auto 10.
Qed.

(** *** Hooks mounted later *)

(** X25.  A hook mounted after the handshake has succeeded copies the instance
    and its credentials, and does nothing else: it makes no call to the
    provider, arms no refresh timer and loads no user info. *)
Theorem late_mount_copies_singleton (h k : nat) (w : World) :
  initializationState (globals w) = initialized ->
  keycloakSingleton (globals w) = Some k ->
  let w' := fst (mount h w) in
  snd (mount h w) = None /\
  outside w' = outside w /\
  h ∈ stateSubscribers (globals w') /\
  keycloak (hook w' h) = Some k /\
  authenticated (hook w' h) = kcAuthenticated (instance w k) /\
  token (hook w' h) = truthy (kcToken (instance w k)) /\
  refreshToken (hook w' h) = truthy (kcRefreshToken (instance w k)) /\
  loading (hook w' h) = false /\
  userInfo (hook w' h) = None /\
  updateTokenTimeoutRef (hook w' h) = None.
Proof.
  intros Hi Hs w'.
  assert (forall w0, objects (subscribe h w0) = objects w0 /\
                     outside (subscribe h w0) = outside w0 /\
                     initializationState (globals (subscribe h w0))
                     = initializationState (globals w0) /\
                     keycloakSingleton (globals (subscribe h w0))
                     = keycloakSingleton (globals w0) /\
                     h ∈ stateSubscribers (globals (subscribe h w0))) as Hsub'.
  { intros w0. unfold subscribe. case_bool_decide as E; cbn; [auto 10|].
    repeat split. apply elem_of_app. right. apply list_elem_of_singleton. reflexivity. }
  unfold w', mount, initializeOnMount.
  match goal with |- context [subscribe h ?w0] =>
    destruct (Hsub' w0) as (Hob & Hou & Hst & Hsi & Hel); set (w1 := subscribe h w0) in * end.
  cbn in Hou, Hst, Hsi, Hob.
  cbn [globals withHook withObjects]. rewrite Hst, Hi, Hsi, Hs.
  rewrite bool_decide_eq_false_2 by discriminate.
  rewrite bool_decide_eq_false_2 by discriminate. cbn [orb fst snd].
  unfold hook, instance. cbn. rewrite Hob. cbn. rewrite !fn_lookup_insert.
  cbn. auto 12.
Qed.

(** X26.  The hook whose mount starts the handshake is not [loading] while the
    handshake runs: its cell starts as [false], the module state being
    idle at its first render, and the LOADING notification sets no cell. *)
Theorem starting_hook_is_not_loading (h : nat) (w : World) :
  initializationState (globals w) = idle ->
  let w' := fst (mount h w) in
  (exists p, snd (mount h w) = Some (AwaitsInit p)) /\
  initializationState (globals w') = initializing /\
  isMountedRef (hook w' h) = true /\
  loading (hook w' h) = false.
Proof.
  intros Hi w'.
  set (w0 := withHook h (setIsMountedRef true)
               (subscribe h (withHook h (fun _ => firstRender w) w))).
  assert (initializationState (globals w0) = idle /\
          hook w0 h = setIsMountedRef true (firstRender w)) as [Hi0 Hh0].
  { unfold w0, subscribe, hook. case_bool_decide; cbn; rewrite !fn_lookup_insert; auto. }
  assert (mount h w = (fst (initKeycloak w0), Some (snd (initKeycloak w0)))) as Hmount.
  { unfold mount, initializeOnMount. fold w0. rewrite Hi0. rewrite bool_decide_eq_true_2 by reflexivity.
    cbn [orb]. now destruct (initKeycloak w0). }
  unfold w'. rewrite Hmount. cbn [fst snd].
  unfold initKeycloak. rewrite Hi0. rewrite bool_decide_eq_false_2 by discriminate.
  cbv iota.
  match goal with |- context [notify LOADING ?wx] =>
    destruct (notify_frame LOADING wx) as (Hg & _);
    pose proof (notify_hook (fun x => isMountedRef x = true /\ loading x = false)
                  LOADING wx h) as Hkeep;
    set (w1 := notify LOADING wx) in * end.
  assert (isMountedRef (hook w1 h) = true /\ loading (hook w1 h) = false) as [Hm Hl].
  { apply Hkeep.
    - intros x [Hx Hlx]. unfold handleStateChange. rewrite Hx. cbn. auto.
    - change (hook _ h) with (hook w0 h). rewrite Hh0. unfold firstRender. cbn.
      rewrite Hi. auto. }
  cbn in Hg.
  destruct (keycloakInitPromise (globals w1)) as [p|] eqn:Ep.
  - cbn [fst snd]. rewrite Hg. cbn. eauto 10.
  - unfold startInit, allocInstance, allocPromise. cbn [fst snd].
    split; [eauto|]. cbn. rewrite Hg. cbn. auto.
Qed.

(** X27.  A hook mounted while the handshake is running starts nothing of its
    own and waits for the notification.  When the provider answers it gets
    the instance and the [authenticated] flag, its [token] cell still
    empty.  At the render that follows, its effect runs again, the
    [keycloak] cell having changed, and copies the credentials of the
    singleton into the [token] and [refreshToken] cells; it calls neither
    [initKeycloak] nor the provider, its [userInfo] stays empty and it
    arms no refresh timer: those are set only in the hook that made the
    call. *)
Theorem mount_during_handshake_waits (p k h : nat) (fields : Keycloak) (w : World) :
  initializationState (globals w) = initializing ->
  keycloakSingleton (globals w) = None ->
  promises (objects w) p = Running k ->
  let w1 := fst (mount h w) in
  let w2 := initAnswers p (Gives fields) w1 in
  let w3 := fst (render w2) in
  snd (mount h w) = None /\
  loading (hook w1 h) = true /\
  outside w2 = outside w /\
  keycloak (hook w2 h) = Some k /\
  authenticated (hook w2 h) = kcAuthenticated fields /\
  loading (hook w2 h) = false /\
  token (hook w2 h) = None /\
  userInfo (hook w2 h) = None /\
  updateTokenTimeoutRef (hook w2 h) = None /\
  snd (render w2) = [] /\
  providerCalls (outside w3) = providerCalls (outside w) /\
  nextTimer (outside w3) = nextTimer (outside w) /\
  keycloak (hook w3 h) = Some k /\
  authenticated (hook w3 h) = kcAuthenticated fields /\
  token (hook w3 h) = truthy (kcToken fields) /\
  refreshToken (hook w3 h) = truthy (kcRefreshToken fields) /\
  loading (hook w3 h) = false /\
  userInfo (hook w3 h) = None /\
  updateTokenTimeoutRef (hook w3 h) = None.
Proof.
  intros Hi Hs Hrun w1 w2 w3.
  set (w0 := subscribe h (withHook h (fun _ => firstRender w) w)).
  assert (objects w0 = objects (withHook h (fun _ => firstRender w) w) /\
          outside w0 = outside w /\
          initializationState (globals w0) = initializing /\
          h ∈ stateSubscribers (globals w0)) as (Hob & Hou & Hst & Hel).
  { unfold w0, subscribe. case_bool_decide as E; cbn; [auto|].
    repeat split; auto. apply elem_of_app. right. apply list_elem_of_singleton. reflexivity. }
  assert (mount h w = (withHook h (setIsMountedRef true) w0, None)) as Hmount.
  { unfold mount. fold w0. now apply initializeOnMount_initializing. }
  assert (hook w1 h = setIsMountedRef true (firstRender w)) as Hh1.
  { unfold w1. rewrite Hmount. unfold hook. cbn. rewrite Hob. cbn.
    now rewrite !fn_lookup_insert. }
  assert (outside w1 = outside w /\ promises (objects w1) p = Running k /\
          h ∈ stateSubscribers (globals w1)) as (Ho1 & Hp1 & Hel1).
  { unfold w1. rewrite Hmount. cbn. rewrite Hob, Hou. cbn. auto. }
  split; [now rewrite Hmount|].
  split; [rewrite Hh1; unfold firstRender; cbn; now rewrite Hi|].
  assert (isMountedRef (hook w1 h) = true) as Hm1 by now rewrite Hh1.
  destruct (init_answer_reaches_every_hook_aux p k h fields w1 Hp1 Hel1 Hm1)
    as (L & K & A & _ & I5 & I6 & I7).
  fold w2 in L, K, A, I5, I6, I7.
  assert (outside w2 = outside w1 /\
          stateSubscribers (globals w2) = stateSubscribers (globals w1) /\
          token (hook w2 h) = None /\ userInfo (hook w2 h) = None /\
          updateTokenTimeoutRef (hook w2 h) = None /\
          effectKeycloak (hook w2 h) = None) as (Ho2 & Hsub2 & T & U & R & E).
  { unfold w2, initAnswers, initSettles. rewrite Hp1.
    match goal with |- context [notify ?n ?wx] =>
      destruct (notify_frame n wx) as (Hg & Ho & _);
      pose proof (notify_hook
        (fun x => token x = None /\ userInfo x = None /\ updateTokenTimeoutRef x = None /\
                  effectKeycloak x = None)
        n wx h) as Hkeep;
      set (w4 := notify n wx) in * end.
    cbn in Ho, Hg. split; [exact Ho|]. split; [cbn; now rewrite Hg|]. apply Hkeep.
    - intros x (? & ? & ? & ?). unfold handleStateChange. destruct (isMountedRef x); cbn; auto.
    - change (hook _ h) with (hook w1 h). rewrite Hh1. unfold firstRender. cbn.
      now rewrite Hs. }
  rewrite Ho2, Ho1. do 7 (split; [assumption || reflexivity|]).
  assert (h ∈ rerun w2) as Hrerun.
  { apply elem_of_rerun. rewrite K, E, Hsub2. split; [discriminate | exact Hel1]. }
  destruct (render_initialized w2 k I5 I6) as (R1 & _ & R3 & _ & R5).
  destruct (render_cancels w2) as (_ & R6 & _ & R7).
  fold w3 in R3, R5, R6, R7.
  destruct (R5 h Hrerun) as (S1 & S2 & S3 & S4 & S5 & _). rewrite I7 in S2, S3, S4.
  destruct (R7 h Hrerun) as [R8 _].
  split; [exact R1|]. split; [now rewrite R3, Ho2, Ho1|]. split; [now rewrite R6, Ho2, Ho1|].
  do 5 (split; [assumption|]). split; [|exact R8].
  apply (render_keeps (fun x => userInfo x = None)); [|exact U].
  repeat split; intros; cbn; auto.
  unfold handleStateChange. destruct (isMountedRef x), newState; cbn; auto.
Qed.

End Hook.

(** *** On the concrete page *)

(** Hook 0 is mounted and the handshake is running. *)
Definition handshake : World := fst (mount 0 initialWorld).

(** The provider could not be reached. *)
Definition refused : World := initAnswers 0 (Fails "down") handshake.

Lemma handshake_subscribed : 0 ∈ stateSubscribers (globals handshake).
Proof.
  replace (stateSubscribers (globals handshake)) with [0] by (vm_compute; reflexivity).
  apply list_elem_of_singleton. reflexivity.
Defined.

(** Hook 1 was never mounted. *)
Lemma notification_skips_other_hooks_witness :
  isMountedRef (hook signedIn 1) = false /\
  hook (notify RESET signedIn) 1 = hook signedIn 1 /\
  hook (resetGlobalState signedIn) 1 = hook signedIn 1.
Proof.
  assert (isMountedRef (hook signedIn 1) = false) as Hm by (vm_compute; reflexivity).
  exact (conj Hm (notification_skips_other_hooks RESET signedIn 1 (or_intror Hm))).
Defined.

Lemma reset_reaches_every_subscribed_hook_witness :
  isMountedRef (hook signedIn 0) = true /\
  hasRoleApp 0 "editor" signedIn = true /\
  cleared (hook (resetGlobalState signedIn) 0) /\
  hasRoleApp 0 "editor" (resetGlobalState signedIn) = false.
Proof.
  assert (isMountedRef (hook signedIn 0) = true) as Hm by (vm_compute; reflexivity).
  assert (hasRoleApp 0 "editor" signedIn = true) as Hr by (vm_compute; reflexivity).
  destruct (reset_reaches_every_subscribed_hook "app" "tsadmin" signedIn 0
              signedIn_subscribed Hm) as (H1 & _ & H3).
  exact (conj Hm (conj Hr (conj H1 (H3 "editor")))).
Defined.

(** Hook 1 is mounted while the handshake hook 0 started is running. *)
Definition joined : World := fst (mount 1 handshake).

Lemma joined_subscribed : 1 ∈ stateSubscribers (globals joined).
Proof.
  replace (stateSubscribers (globals joined)) with [0; 1] by (vm_compute; reflexivity).
  apply list_elem_of_further, list_elem_of_here.
Defined.

(** The provider rejects the handshake without a reason: hook 1, which was
    loading, still is. *)
Lemma init_answer_reaches_every_hook_witness :
  promises (objects joined) 0 = Running 0 /\
  isMountedRef (hook joined 1) = true /\
  loading (hook joined 1) = true /\
  hook (initSettles 0 RejectsBare joined) 1 = hook joined 1 /\
  initializationState (globals (initSettles 0 RejectsBare joined)) = failed.
Proof.
  assert (promises (objects joined) 0 = Running 0) as Hp by (vm_compute; reflexivity).
  assert (isMountedRef (hook joined 1) = true) as Hm by (vm_compute; reflexivity).
  assert (loading (hook joined 1) = true) as Hl by (vm_compute; reflexivity).
  destruct (init_answer_reaches_every_hook 0 0 1 RejectsBare joined Hp
              joined_subscribed Hm) as (H1 & H2 & _).
  exact (conj Hp (conj Hm (conj Hl (conj H1 H2)))).
Defined.

(** The same page when the provider signs alice in: both hooks get the
    instance. *)
Example init_success_reaches_both_hooks :
  keycloak (hook (initSettles 0 (Authenticates alice) joined) 0) = Some 0 /\
  keycloak (hook (initSettles 0 (Authenticates alice) joined) 1) = Some 0 /\
  loading (hook (initSettles 0 (Authenticates alice) joined) 1) = false.
Proof. vm_compute. repeat split; reflexivity. Qed.

Lemma initKeycloak_after_success_witness :
  promises (objects handshake) 0 = Running 0 /\
  initKeycloak (initAnswers 0 (Gives alice) handshake)
  = (initAnswers 0 (Gives alice) handshake, ReturnsSingleton 0).
Proof.
  assert (promises (objects handshake) 0 = Running 0) as Hp by (vm_compute; reflexivity).
  destruct (initKeycloak_after_success "app" "tsadmin" 0 0 0 alice aliceProfile handshake Hp)
    as (H1 & _).
  exact (conj Hp H1).
Defined.

Lemma initKeycloak_after_failure_starts_over_witness :
  initializationState (globals refused) = failed /\
  globalError (globals refused) = Some "down" /\
  snd (initKeycloak refused) = AwaitsInit 1 /\
  globalError (globals (fst (initKeycloak refused))) = None /\
  providerCalls (outside (fst (initKeycloak refused))) = [Init 0; Init 1].
Proof.
  assert (initializationState (globals refused) = failed) as Hf by (vm_compute; reflexivity).
  assert (globalError (globals refused) = Some "down") as He by (vm_compute; reflexivity).
  destruct (initKeycloak_after_failure_starts_over refused Hf)
    as (H1 & _ & H3 & _ & _ & _ & H7).
  replace (nextPromise (objects refused)) with 1 in H1 by (vm_compute; reflexivity).
  replace (nextInstance (objects refused)) with 1 in H7 by (vm_compute; reflexivity).
  replace (providerCalls (outside refused)) with [Init 0] in H7 by (vm_compute; reflexivity).
  exact (conj Hf (conj He (conj H1 (conj H3 H7)))).
Defined.

Lemma starting_hook_is_not_loading_witness :
  initializationState (globals initialWorld) = idle /\
  snd (mount 0 initialWorld) = Some (AwaitsInit 0) /\
  initializationState (globals handshake) = initializing /\
  loading (hook handshake 0) = false.
Proof.
  assert (snd (mount 0 initialWorld) = Some (AwaitsInit 0)) as Hc
    by (vm_compute; reflexivity).
  destruct (starting_hook_is_not_loading 0 initialWorld eq_refl) as (_ & H2 & _ & H4).
  exact (conj eq_refl (conj Hc (conj H2 H4))).
Defined.

(** Hook 1 is mounted on the page where alice is signed in. *)
Lemma late_mount_copies_singleton_witness :
  initializationState (globals signedIn) = initialized /\
  keycloakSingleton (globals signedIn) = Some 0 /\
  snd (mount 1 signedIn) = None /\
  outside (fst (mount 1 signedIn)) = outside signedIn /\
  userInfo (hook (fst (mount 1 signedIn)) 1) = None /\
  is_Some (userInfo (hook signedIn 0)).
Proof.
  assert (initializationState (globals signedIn) = initialized) as Hi
    by (vm_compute; reflexivity).
  assert (keycloakSingleton (globals signedIn) = Some 0) as Hs by (vm_compute; reflexivity).
  assert (is_Some (userInfo (hook signedIn 0))) as Hu by (vm_compute; eexists; reflexivity).
  destruct (late_mount_copies_singleton 1 0 signedIn Hi Hs)
    as (H1 & H2 & _ & _ & _ & _ & _ & _ & H9 & _).
  exact (conj Hi (conj Hs (conj H1 (conj H2 (conj H9 Hu))))).
Defined.

(** Hook 1 is mounted while the handshake hook 0 started is running. *)
Lemma mount_during_handshake_waits_witness :
  initializationState (globals handshake) = initializing /\
  keycloakSingleton (globals handshake) = None /\
  promises (objects handshake) 0 = Running 0 /\
  kcToken alice = Some "t1" /\
  authenticated (hook (initAnswers 0 (Gives alice) (fst (mount 1 handshake))) 1) = true /\
  token (hook (initAnswers 0 (Gives alice) (fst (mount 1 handshake))) 1) = None /\
  token (hook (fst (render (initAnswers 0 (Gives alice) (fst (mount 1 handshake))))) 1)
  = truthy (kcToken alice) /\
  userInfo (hook (fst (render (initAnswers 0 (Gives alice) (fst (mount 1 handshake))))) 1)
  = None.
Proof.
  assert (initializationState (globals handshake) = initializing) as Hi
    by (vm_compute; reflexivity).
  assert (keycloakSingleton (globals handshake) = None) as Hs by (vm_compute; reflexivity).
  assert (promises (objects handshake) 0 = Running 0) as Hp by (vm_compute; reflexivity).
  destruct (mount_during_handshake_waits 0 0 1 alice handshake Hi Hs Hp)
    as (_ & _ & _ & _ & H5 & _ & H7 & _ & _ & _ & _ & _ & _ & _ & H15 & _ & _ & H18 & _).
  exact (conj Hi (conj Hs (conj Hp (conj eq_refl (conj H5 (conj H7 (conj H15 H18))))))).
Defined.

End KeycloakMore.

(** ** The session hook behind the interceptor *)
Module SessionProofs.
Import UseKeycloak KeycloakProofs ErrorService ApiService.

Section Interceptor.

Variable getErrorMessage : string -> string.

Abbreviation afterRefresh := (afterRefresh getErrorMessage).

Lemma updateTokenResumes_keeps_instance h k r w :
  keycloak (hook w h) = Some k ->
  keycloak (hook (fst (KeycloakTokens.updateTokenResumes h k (Gives r) w)) h) = Some k /\
  instance (fst (KeycloakTokens.updateTokenResumes h k (Gives r) w)) k
  = match r with
    | Refreshed t rt =>
        {| kcAuthenticated := kcAuthenticated (instance w k); kcToken := t;
           kcRefreshToken := rt; realmRoles := realmRoles (instance w k);
           resourceAccess := resourceAccess (instance w k);
           tokenLocale := tokenLocale (instance w k) |}
    | StillValid => instance w k
    end /\
  snd (KeycloakTokens.updateTokenResumes h k (Gives r) w)
  = Gives match r with Refreshed _ _ => true | StillValid => false end.
Proof.
  intros Hk. unfold KeycloakTokens.updateTokenResumes.
  destruct r as [t rt|]; cbn [andb]; [|auto].
  assert (instance (storeTokens k t rt w) k
          = {| kcAuthenticated := kcAuthenticated (instance w k); kcToken := t;
               kcRefreshToken := rt; realmRoles := realmRoles (instance w k);
               resourceAccess := resourceAccess (instance w k);
               tokenLocale := tokenLocale (instance w k) |}) as Hi
    by (unfold instance, storeTokens; cbn; apply fn_lookup_insert).
  destruct (isMountedRef (hook (storeTokens k t rt w) h)); cbn [fst snd]; [|auto].
  match goal with |- context [notify ?n ?w0] =>
    destruct (notify_frame n w0) as (_ & _ & Hin & _);
    pose proof (notify_hook (fun x => keycloak x = Some k) n w0 h) as Hkeep end.
  split; [|split; [|reflexivity]].
  - apply Hkeep.
    + intros x Hx. unfold handleStateChange. destruct (isMountedRef x); cbn; auto.
    + unfold hook in *. cbn. rewrite !fn_lookup_insert. cbn. exact Hk.
  - unfold instance in *. rewrite Hin. cbn. exact Hi.
Qed.

(** X28.  The provider context hands the hook's [getToken] and [updateToken] to
    the interceptor.  When the provider refreshed the credentials, the
    hook's [updateToken] resolves with [true], its [getToken] then gives
    the new token, and the interceptor sends the rejected request again
    with that token as its bearer credential. *)
Theorem refreshed_token_is_sent
    (h k : nat) (t : string) (rt : option string) (err : AxiosError)
    (w : World) (s : State) :
  keycloak (hook w h) = Some k ->
  t <> "" ->
  is_Some (getTokenFunction s) ->
  let w' := fst (KeycloakTokens.updateTokenResumes h k (Gives (Refreshed (Some t) rt)) w) in
  let refreshed :=
    snd (KeycloakTokens.updateTokenResumes h k (Gives (Refreshed (Some t) rt)) w) in
  let again := withConfig (setAuthorization (Some ("Bearer " +:+ t))) err in
  KeycloakTokens.getToken h w' = Some t /\
  afterRefresh refreshed (Gives (KeycloakTokens.getToken h w')) err s
  = (emit (Resent (config again)) s, AwaitingRetry again).
Proof.
  intros Hk Ht [g Hg] w' refreshed again.
  destruct (updateTokenResumes_keeps_instance h k (Refreshed (Some t) rt) w Hk)
    as (Hk' & Hi & Hr).
  fold w' in Hk', Hi. fold refreshed in Hr.
  assert (KeycloakTokens.getToken h w' = Some t) as Htok.
  { unfold KeycloakTokens.getToken. rewrite Hk'. cbn [mbind option_bind]. rewrite Hi.
    cbn. now rewrite bool_decide_eq_false_2. }
  split; [exact Htok|].
  rewrite Htok, Hr. unfold ApiService.afterRefresh. rewrite Hg. cbn [truthy].
  now rewrite bool_decide_eq_false_2.
Qed.

(** When the provider finds the token still valid for the asked thirty
    seconds it refreshes nothing: the hook's [updateToken] resolves with
    [false] and changes nothing, and the interceptor, which asked for the
    refresh because the backend answered 401, logs the user out and
    rejects the request. *)
Theorem still_valid_token_logs_out
    (h k : nat) (tokenNow : answer (option string)) (err : AxiosError)
    (w : World) (s : State) :
  is_Some (logoutFunction s) ->
  let quiet := withConfig (setShowErrorToast (Some false)) err in
  KeycloakTokens.updateTokenResumes h k (Gives StillValid) w = (w, Gives false) /\
  snd (afterRefresh (snd (KeycloakTokens.updateTokenResumes h k (Gives StillValid) w))
         tokenNow err s) = Rejected quiet /\
  effects (fst (afterRefresh (snd (KeycloakTokens.updateTokenResumes h k (Gives StillValid) w))
                  tokenNow err s))
  = effects s ++ [CalledLogout;
                  Handled quiet (fst (handleApiError getErrorMessage quiet))
                    (snd (handleApiError getErrorMessage quiet))].
Proof.
  intros [f Hf] quiet. split; [reflexivity|].
  cbn [KeycloakTokens.updateTokenResumes snd andb].
  unfold ApiService.afterRefresh, refreshFailed, logoutQuietly. rewrite Hf.
  fold quiet. unfold surface. destruct (handleApiError getErrorMessage quiet) as [l toast].
  cbn. rewrite <- app_assoc. auto.
Qed.

End Interceptor.

(** *** On the concrete page and requests *)

Lemma refreshed_token_is_sent_witness :
  keycloak (hook signedIn 0) = Some 0 /\
  KeycloakTokens.getToken 0 signedIn = Some "t1" /\
  KeycloakTokens.getToken 0
    (fst (KeycloakTokens.updateTokenResumes 0 0 (Gives (Refreshed (Some "t2") (Some "r2")))
            signedIn))
  = Some "t2".
Proof.
  assert (keycloak (hook signedIn 0) = Some 0) as Hk by (vm_compute; reflexivity).
  assert (KeycloakTokens.getToken 0 signedIn = Some "t1") as H1 by (vm_compute; reflexivity).
  assert ("t2" <> "") as Ht by discriminate.
  assert (is_Some (getTokenFunction ApiProofs.wired)) as Hg by (eexists; reflexivity).
  destruct (refreshed_token_is_sent ApiProofs.defaults 0 0 "t2" (Some "r2")
              ApiProofs.expiredA signedIn ApiProofs.wired Hk Ht Hg) as (H2 & _).
  exact (conj Hk (conj H1 H2)).
Defined.

Lemma still_valid_token_logs_out_witness :
  is_Some (logoutFunction ApiProofs.wired) /\
  snd (ApiService.afterRefresh ApiProofs.defaults
         (snd (KeycloakTokens.updateTokenResumes 0 0 (Gives StillValid) signedIn))
         (Gives (Some "t1")) ApiProofs.expiredA ApiProofs.wired)
  = Rejected (withConfig (setShowErrorToast (Some false)) ApiProofs.expiredA).
Proof.
  assert (is_Some (logoutFunction ApiProofs.wired)) as Hl by (eexists; reflexivity).
  destruct (still_valid_token_logs_out ApiProofs.defaults 0 0 (Gives (Some "t1"))
              ApiProofs.expiredA signedIn ApiProofs.wired Hl) as (_ & H2 & _).
  exact (conj Hl H2).
Defined.

End SessionProofs.

(** ** The options of the connection manager *)
Module OptionsProofs.
Import WebSocketHook WebSocketOptions WebSocketProofs.

Lemma explicit_options_fallbacks (env : Env) (url : option string) (o : Options) :
  let c := makeConfig env url o in
  reconnectInterval c = default (RECONNECT_INTERVAL env) (o_reconnectInterval o) /\
  maxReconnectAttempts c = default (MAX_RECONNECT_ATTEMPTS env) (o_maxReconnectAttempts o) /\
  enableReconnect c = default true (o_enableReconnect o) /\
  enableMessageHistory c = default true (o_enableMessageHistory o) /\
  enableAuth c = default true (o_enableAuth o) /\
  protocols c = default [] (o_protocols o) /\
  authMethod c = default "url" (o_authMethod o).
Proof.
  unfold makeConfig. cbn.
  destruct o as [ri ma er eh ea pr am ? ? ? ?]. cbn.
  destruct ri as [ri|], ma as [ma|], er as [[]|], eh as [[]|], ea as [[]|],
           pr as [pr|], am as [am|]; cbn; auto 10.
Qed.

(** Every key the caller sets in [options] reaches the [config] as it is,
    a zero or an empty string included: the fallbacks of the computed keys
    apply only to the keys the caller leaves out. *)
Theorem explicit_options_replace_fallbacks (env : Env) (url : option string) (o : Options) :
  let c := makeConfig env url o in
  reconnectInterval c = default (RECONNECT_INTERVAL env) (o_reconnectInterval o) /\
  maxReconnectAttempts c = default (MAX_RECONNECT_ATTEMPTS env) (o_maxReconnectAttempts o) /\
  enableReconnect c = default true (o_enableReconnect o) /\
  enableMessageHistory c = default true (o_enableMessageHistory o) /\
  enableAuth c = default true (o_enableAuth o) /\
  protocols c = default [] (o_protocols o) /\
  authMethod c = default "url" (o_authMethod o).
Proof. exact (explicit_options_fallbacks env url o). Qed.

(** X29.  Under [WebSocketProvider] the limits of the environment are never
    used: a key the application leaves out gets the provider's default. *)
Theorem provider_ignores_env_limits (env : Env) (url : option string) (o : Options) :
  let c := providerConfig env url o in
  reconnectInterval c = default 3000%Z (o_reconnectInterval o) /\
  maxReconnectAttempts c = default 5%Z (o_maxReconnectAttempts o) /\
  enableReconnect c = default true (o_enableReconnect o) /\
  enableMessageHistory c = default true (o_enableMessageHistory o) /\
  enableAuth c = default true (o_enableAuth o).
Proof.
  unfold providerConfig.
  destruct (explicit_options_fallbacks env url (spread providerDefaults o))
    as (-> & -> & -> & -> & -> & _).
  destruct o as [ri ma er eh ea pr am ? ? ? ?]. cbn.
  destruct ri, ma, er, eh, ea; cbn; auto.
Qed.

(** X30.  An explicit [maxReconnectAttempts: 0] is not replaced by a default,
    directly or under the provider, and with it no close event schedules
    a reconnection. *)
Theorem zero_limit_disables_reconnect
    (env : Env) (url : option string) (o : Options) (config : Config)
    (behaviour : fn -> JsVal -> option string) (k : nat) (wasClean : bool) (s : State) :
  o_maxReconnectAttempts o = Some 0%Z ->
  config = makeConfig env url o \/ config = providerConfig env url o ->
  let s' := stateOf (onclose config behaviour k wasClean s) in
  maxReconnectAttempts config = 0%Z /\
  attempts s' = attempts s /\
  noNewTimer s s'.
Proof.
  intros Hz Hc s'.
  assert (maxReconnectAttempts config = 0%Z) as Hmax.
  { destruct Hc as [-> | ->].
    - destruct (explicit_options_fallbacks env url o) as (_ & -> & _). now rewrite Hz.
    - unfold providerConfig.
      destruct (explicit_options_fallbacks env url (spread providerDefaults o))
        as (_ & -> & _).
      cbn. now rewrite Hz. }
  split; [exact Hmax|].
  destruct (onclose_cases config behaviour k wasClean s) as [H | (_ & _ & _ & Hlt & _)].
  - exact H.
  - rewrite Hmax in Hlt. lia.
Qed.

(** *** On a concrete environment *)

Definition production : Env :=
  {| URL := "wss://host/ws"; RECONNECT_INTERVAL := 1000; MAX_RECONNECT_ATTEMPTS := 10 |}.

(** [{ maxReconnectAttempts: 0 }] *)
Definition never : Options :=
  {| o_reconnectInterval := None; o_maxReconnectAttempts := Some 0%Z;
     o_enableReconnect := None; o_enableMessageHistory := None; o_enableAuth := None;
     o_protocols := None; o_authMethod := None;
     o_onOpen := None; o_onMessage := None; o_onError := None; o_onClose := None |}.

Lemma zero_limit_disables_reconnect_witness :
  o_maxReconnectAttempts never = Some 0%Z /\
  maxReconnectAttempts (providerConfig production None never) = 0%Z /\
  attempts (stateOf (onclose (providerConfig production None never) handlers 0 false opened))
  = attempts opened.
Proof.
  destruct (zero_limit_disables_reconnect production None never
              (providerConfig production None never) handlers 0 false opened
              eq_refl (or_intror eq_refl)) as (H1 & H2 & _).
  exact (conj eq_refl (conj H1 H2)).
Defined.

End OptionsProofs.
